(** * e2fsck/journal.c: the ext3 journal consistency and recovery driver

    A shallow embedding of [e2fsck/journal.c] and the properties its
    specification states about it.

    Conventions of the embedding.
    - C integers are [Z]; the 32-bit on-disk fields of the journal superblock
      are decoded from and encoded into the bytes of the buffer, big-endian,
      so that [ntohl (jsb->f)] is [get_be32 off data] and
      [jsb->f = htonl v] is [put_be32 off v data], on any host byte order.
    - Pointers that alias are one value here: [journal->j_superblock] points
      into [journal->j_sb_buffer->b_data], so every access to a field of the
      journal superblock is an access to [b_data (j_sb_buffer journal)];
      [sb] is [ctx->fs->super].
    - The external collaborators (problem channel, allocator, inode service,
      block device, revoke table, recovery engine, image reopen) are fields
      of the machine state: what they answer is data of the run, and what
      the driver asks of them is logged.
    - A function that returns a code and fills [journal_t **journal] returns
      [inl code] or [inr journal]; one that works on a [journal_t *] returns
      the journal it leaves.
    - The code a library call returns is an [errcode_t]; where the source
      keeps it in an [int retval] it goes through [int_of_errcode] before
      it is tested, stored or reported.
    - [struct problem_context] only carries what is displayed with a
      question (a number, a string); it is left out, and [fix_problem] takes
      the problem code alone. *)

From Stdlib Require Import ZArith List Bool Lia String.
From Stdlib Require Import Init.Byte.
Import ListNotations.
Local Open Scope Z_scope.

(* ================================================================= *)
(** ** Bytes and big-endian 32-bit fields *)

Module Bytes.

Definition byte_val (b : byte) : Z := Z.of_N (Byte.to_N b).

Definition byte_of_Z (z : Z) : byte :=
  match Byte.of_N (Z.to_N (z mod 256)) with
  | Some b => b
  | None => x00
  end.

(** [store off bs d]: the bytes [bs] written over [d] from index [off];
    positions beyond the end of [d] are not part of the region and stay
    absent (the C array [b_data] is larger than any block). *)
Fixpoint store (off : nat) (bs d : list byte) : list byte :=
  match d with
  | [] => []
  | x :: d' =>
      match off with
      | O => match bs with
             | [] => x :: d'
             | b :: bs' => b :: store O bs' d'
             end
      | S off' => x :: store off' bs d'
      end
  end.

(** [ntohl] of the 32-bit field at byte offset [off]. *)
Definition get_be32 (off : nat) (d : list byte) : Z :=
  byte_val (nth off d x00) * 16777216
  + byte_val (nth (off + 1) d x00) * 65536
  + byte_val (nth (off + 2) d x00) * 256
  + byte_val (nth (off + 3) d x00).

(** The 32-bit field at byte offset [off] assigned [htonl v]. *)
Definition put_be32 (off : nat) (v : Z) (d : list byte) : list byte :=
  store off [byte_of_Z (v / 16777216); byte_of_Z (v / 65536);
             byte_of_Z (v / 256); byte_of_Z v] d.

(** [memset (p + off, 0, len)]. *)
Definition memset0 (off len : nat) (d : list byte) : list byte :=
  store off (repeat x00 len) d.

Definition byte_is_zero (b : byte) : bool := Byte.eqb b x00.

End Bytes.
Import Bytes.

(* ================================================================= *)
(** ** Error codes, problem codes and constants of the absent headers *)

(** The codes [journal.c] names, and every other integer an [errcode_t] or
    an [int] return value may hold ([ERRNO n]; [ERRNO 0] is success).  The
    numeric values of the named codes live in the generated [ext2_err.h],
    which the driver never inspects: it only tests a code against zero and
    against another name. *)
Inductive errcode_t : Type :=
| EXT2_ET_BAD_INODE_NUM
| EXT2_ET_UNSUPP_FEATURE
| EXT2_ET_RO_UNSUPP_FEATURE
| EXT2_ET_CORRUPT_SUPERBLOCK
| EXT2_ET_NO_MEMORY
| EXT2_ET_FILE_RO
| ERRNO (n : Z).

Definition OK : errcode_t := ERRNO 0.

(** The C test [if (retval)]. *)
Definition is_err (e : errcode_t) : bool :=
  match e with
  | ERRNO n => negb (n =? 0)
  | _ => true
  end.

(** Modelled from the spec: [errcode_t] is declared in [com_err.h], which
    is not among the sources, as a [long].  [bmap], [ll_rw_block] and
    [e2fsck_journal_init_inode] keep the code a library call returns in an
    [int retval]: the named codes fit an [int], any other value is taken
    modulo 2^32 into the range of a 32-bit [int], so that a non-zero code
    that is a multiple of 2^32 is tested, stored and reported as 0. *)
Definition int_of_errcode (e : errcode_t) : errcode_t :=
  match e with
  | ERRNO n => ERRNO ((n + 2147483648) mod 4294967296 - 2147483648)
  | c => c
  end.

(** The questions [journal.c] puts to the problem channel ([problem.h]). *)
Inductive problem_t : Type :=
| PR_0_JOURNAL_UNSUPP_DEV
| PR_0_JOURNAL_UNSUPP_UUID
| PR_0_JOURNAL_BAD_DEV
| PR_0_JOURNAL_BAD_UUID
| PR_0_JOURNAL_BAD_INODE
| PR_0_JOURNAL_RECOVER_SET
| PR_0_JOURNAL_UNSUPP_SUPER
| PR_0_JOURNAL_BAD_SUPER
| PR_0_JOURNAL_HAS_JOURNAL
| PR_0_JOURNAL_RESET_JOURNAL.

(** Modelled from the spec: the constants below are declared in headers
    that are not part of the sources at hand ([ext2_fs.h], [ext2fs.h],
    [e2fsck.h], [jfs.h], [jfs_user.h]).  The spec's section 6 fixes the
    journal magic, the block types (1 = V1, 2 = V2), the 12-byte header and
    the offsets of the fields up to [start]; the two feature words the load
    looks at follow [start] and [s_errno] at offsets 40 and 44.  The flags
    the spec calls has-journal, recovery-needed, valid and read-only are
    single-bit masks, the minimum journal length is 1024 blocks, and the
    known feature sets are the revoke bit and the empty set.  No property
    below depends on these values beyond the masks being non-zero. *)
Module Const.
Definition EXT3_FEATURE_COMPAT_HAS_JOURNAL : Z := 4.
Definition EXT3_FEATURE_INCOMPAT_RECOVER : Z := 4.
Definition EXT2_VALID_FS : Z := 1.
Definition EXT2_GOOD_OLD_REV : Z := 0.
Definition EXT2_GOOD_OLD_FIRST_INO : Z := 11.
Definition EXT2_FLAG_RW : Z := 1.
Definition EXT2_FLAG_CHANGED : Z := 2.
Definition EXT2_FLAG_DIRTY : Z := 4.
Definition E2F_OPT_READONLY : Z := 1.
Definition JFS_MAGIC_NUMBER : Z := 3225106840.   (* 0xC03B3998 *)
Definition JFS_SUPERBLOCK_V1 : Z := 1.
Definition JFS_SUPERBLOCK_V2 : Z := 2.
Definition JFS_MIN_JOURNAL_BLOCKS : Z := 1024.
Definition JFS_KNOWN_INCOMPAT_FEATURES : Z := 1.
Definition JFS_KNOWN_ROCOMPAT_FEATURES : Z := 0.
Definition LINUX_S_IFMT : Z := 61440.            (* 0170000 *)
Definition LINUX_S_IFREG : Z := 32768.           (* 0100000 *)
(** [sizeof (journal_header_t)] and the byte offsets of the fields of
    [journal_superblock_t]. *)
Definition sizeof_journal_header_t : nat := 12.
Definition off_h_magic : nat := 0.
Definition off_h_blocktype : nat := 4.
Definition off_h_sequence : nat := 8.
Definition off_s_blocksize : nat := 12.
Definition off_s_maxlen : nat := 16.
Definition off_s_first : nat := 20.
Definition off_s_sequence : nat := 24.
Definition off_s_start : nat := 28.
Definition off_s_feature_incompat : nat := 40.
Definition off_s_feature_ro_compat : nat := 44.
Definition READ : Z := 0.
Definition WRITE : Z := 1.
End Const.
Import Const.

(* ================================================================= *)
(** ** Data model

    Modelled from the spec: the structures are declared in headers that are
    not part of the sources at hand.  The records have the fields
    [journal.c] reads and writes, which are those of the spec's section 3;
    a back reference to the context ([b_ctx], [i_ctx], [j_dev]) is not a
    field, the context being the state every function runs in. *)

Record ext2_super_block : Type := {
  s_state : Z;
  s_rev_level : Z;
  s_first_ino : Z;
  s_feature_compat : Z;
  s_feature_incompat : Z;
  s_journal_uuid : list byte;
  s_journal_inum : Z;
  s_journal_dev : Z
}.

Record ext2_inode : Type := {
  i_mode : Z;
  i_size : Z;
  i_links_count : Z
}.

(** [struct inode] of [jfs_user.h]; [i_ctx] is the context every function
    receives anyway. *)
Record inode_t : Type := {
  i_ino : Z;
  i_ext2 : ext2_inode
}.

Record buffer_head : Type := {
  b_size : Z;
  b_blocknr : Z;
  b_dirty : Z;
  b_uptodate : Z;
  b_err : errcode_t;
  b_data : list byte
}.

Record journal_t : Type := {
  j_inode : option inode_t;
  j_blocksize : Z;
  j_maxlen : Z;
  j_format_version : Z;
  j_tail_sequence : Z;
  j_transaction_sequence : Z;
  j_tail : Z;
  j_first : Z;
  j_last : Z;
  j_sb_buffer : buffer_head
}.

Record ext2_filsys : Type := {
  super : ext2_super_block;
  blocksize : Z;
  flags : Z;
  io_manager : Z
}.

Record e2fsck_t : Type := {
  fs : ext2_filsys;
  options : Z;
  superblock : Z;
  filesystem_name : string;
  device_name : string;
  program_name : string
}.

(* ----------------------------------------------------------------- *)
(** *** The external collaborators *)

(** Problem channel: the answers still to come, and the questions asked so
    far with the answer each got, oldest first. *)
Record problem_channel : Type := {
  answers : list bool;
  asked : list (problem_t * bool)
}.

(** Allocator: whether the n-th allocation succeeds, how many were made,
    and the objects allocated and not yet freed, per kind. *)
Record allocator : Type := {
  alloc_ok : nat -> bool;
  allocs : nat;
  live_journals : nat;
  live_inodes : nat;
  live_buffers : nat
}.

(** Inode service: [ext2fs_read_inode] and [ext2fs_bmap].  The block map
    gives the return code and the value the call leaves in its output
    variable. *)
Record inode_service : Type := {
  inode_table : Z -> errcode_t * ext2_inode;
  block_map : Z -> Z -> errcode_t * Z
}.

Inductive io_event : Type :=
| PhysRead (blk : Z)
| PhysWrite (blk : Z) (data : list byte).

(** Block device: its contents, the return code of the n-th physical
    transfer, and the transfers issued so far, oldest first. *)
Record block_device : Type := {
  blocks : Z -> list byte;
  io_result : nat -> errcode_t;
  io_log : list io_event
}.

Inductive call_t : Type :=
| CallInitRevoke (buckets : Z)
| CallRecover
| CallClose
| CallOpen (name : string) (oflags sb_offset bsize manager : Z).

(** Revoke table, recovery engine and image reopen: what each returns.
    The engine returns its [int] and the journal and device it leaves. *)
Record services : Type := {
  journal_init_revoke_result : journal_t -> Z -> errcode_t;
  journal_recover_result :
    journal_t -> (Z -> list byte) -> Z * journal_t * (Z -> list byte);
  ext2fs_open_result : string -> Z -> Z -> Z -> Z -> errcode_t * ext2_filsys
}.

Inductive message : Type :=
| ComErr (whoami : string) (code : errcode_t) (text : string)
| Printf (text : string).

Record state : Type := {
  ctx : e2fsck_t;
  problems : problem_channel;
  memory : allocator;
  inodes : inode_service;
  device : block_device;
  externals : services;
  calls : list call_t;
  diag : list message
}.

(* ----------------------------------------------------------------- *)
(** *** Field updates *)

Definition set_s_state (v : Z) (sb : ext2_super_block) : ext2_super_block :=
  {| s_state := v; s_rev_level := s_rev_level sb;
     s_first_ino := s_first_ino sb;
     s_feature_compat := s_feature_compat sb;
     s_feature_incompat := s_feature_incompat sb;
     s_journal_uuid := s_journal_uuid sb;
     s_journal_inum := s_journal_inum sb;
     s_journal_dev := s_journal_dev sb |}.

Definition set_s_feature_compat (v : Z) (sb : ext2_super_block)
  : ext2_super_block :=
  {| s_state := s_state sb; s_rev_level := s_rev_level sb;
     s_first_ino := s_first_ino sb;
     s_feature_compat := v;
     s_feature_incompat := s_feature_incompat sb;
     s_journal_uuid := s_journal_uuid sb;
     s_journal_inum := s_journal_inum sb;
     s_journal_dev := s_journal_dev sb |}.

Definition set_s_feature_incompat (v : Z) (sb : ext2_super_block)
  : ext2_super_block :=
  {| s_state := s_state sb; s_rev_level := s_rev_level sb;
     s_first_ino := s_first_ino sb;
     s_feature_compat := s_feature_compat sb;
     s_feature_incompat := v;
     s_journal_uuid := s_journal_uuid sb;
     s_journal_inum := s_journal_inum sb;
     s_journal_dev := s_journal_dev sb |}.

Definition set_s_journal_uuid (v : list byte) (sb : ext2_super_block)
  : ext2_super_block :=
  {| s_state := s_state sb; s_rev_level := s_rev_level sb;
     s_first_ino := s_first_ino sb;
     s_feature_compat := s_feature_compat sb;
     s_feature_incompat := s_feature_incompat sb;
     s_journal_uuid := v;
     s_journal_inum := s_journal_inum sb;
     s_journal_dev := s_journal_dev sb |}.

Definition set_s_journal_inum (v : Z) (sb : ext2_super_block)
  : ext2_super_block :=
  {| s_state := s_state sb; s_rev_level := s_rev_level sb;
     s_first_ino := s_first_ino sb;
     s_feature_compat := s_feature_compat sb;
     s_feature_incompat := s_feature_incompat sb;
     s_journal_uuid := s_journal_uuid sb;
     s_journal_inum := v;
     s_journal_dev := s_journal_dev sb |}.

Definition set_s_journal_dev (v : Z) (sb : ext2_super_block)
  : ext2_super_block :=
  {| s_state := s_state sb; s_rev_level := s_rev_level sb;
     s_first_ino := s_first_ino sb;
     s_feature_compat := s_feature_compat sb;
     s_feature_incompat := s_feature_incompat sb;
     s_journal_uuid := s_journal_uuid sb;
     s_journal_inum := s_journal_inum sb;
     s_journal_dev := v |}.

Definition set_super (v : ext2_super_block) (f : ext2_filsys) : ext2_filsys :=
  {| super := v; blocksize := blocksize f; flags := flags f;
     io_manager := io_manager f |}.

Definition set_flags (v : Z) (f : ext2_filsys) : ext2_filsys :=
  {| super := super f; blocksize := blocksize f; flags := v;
     io_manager := io_manager f |}.

Definition set_fs (v : ext2_filsys) (c : e2fsck_t) : e2fsck_t :=
  {| fs := v; options := options c; superblock := superblock c;
     filesystem_name := filesystem_name c; device_name := device_name c;
     program_name := program_name c |}.

Definition set_b_dirty (v : Z) (bh : buffer_head) : buffer_head :=
  {| b_size := b_size bh; b_blocknr := b_blocknr bh; b_dirty := v;
     b_uptodate := b_uptodate bh; b_err := b_err bh; b_data := b_data bh |}.

Definition set_b_uptodate (v : Z) (bh : buffer_head) : buffer_head :=
  {| b_size := b_size bh; b_blocknr := b_blocknr bh; b_dirty := b_dirty bh;
     b_uptodate := v; b_err := b_err bh; b_data := b_data bh |}.

Definition set_b_err (v : errcode_t) (bh : buffer_head) : buffer_head :=
  {| b_size := b_size bh; b_blocknr := b_blocknr bh; b_dirty := b_dirty bh;
     b_uptodate := b_uptodate bh; b_err := v; b_data := b_data bh |}.

Definition set_b_data (v : list byte) (bh : buffer_head) : buffer_head :=
  {| b_size := b_size bh; b_blocknr := b_blocknr bh; b_dirty := b_dirty bh;
     b_uptodate := b_uptodate bh; b_err := b_err bh; b_data := v |}.

Definition set_j_maxlen (v : Z) (j : journal_t) : journal_t :=
  {| j_inode := j_inode j; j_blocksize := j_blocksize j; j_maxlen := v;
     j_format_version := j_format_version j;
     j_tail_sequence := j_tail_sequence j;
     j_transaction_sequence := j_transaction_sequence j;
     j_tail := j_tail j; j_first := j_first j; j_last := j_last j;
     j_sb_buffer := j_sb_buffer j |}.

Definition set_j_format_version (v : Z) (j : journal_t) : journal_t :=
  {| j_inode := j_inode j; j_blocksize := j_blocksize j;
     j_maxlen := j_maxlen j; j_format_version := v;
     j_tail_sequence := j_tail_sequence j;
     j_transaction_sequence := j_transaction_sequence j;
     j_tail := j_tail j; j_first := j_first j; j_last := j_last j;
     j_sb_buffer := j_sb_buffer j |}.

Definition set_j_transaction_sequence (v : Z) (j : journal_t) : journal_t :=
  {| j_inode := j_inode j; j_blocksize := j_blocksize j;
     j_maxlen := j_maxlen j; j_format_version := j_format_version j;
     j_tail_sequence := j_tail_sequence j;
     j_transaction_sequence := v;
     j_tail := j_tail j; j_first := j_first j; j_last := j_last j;
     j_sb_buffer := j_sb_buffer j |}.

(** The five assignments that end [e2fsck_journal_load]. *)
Definition set_j_live (tail_seq trans_seq tail first last : Z) (j : journal_t)
  : journal_t :=
  {| j_inode := j_inode j; j_blocksize := j_blocksize j;
     j_maxlen := j_maxlen j; j_format_version := j_format_version j;
     j_tail_sequence := tail_seq;
     j_transaction_sequence := trans_seq;
     j_tail := tail; j_first := first; j_last := last;
     j_sb_buffer := j_sb_buffer j |}.

Definition set_j_sb_buffer (v : buffer_head) (j : journal_t) : journal_t :=
  {| j_inode := j_inode j; j_blocksize := j_blocksize j;
     j_maxlen := j_maxlen j; j_format_version := j_format_version j;
     j_tail_sequence := j_tail_sequence j;
     j_transaction_sequence := j_transaction_sequence j;
     j_tail := j_tail j; j_first := j_first j; j_last := j_last j;
     j_sb_buffer := v |}.

Definition set_ctx (v : e2fsck_t) (s : state) : state :=
  {| ctx := v; problems := problems s; memory := memory s;
     inodes := inodes s; device := device s; externals := externals s;
     calls := calls s; diag := diag s |}.

Definition set_problems (v : problem_channel) (s : state) : state :=
  {| ctx := ctx s; problems := v; memory := memory s;
     inodes := inodes s; device := device s; externals := externals s;
     calls := calls s; diag := diag s |}.

Definition set_memory (v : allocator) (s : state) : state :=
  {| ctx := ctx s; problems := problems s; memory := v;
     inodes := inodes s; device := device s; externals := externals s;
     calls := calls s; diag := diag s |}.

Definition set_device (v : block_device) (s : state) : state :=
  {| ctx := ctx s; problems := problems s; memory := memory s;
     inodes := inodes s; device := v; externals := externals s;
     calls := calls s; diag := diag s |}.

Definition set_calls (v : list call_t) (s : state) : state :=
  {| ctx := ctx s; problems := problems s; memory := memory s;
     inodes := inodes s; device := device s; externals := externals s;
     calls := v; diag := diag s |}.

Definition set_diag (v : list message) (s : state) : state :=
  {| ctx := ctx s; problems := problems s; memory := memory s;
     inodes := inodes s; device := device s; externals := externals s;
     calls := calls s; diag := v |}.

(* ================================================================= *)
(** ** The monad of the driver

    A computation runs from a machine state to one of three outcomes: it
    returns ([Done]), it aborts the process through [fatal_error]
    ([Fatal]), or it waits for an answer the problem channel does not have
    ([Blocked]). *)

Inductive outcome (A : Type) : Type :=
| Done (a : A) (s : state)
| Fatal (s : state)
| Blocked (s : state).
Arguments Done {A} a s.
Arguments Fatal {A} s.
Arguments Blocked {A} s.

Definition M (A : Type) : Type := state -> outcome A.

Definition ret {A : Type} (a : A) : M A := fun s => Done a s.

Definition bind {A B : Type} (m : M A) (k : A -> M B) : M B :=
  fun s =>
    match m s with
    | Done a s' => k a s'
    | Fatal s' => Fatal s'
    | Blocked s' => Blocked s'
    end.

Declare Scope journal_scope.
Delimit Scope journal_scope with journal.
Notation "x <- m ;; k" := (bind m (fun x => k))
  (at level 61, m at next level, right associativity) : journal_scope.
Notation "' pat <- m ;; k" := (bind m (fun x => match x with pat => k end))
  (at level 61, pat pattern, m at next level, right associativity)
  : journal_scope.
Notation "m ;; k" := (bind m (fun _ => k))
  (at level 61, right associativity) : journal_scope.
Local Open Scope journal_scope.

Definition gets {A : Type} (f : state -> A) : M A := fun s => Done (f s) s.
Definition modify (f : state -> state) : M unit := fun s => Done tt (f s).
Definition fatal_error {A : Type} : M A := fun s => Fatal s.

(** [sb->...] reads and writes go through [ctx->fs->super]. *)
Definition get_sb : M ext2_super_block := gets (fun s => super (fs (ctx s))).

Definition update_sb (f : ext2_super_block -> ext2_super_block) : M unit :=
  modify (fun s =>
    set_ctx (set_fs (set_super (f (super (fs (ctx s)))) (fs (ctx s))) (ctx s)) s).

(** Modelled from the spec: [ext2fs_mark_super_dirty] of [ext2fs.h], not at
    hand; the spec's "dirty super", the filesystem flagged changed and
    dirty for the outer driver to write back. *)
Definition ext2fs_mark_super_dirty : M unit :=
  modify (fun s =>
    set_ctx (set_fs (set_flags
      (Z.lor (flags (fs (ctx s))) (Z.lor EXT2_FLAG_DIRTY EXT2_FLAG_CHANGED))
      (fs (ctx s))) (ctx s)) s).

Definition com_err (whoami : string) (code : errcode_t) (text : string)
  : M unit :=
  modify (fun s => set_diag (diag s ++ [ComErr whoami code text]) s).

Definition printf (text : string) : M unit :=
  modify (fun s => set_diag (diag s ++ [Printf text]) s).

(** [fix_problem]: takes the next answer of the problem channel and logs
    the question with it. *)
Definition fix_problem (code : problem_t) : M bool :=
  fun s =>
    match answers (problems s) with
    | [] => Blocked s
    | a :: rest =>
        Done a (set_problems
                  {| answers := rest;
                     asked := asked (problems s) ++ [(code, a)] |} s)
    end.

Inductive obj_kind : Type := KJournal | KInode | KBuffer.

Definition add_live (k : obj_kind) (m : allocator) : allocator :=
  {| alloc_ok := alloc_ok m; allocs := allocs m;
     live_journals :=
       match k with KJournal => S (live_journals m) | _ => live_journals m end;
     live_inodes :=
       match k with KInode => S (live_inodes m) | _ => live_inodes m end;
     live_buffers :=
       match k with KBuffer => S (live_buffers m) | _ => live_buffers m end |}.

Definition sub_live (k : obj_kind) (m : allocator) : allocator :=
  {| alloc_ok := alloc_ok m; allocs := allocs m;
     live_journals :=
       match k with
       | KJournal => pred (live_journals m) | _ => live_journals m end;
     live_inodes :=
       match k with KInode => pred (live_inodes m) | _ => live_inodes m end;
     live_buffers :=
       match k with
       | KBuffer => pred (live_buffers m) | _ => live_buffers m end |}.

Definition count_alloc (m : allocator) : allocator :=
  {| alloc_ok := alloc_ok m; allocs := S (allocs m);
     live_journals := live_journals m; live_inodes := live_inodes m;
     live_buffers := live_buffers m |}.

(** [e2fsck_allocate_memory], as [journal.c] uses it: [true] for a
    zero-filled object, [false] for the [NULL] its callers test for. *)
Definition e2fsck_allocate_memory (k : obj_kind) : M bool :=
  fun s =>
    let m := memory s in
    if alloc_ok m (allocs m)
    then Done true (set_memory (add_live k (count_alloc m)) s)
    else Done false (set_memory (count_alloc m) s).

(** [ext2fs_free_mem] and [free]. *)
Definition ext2fs_free_mem (k : obj_kind) : M unit :=
  modify (fun s => set_memory (sub_live k (memory s)) s).

(* ================================================================= *)
(** ** Kernel compatibility functions *)

(** The I/O channel: one block read into, or written from, a buffer.  The
    n-th transfer the channel is asked for returns [io_result n]. *)
Definition io_channel_read_blk (blk : Z) (buf : list byte)
  : M (errcode_t * list byte) :=
  fun s =>
    let d := device s in
    let retval := io_result d (List.length (io_log d)) in
    let d' := {| blocks := blocks d; io_result := io_result d;
                 io_log := io_log d ++ [PhysRead blk] |} in
    Done (retval, if is_err retval then buf else store 0 (blocks d blk) buf)
         (set_device d' s).

Definition io_channel_write_blk (blk : Z) (buf : list byte) : M errcode_t :=
  fun s =>
    let d := device s in
    let retval := io_result d (List.length (io_log d)) in
    let d' := {| blocks := if is_err retval then blocks d
                           else fun b => if b =? blk then buf else blocks d b;
                 io_result := io_result d;
                 io_log := io_log d ++ [PhysWrite blk buf] |} in
    Done retval (set_device d' s).

Definition ext2fs_bmap (ino block : Z) : M (errcode_t * Z) :=
  gets (fun s => block_map (inodes s) ino block).

Definition ext2fs_read_inode (ino : Z) : M (errcode_t * ext2_inode) :=
  gets (fun s => inode_table (inodes s) ino).

Definition bmap (inode : inode_t) (block : Z) : M Z :=
  '(retval, phys) <- ext2fs_bmap (i_ino inode) block ;;
  let retval := int_of_errcode retval in
  (if is_err retval
   then dev <- gets (fun s => device_name (ctx s)) ;;
        com_err dev retval "bmap journal inode, block"
   else ret tt) ;;
  ret phys.

Definition getblk (blocknr blocksize : Z) : M (option buffer_head) :=
  ok <- e2fsck_allocate_memory KBuffer ;;
  if negb ok then ret None
  else ret (Some {| b_size := blocksize; b_blocknr := blocknr;
                    b_dirty := 0; b_uptodate := 0; b_err := OK;
                    b_data := repeat x00 (Z.to_nat blocksize) |}).

(** The body of the [for] loop of [ll_rw_block], for one buffer. *)
Definition ll_rw_block_one (rw : Z) (bh : buffer_head) : M buffer_head :=
  if (rw =? READ) && (b_uptodate bh =? 0) then
    '(retval, data) <- io_channel_read_blk (b_blocknr bh) (b_data bh) ;;
    let retval := int_of_errcode retval in
    if is_err retval then
      dev <- gets (fun s => device_name (ctx s)) ;;
      com_err dev retval "while reading block" ;;
      ret (set_b_err retval bh)
    else ret (set_b_uptodate 1 (set_b_data data bh))
  else if (rw =? WRITE) && negb (b_dirty bh =? 0) then
    retval <- io_channel_write_blk (b_blocknr bh) (b_data bh) ;;
    let retval := int_of_errcode retval in
    if is_err retval then
      dev <- gets (fun s => device_name (ctx s)) ;;
      com_err dev retval "while writing block" ;;
      ret (set_b_err retval bh)
    else ret (set_b_uptodate 1 (set_b_dirty 0 bh))
  else ret bh.

Fixpoint ll_rw_block (rw : Z) (bhp : list buffer_head) : M (list buffer_head) :=
  match bhp with
  | [] => ret []
  | bh :: rest =>
      bh' <- ll_rw_block_one rw bh ;;
      rest' <- ll_rw_block rw rest ;;
      ret (bh' :: rest')
  end.

(** [ll_rw_block (rw, 1, &bh)]. *)
Definition ll_rw_block1 (rw : Z) (bh : buffer_head) : M buffer_head :=
  l <- ll_rw_block rw [bh] ;;
  ret (hd bh l).

Definition mark_buffer_dirty (bh : buffer_head) (dummy : Z) : buffer_head :=
  set_b_dirty (Z.lor dummy 1) bh.

Definition brelse (bh : buffer_head) : M unit :=
  (if negb (b_dirty bh =? 0) then ll_rw_block1 WRITE bh else ret bh) ;;
  ext2fs_free_mem KBuffer.

Definition buffer_uptodate (bh : buffer_head) : Z := b_uptodate bh.

Definition wait_on_buffer (bh : buffer_head) : M buffer_head :=
  if b_uptodate bh =? 0 then ll_rw_block1 READ bh else ret bh.

(* ================================================================= *)
(** ** The journal driver *)

(** The C tests [v & mask] and the assignment [v &= ~mask]. *)
Definition has_flag (v mask : Z) : bool := negb (Z.land v mask =? 0).

Definition clear_flag (v mask : Z) : Z := Z.land v (Z.lnot mask).

(** Modelled from the spec: [uuid_is_null] and [uuid_clear] of the uuid
    library, not at hand; the spec's "UUID non-zero" and "clear UUID" on
    the 16-byte array, which is also what
    [memset (uuid, 0, sizeof (uuid))] leaves. *)
Definition uuid_is_null (u : list byte) : bool := forallb byte_is_zero u.

Definition uuid_clear : list byte := repeat x00 16.

(** Modelled from the spec: the macro [LINUX_S_ISREG] of [ext2_fs.h], not
    at hand; the spec's "mode indicates regular file", the file-type bits
    of the mode being those of a regular file. *)
Definition LINUX_S_ISREG (m : Z) : bool :=
  Z.land m LINUX_S_IFMT =? LINUX_S_IFREG.

(** Modelled from the spec: the macro [EXT2_FIRST_INODE] of [ext2fs.h], not
    at hand; the spec's "first non-reserved inode number", which the ext2
    format fixes at 11 in revision 0 and stores in the superblock from
    revision 1 on. *)
Definition EXT2_FIRST_INODE (sb : ext2_super_block) : Z :=
  if s_rev_level sb =? EXT2_GOOD_OLD_REV
  then EXT2_GOOD_OLD_FIRST_INO
  else s_first_ino sb.

Definition e2fsck_clear_recover (error : bool) : M unit :=
  update_sb (fun sb =>
    set_s_feature_incompat
      (clear_flag (s_feature_incompat sb) EXT3_FEATURE_INCOMPAT_RECOVER) sb) ;;
  (if error
   then update_sb (fun sb =>
          set_s_state (clear_flag (s_state sb) EXT2_VALID_FS) sb)
   else ret tt) ;;
  ext2fs_mark_super_dirty.

(** The division of [i_size] by the block size is the unsigned one of C,
    the block size of an open filesystem being positive. *)
Definition e2fsck_journal_init_inode (journal_inum : Z)
  : M (errcode_t + journal_t) :=
  okj <- e2fsck_allocate_memory KJournal ;;
  if negb okj then ret (inl EXT2_ET_NO_MEMORY)
  else
    oki <- e2fsck_allocate_memory KInode ;;
    if negb oki then
      ext2fs_free_mem KJournal ;;
      ret (inl EXT2_ET_NO_MEMORY)
    else
      let exit_inode (retval : errcode_t) : M (errcode_t + journal_t) :=
        ext2fs_free_mem KInode ;;
        ext2fs_free_mem KJournal ;;
        ret (inl retval) in
      '(retval, raw) <- ext2fs_read_inode journal_inum ;;
      let retval := int_of_errcode retval in
      if is_err retval then exit_inode retval
      else
        let inode := {| i_ino := journal_inum; i_ext2 := raw |} in
        bsize <- gets (fun s => blocksize (fs (ctx s))) ;;
        let maxlen := i_size raw / bsize in
        if (i_links_count raw =? 0)
           || negb (LINUX_S_ISREG (i_mode raw))
           || (maxlen <? JFS_MIN_JOURNAL_BLOCKS)
        then exit_inode EXT2_ET_BAD_INODE_NUM
        else
          start <- bmap inode 0 ;;
          if start =? 0 then exit_inode EXT2_ET_BAD_INODE_NUM
          else
            obh <- getblk start bsize ;;
            match obh with
            | None => exit_inode EXT2_ET_NO_MEMORY
            | Some bh =>
                ret (inr {| j_inode := Some inode;
                            j_blocksize := bsize;
                            j_maxlen := maxlen;
                            j_format_version := 0;
                            j_tail_sequence := 0;
                            j_transaction_sequence := 0;
                            j_tail := 0; j_first := 0; j_last := 0;
                            j_sb_buffer := bh |})
            end.

(** [e2fsck_get_journal] asks about the external device field twice and
    about the UUID twice, in blocks that differ in the question only:
    [check_journal_dev code k] is the block
    [if (sb->s_journal_dev) { ... }] with the question [code], followed by
    the rest [k] of the function, which a declined question does not
    reach; [check_journal_uuid] likewise. *)
Definition check_journal_dev (code : problem_t) (k : M (errcode_t + journal_t))
  : M (errcode_t + journal_t) :=
  sb <- get_sb ;;
  if negb (s_journal_dev sb =? 0) then
    yes <- fix_problem code ;;
    if negb yes then ret (inl EXT2_ET_UNSUPP_FEATURE)
    else
      update_sb (set_s_journal_dev 0) ;;
      update_sb (fun sb => set_s_state (clear_flag (s_state sb) EXT2_VALID_FS) sb) ;;
      ext2fs_mark_super_dirty ;;
      k
  else k.

Definition check_journal_uuid (code : problem_t) (k : M (errcode_t + journal_t))
  : M (errcode_t + journal_t) :=
  sb <- get_sb ;;
  if negb (uuid_is_null (s_journal_uuid sb)) then
    yes <- fix_problem code ;;
    if negb yes then ret (inl EXT2_ET_UNSUPP_FEATURE)
    else
      update_sb (set_s_journal_uuid uuid_clear) ;;
      update_sb (fun sb => set_s_state (clear_flag (s_state sb) EXT2_VALID_FS) sb) ;;
      ext2fs_mark_super_dirty ;;
      k
  else k.

Definition e2fsck_get_journal : M (errcode_t + journal_t) :=
  let rest :=
    check_journal_dev PR_0_JOURNAL_BAD_DEV
      (check_journal_uuid PR_0_JOURNAL_BAD_UUID
         (sb <- get_sb ;;
          e2fsck_journal_init_inode (s_journal_inum sb))) in
  sb <- get_sb ;;
  if has_flag (s_feature_compat sb) EXT3_FEATURE_COMPAT_HAS_JOURNAL then
    check_journal_dev PR_0_JOURNAL_UNSUPP_DEV
      (check_journal_uuid PR_0_JOURNAL_UNSUPP_UUID
         (sb <- get_sb ;;
          if s_journal_inum sb =? 0 then ret (inl EXT2_ET_BAD_INODE_NUM)
          else rest))
  else rest.

Definition e2fsck_journal_fix_bad_inode : M errcode_t :=
  sb <- get_sb ;;
  let recover := has_flag (s_feature_incompat sb) EXT3_FEATURE_INCOMPAT_RECOVER in
  let has_journal :=
    has_flag (s_feature_compat sb) EXT3_FEATURE_COMPAT_HAS_JOURNAL in
  if has_journal || negb (s_journal_inum sb =? 0) then
    yes <- fix_problem PR_0_JOURNAL_BAD_INODE ;;
    if yes then
      (if has_journal && negb (s_journal_inum sb =? 0)
       then printf "*** ext3 journal has been deleted - filesystem is now ext2 only ***"
       else ret tt) ;;
      update_sb (fun sb =>
        set_s_feature_compat
          (clear_flag (s_feature_compat sb) EXT3_FEATURE_COMPAT_HAS_JOURNAL) sb) ;;
      update_sb (set_s_journal_inum 0) ;;
      e2fsck_clear_recover true ;;
      ret OK
    else ret EXT2_ET_BAD_INODE_NUM
  else if recover then
    yes <- fix_problem PR_0_JOURNAL_RECOVER_SET ;;
    if yes then
      e2fsck_clear_recover true ;;
      ret OK
    else ret EXT2_ET_UNSUPP_FEATURE
  else ret OK.

Definition e2fsck_journal_fix_unsupported_super : M errcode_t :=
  sb <- get_sb ;;
  yes <- (if has_flag (s_feature_compat sb) EXT3_FEATURE_COMPAT_HAS_JOURNAL
          then fix_problem PR_0_JOURNAL_UNSUPP_SUPER
          else ret false) ;;
  if yes then ret EXT2_ET_CORRUPT_SUPERBLOCK
  else
    r <- e2fsck_journal_fix_bad_inode ;;
    if is_err r then ret EXT2_ET_UNSUPP_FEATURE else ret OK.

(** Modelled from the spec: the macros [JFS_HAS_INCOMPAT_FEATURE] and
    [JFS_HAS_RO_COMPAT_FEATURE] of [jfs.h], not at hand; the spec's "bits
    outside the known set", of a field only a version-2 superblock has. *)
Definition JFS_HAS_FEATURE (off : nat) (journal : journal_t) (mask : Z) : bool :=
  (2 <=? j_format_version journal)
  && negb (Z.land (get_be32 off (b_data (j_sb_buffer journal))) mask =? 0).

(** The [switch] of [e2fsck_journal_load] on the block type: the format
    version, if the type is one of the two superblock types. *)
Definition jsb_version (jsb : list byte) : option Z :=
  let blocktype := get_be32 off_h_blocktype jsb in
  if blocktype =? JFS_SUPERBLOCK_V1 then Some 1
  else if blocktype =? JFS_SUPERBLOCK_V2 then Some 2
  else None.

Definition e2fsck_journal_load (journal : journal_t)
  : M (errcode_t * journal_t) :=
  jbh <- ll_rw_block1 READ (j_sb_buffer journal) ;;
  let journal := set_j_sb_buffer jbh journal in
  dev <- gets (fun s => device_name (ctx s)) ;;
  prog <- gets (fun s => program_name (ctx s)) ;;
  if is_err (b_err jbh) then
    com_err dev (b_err jbh) "reading journal superblock" ;;
    ret (b_err jbh, journal)
  else
    let jsb := b_data jbh in
    if negb (get_be32 off_h_magic jsb =? JFS_MAGIC_NUMBER) then
      r <- e2fsck_journal_fix_bad_inode ;;
      ret (r, journal)
    else
      match jsb_version jsb with
      | None =>
          com_err prog EXT2_ET_UNSUPP_FEATURE
                  "journal has unrecognised format" ;;
          ret (EXT2_ET_UNSUPP_FEATURE, journal)
      | Some v =>
          let journal := set_j_format_version v journal in
          if JFS_HAS_FEATURE off_s_feature_incompat journal
               (Z.lnot JFS_KNOWN_INCOMPAT_FEATURES) then
            com_err prog EXT2_ET_UNSUPP_FEATURE
                    "journal has incompatible features" ;;
            ret (EXT2_ET_UNSUPP_FEATURE, journal)
          else if JFS_HAS_FEATURE off_s_feature_ro_compat journal
                    (Z.lnot JFS_KNOWN_ROCOMPAT_FEATURES) then
            com_err prog EXT2_ET_UNSUPP_FEATURE
                    "journal has readonly-incompatible features" ;;
            ret (EXT2_ET_RO_UNSUPP_FEATURE, journal)
          else if negb (get_be32 off_s_blocksize jsb
                        =? j_blocksize journal mod 4294967296) then
            com_err prog EXT2_ET_CORRUPT_SUPERBLOCK
                    "no valid journal superblock found" ;;
            ret (EXT2_ET_CORRUPT_SUPERBLOCK, journal)
          else
            let disk_maxlen := get_be32 off_s_maxlen jsb in
            let finish (journal : journal_t) : M (errcode_t * journal_t) :=
              ret (OK, set_j_live (get_be32 off_s_sequence jsb)
                                  (get_be32 off_s_sequence jsb)
                                  (get_be32 off_s_start jsb)
                                  (get_be32 off_s_first jsb)
                                  (get_be32 off_s_maxlen jsb) journal) in
            if disk_maxlen <? j_maxlen journal then
              finish (set_j_maxlen disk_maxlen journal)
            else if j_maxlen journal <? disk_maxlen then
              com_err prog EXT2_ET_CORRUPT_SUPERBLOCK "journal too short" ;;
              ret (EXT2_ET_CORRUPT_SUPERBLOCK, journal)
            else finish journal
      end.

(** The bytes [e2fsck_journal_reset_super] leaves in the superblock
    buffer, before it hands the buffer to [ll_rw_block]. *)
Definition reset_super_data (fs_blocksize maxlen : Z) (jsb : list byte)
  : list byte :=
  let jsb :=
    if negb (get_be32 off_h_magic jsb =? JFS_MAGIC_NUMBER)
       || negb (get_be32 off_h_blocktype jsb =? JFS_SUPERBLOCK_V1)
    then put_be32 off_h_blocktype JFS_SUPERBLOCK_V2
           (put_be32 off_h_magic JFS_MAGIC_NUMBER jsb)
    else jsb in
  let jsb := memset0 sizeof_journal_header_t
               (Z.to_nat (fs_blocksize - Z.of_nat sizeof_journal_header_t)) jsb in
  let jsb := put_be32 off_s_blocksize fs_blocksize jsb in
  let jsb := put_be32 off_s_maxlen maxlen jsb in
  let jsb := put_be32 off_s_first 1 jsb in
  put_be32 off_s_sequence 1 jsb.

Definition e2fsck_journal_reset_super (journal : journal_t) : M journal_t :=
  bsize <- gets (fun s => blocksize (fs (ctx s))) ;;
  let bh := j_sb_buffer journal in
  let bh := set_b_data (reset_super_data bsize (j_maxlen journal) (b_data bh)) bh in
  bh <- ll_rw_block1 WRITE bh ;;
  ret (set_j_sb_buffer bh journal).

Definition e2fsck_journal_fix_corrupt_super (journal : journal_t)
  : M (errcode_t * journal_t) :=
  sb <- get_sb ;;
  let recover := has_flag (s_feature_incompat sb) EXT3_FEATURE_INCOMPAT_RECOVER in
  if has_flag (s_feature_compat sb) EXT3_FEATURE_COMPAT_HAS_JOURNAL then
    yes <- fix_problem PR_0_JOURNAL_BAD_SUPER ;;
    if yes then
      journal <- e2fsck_journal_reset_super journal ;;
      let journal := set_j_transaction_sequence 1 journal in
      e2fsck_clear_recover recover ;;
      ret (OK, journal)
    else ret (EXT2_ET_CORRUPT_SUPERBLOCK, journal)
  else
    r <- e2fsck_journal_fix_bad_inode ;;
    if is_err r then ret (EXT2_ET_CORRUPT_SUPERBLOCK, journal)
    else ret (OK, journal).

(** The bytes [e2fsck_journal_release] leaves in the superblock buffer of a
    writable image. *)
Definition release_data (trans_seq : Z) (reset : bool) (jsb : list byte)
  : list byte :=
  let jsb := put_be32 off_s_sequence trans_seq jsb in
  if reset then put_be32 off_s_start 0 jsb else jsb.

Definition e2fsck_journal_release (journal : journal_t) (reset : bool) : M unit :=
  opts <- gets (fun s => options (ctx s)) ;;
  let bh := j_sb_buffer journal in
  let bh :=
    if negb (has_flag opts E2F_OPT_READONLY) then
      mark_buffer_dirty
        (set_b_data
           (release_data (j_transaction_sequence journal) reset (b_data bh)) bh) 1
    else bh in
  brelse bh ;;
  (match j_inode journal with
   | Some _ => ext2fs_free_mem KInode
   | None => ret tt
   end) ;;
  ext2fs_free_mem KJournal.

(** The block from the label [no_has_journal] to the end of its [if]; the
    [goto] is the recursive call.  An iteration that jumps back has taken
    two answers, so a fuel above the number of pending answers never runs
    out (lemma [no_has_journal_fuel]). *)
Fixpoint no_has_journal (fuel : nat) : M unit :=
  match fuel with
  | O => fun s => Blocked s
  | S fuel' =>
      sb <- get_sb ;;
      if negb (has_flag (s_feature_compat sb) EXT3_FEATURE_COMPAT_HAS_JOURNAL)
      then
        let recover :=
          has_flag (s_feature_incompat sb) EXT3_FEATURE_INCOMPAT_RECOVER in
        yes <- fix_problem PR_0_JOURNAL_HAS_JOURNAL ;;
        if yes then
          again <- (if recover
                    then y <- fix_problem PR_0_JOURNAL_RECOVER_SET ;;
                         ret (negb y)
                    else ret false) ;;
          if again then no_has_journal fuel'
          else
            let force_fsck :=
              recover || (s_journal_inum sb <? EXT2_FIRST_INODE sb) in
            update_sb (set_s_journal_inum 0) ;;
            update_sb (set_s_journal_dev 0) ;;
            update_sb (set_s_journal_uuid uuid_clear) ;;
            e2fsck_clear_recover force_fsck
        else
          opts <- gets (fun s => options (ctx s)) ;;
          if negb (has_flag opts E2F_OPT_READONLY) then
            update_sb (fun sb =>
              set_s_feature_compat
                (Z.lor (s_feature_compat sb) EXT3_FEATURE_COMPAT_HAS_JOURNAL) sb) ;;
            ext2fs_mark_super_dirty
          else ret tt
      else ret tt
  end.

(** [e2fsck_check_ext3_journal] from the label [no_has_journal] to its
    end, [retval] being what [e2fsck_journal_load] returned. *)
Definition check_journal_flags (journal : journal_t) (retval : errcode_t)
  : M errcode_t :=
  fuel <- gets (fun s => S (List.length (answers (problems s)))) ;;
  no_has_journal fuel ;;
  sb <- get_sb ;;
  reset <-
    (if has_flag (s_feature_compat sb) EXT3_FEATURE_COMPAT_HAS_JOURNAL
        && negb (has_flag (s_feature_incompat sb)
                          EXT3_FEATURE_INCOMPAT_RECOVER)
        && negb (get_be32 off_s_start (b_data (j_sb_buffer journal)) =? 0)
     then
       yes <- fix_problem PR_0_JOURNAL_RESET_JOURNAL ;;
       if yes then
         update_sb (fun sb =>
           set_s_state (clear_flag (s_state sb) EXT2_VALID_FS) sb) ;;
         ext2fs_mark_super_dirty ;;
         ret true
       else ret false
     else ret false) ;;
  e2fsck_journal_release journal reset ;;
  ret retval.

Definition e2fsck_check_ext3_journal : M errcode_t :=
  sb <- get_sb ;;
  let recover := has_flag (s_feature_incompat sb) EXT3_FEATURE_INCOMPAT_RECOVER in
  if negb (has_flag (s_feature_compat sb) EXT3_FEATURE_COMPAT_HAS_JOURNAL)
     && negb recover
     && (s_journal_inum sb =? 0)
     && (s_journal_dev sb =? 0)
     && uuid_is_null (s_journal_uuid sb)
  then ret OK
  else
    r <- e2fsck_get_journal ;;
    match r with
    | inl EXT2_ET_BAD_INODE_NUM => e2fsck_journal_fix_bad_inode
    | inl retval => ret retval
    | inr journal =>
        '(retval, journal) <- e2fsck_journal_load journal ;;
        if is_err retval then
          match retval with
          | EXT2_ET_CORRUPT_SUPERBLOCK =>
              '(r, _) <- e2fsck_journal_fix_corrupt_super journal ;;
              ret r
          | _ => ret retval
          end
        else check_journal_flags journal retval
    end.

Definition journal_init_revoke (journal : journal_t) (hash_size : Z)
  : M errcode_t :=
  modify (fun s => set_calls (calls s ++ [CallInitRevoke hash_size]) s) ;;
  gets (fun s => journal_init_revoke_result (externals s) journal hash_size).

Definition journal_recover (journal : journal_t) : M (Z * journal_t) :=
  modify (fun s => set_calls (calls s ++ [CallRecover]) s) ;;
  fun s =>
    let d := device s in
    let '(r, journal', blocks') :=
      journal_recover_result (externals s) journal (blocks d) in
    Done (r, journal')
         (set_device {| blocks := blocks'; io_result := io_result d;
                        io_log := io_log d |} s).

Definition recover_ext3_journal : M errcode_t :=
  r <- e2fsck_get_journal ;;
  match r with
  | inl retval => ret retval
  | inr journal =>
      '(retval, journal) <- e2fsck_journal_load journal ;;
      if is_err retval then ret retval
      else
        retval <- journal_init_revoke journal 1024 ;;
        if is_err retval then ret retval
        else
          '(r, journal) <- journal_recover journal ;;
          let retval := ERRNO (- r) in
          e2fsck_journal_release journal true ;;
          ret retval
  end.

Definition ext2fs_close : M unit :=
  modify (fun s => set_calls (calls s ++ [CallClose]) s).

Definition ext2fs_open (name : string) (oflags sb_offset bsize manager : Z)
  : M (errcode_t * ext2_filsys) :=
  modify (fun s =>
    set_calls (calls s ++ [CallOpen name oflags sb_offset bsize manager]) s) ;;
  gets (fun s =>
    ext2fs_open_result (externals s) name oflags sb_offset bsize manager).

Definition e2fsck_run_ext3_journal : M errcode_t :=
  c <- gets ctx ;;
  let io_ptr := io_manager (fs c) in
  let bsize := blocksize (fs c) in
  printf "recovering journal" ;;
  if has_flag (options c) E2F_OPT_READONLY then
    printf "won't do journal recovery while read-only" ;;
    ret EXT2_ET_FILE_RO
  else
    recover_retval <- recover_ext3_journal ;;
    ext2fs_close ;;
    c <- gets ctx ;;
    '(retval, newfs) <-
      ext2fs_open (filesystem_name c) EXT2_FLAG_RW (superblock c) bsize io_ptr ;;
    if is_err retval then
      com_err (program_name c) retval "while trying to re-open" ;;
      fatal_error
    else
      modify (fun s => set_ctx (set_fs newfs (ctx s)) s) ;;
      e2fsck_clear_recover (is_err recover_retval) ;;
      ret recover_retval.

(* ================================================================= *)
(** ** Reasoning tools *)

(** Partial correctness of a computation: when it returns, the result and
    the state it leaves satisfy [Q]. *)
Definition wp {A : Type} (m : M A) (Q : A -> state -> Prop) (s : state) : Prop :=
  match m s with
  | Done a s' => Q a s'
  | Fatal _ => True
  | Blocked _ => True
  end.

Definition is_read (e : io_event) : bool :=
  match e with PhysRead _ => true | PhysWrite _ _ => false end.

Definition is_write (e : io_event) : bool :=
  match e with PhysRead _ => false | PhysWrite _ _ => true end.

Definition reads (l : list io_event) : nat := List.length (filter is_read l).
Definition writes (l : list io_event) : nat := List.length (filter is_write l).

(** The state an outcome ends in. *)
Definition final_state {A : Type} (o : outcome A) : state :=
  match o with
  | Done _ s => s
  | Fatal s => s
  | Blocked s => s
  end.

(** [s'] is [s] after the transfers [evs] and nothing else on the log. *)
Definition io_since (s s' : state) (evs : list io_event) : Prop :=
  io_log (device s') = io_log (device s) ++ evs.

(** [m] relates every state to the state it ends in, whatever the
    outcome. *)
Definition always {A : Type} (m : M A) (R : state -> state -> Prop) : Prop :=
  forall s, R s (final_state (m s)).

(** The context, the problem channel and the services are as they were. *)
Definition same_ctx (s s' : state) : Prop :=
  ctx s' = ctx s /\ problems s' = problems s /\ externals s' = externals s.

(** Everything of the context but the filesystem superblock and flags, and
    the services of the environment, are as they were. *)
Definition same_ids (s s' : state) : Prop :=
  options (ctx s') = options (ctx s)
  /\ superblock (ctx s') = superblock (ctx s)
  /\ filesystem_name (ctx s') = filesystem_name (ctx s)
  /\ program_name (ctx s') = program_name (ctx s)
  /\ blocksize (fs (ctx s')) = blocksize (fs (ctx s))
  /\ io_manager (fs (ctx s')) = io_manager (fs (ctx s))
  /\ externals s' = externals s.

(** The transfers from [s] to [s'] are at most [r] reads and [w] writes. *)
Definition io_within (r w : nat) (s s' : state) : Prop :=
  exists evs, io_since s s' evs /\ (reads evs <= r)%nat /\ (writes evs <= w)%nat.

(** Views of the filesystem superblock. *)
Definition sbof (s : state) : ext2_super_block := super (fs (ctx s)).

Definition hasj (s : state) : bool :=
  has_flag (s_feature_compat (sbof s)) EXT3_FEATURE_COMPAT_HAS_JOURNAL.

Definition recov (s : state) : bool :=
  has_flag (s_feature_incompat (sbof s)) EXT3_FEATURE_INCOMPAT_RECOVER.

Definition valid_fs (s : state) : bool :=
  has_flag (s_state (sbof s)) EXT2_VALID_FS.

Definition readonly (s : state) : bool :=
  has_flag (options (ctx s)) E2F_OPT_READONLY.

(** The user was asked [code] and answered [a]. *)
Definition answered (code : problem_t) (a : bool) (s : state) : Prop :=
  In (code, a) (asked (problems s)).

(** The log of questions only grows. *)
Definition log_grows (s s' : state) : Prop :=
  forall q, In q (asked (problems s)) -> In q (asked (problems s')).

(** The checks of [e2fsck_journal_load] that come before the length is
    looked at, on the buffer [jbh] as read: no I/O error, the magic, a known
    block type, no unknown feature bit, the block size of the filesystem. *)
Definition format_checks_pass (journal : journal_t) (jbh : buffer_head) : bool :=
  negb (is_err (b_err jbh))
  && (get_be32 off_h_magic (b_data jbh) =? JFS_MAGIC_NUMBER)
  && match jsb_version (b_data jbh) with
     | None => false
     | Some v =>
         let journal := set_j_format_version v (set_j_sb_buffer jbh journal) in
         negb (JFS_HAS_FEATURE off_s_feature_incompat journal
                 (Z.lnot JFS_KNOWN_INCOMPAT_FEATURES))
         && negb (JFS_HAS_FEATURE off_s_feature_ro_compat journal
                    (Z.lnot JFS_KNOWN_ROCOMPAT_FEATURES))
         && (get_be32 off_s_blocksize (b_data jbh)
             =? j_blocksize journal mod 4294967296)
     end.

(** [ll_rw_block] issued no transfer. *)
Definition no_io (s s' : state) : Prop :=
  io_log (device s') = io_log (device s).

(** The state after [fix_problem code] answered [a]. *)
Definition asked_state (code : problem_t) (a : bool) (rest : list bool)
           (s : state) : state :=
  set_problems {| answers := rest; asked := asked (problems s) ++ [(code, a)] |} s.

(** What every step of the consistency check keeps: the open mode, the
    questions already logged, the revision fields of the superblock, a
    cleared valid bit; and a bad-inode repair accepted during the step has
    cleared the valid bit. *)
Definition frame (s s' : state) : Prop :=
  readonly s' = readonly s
  /\ log_grows s s'
  /\ s_rev_level (sbof s') = s_rev_level (sbof s)
  /\ s_first_ino (sbof s') = s_first_ino (sbof s)
  /\ (valid_fs s = false -> valid_fs s' = false)
  /\ (answered PR_0_JOURNAL_BAD_INODE true s' ->
      answered PR_0_JOURNAL_BAD_INODE true s \/ valid_fs s' = false).

(** The step did not ask [PR_0_JOURNAL_HAS_JOURNAL]. *)
Definition no_has_journal_question (s s' : state) : Prop :=
  forall a, answered PR_0_JOURNAL_HAS_JOURNAL a s' ->
            answered PR_0_JOURNAL_HAS_JOURNAL a s.

Definition unchanged (s s' : state) : Prop := sbof s' = sbof s.

(** The superblock after a repair of [e2fsck_journal_fix_bad_inode] that
    the user accepted. *)
Definition journal_removed (s s' : state) : Prop :=
  hasj s' = false /\ recov s' = false /\ valid_fs s' = false
  /\ s_journal_inum (sbof s') = 0
  /\ s_journal_dev (sbof s') = s_journal_dev (sbof s)
  /\ s_journal_uuid (sbof s') = s_journal_uuid (sbof s).

(** The repair that removed the journal was the bad-inode one, or there
    was no journal inode and only the recovery flag to clear. *)
Definition removal_cause (s s' : state) : Prop :=
  answered PR_0_JOURNAL_BAD_INODE true s'
  \/ (hasj s = false /\ s_journal_inum (sbof s) = 0 /\ recov s = true).

Definition fix_bad_inode_summary (s : state) (r : errcode_t) (s' : state) : Prop :=
  frame s s' /\ no_has_journal_question s s'
  /\ ((r = OK /\ journal_removed s s' /\ removal_cause s s')
      \/ (is_err r = true /\ unchanged s s')
      \/ (r = OK /\ unchanged s s' /\ hasj s = false
          /\ s_journal_inum (sbof s) = 0 /\ recov s = false)).

(** What [e2fsck_get_journal] keeps of the superblock: the feature words
    and the journal inode number; a zero device field and a null UUID stay
    so, and with both nothing is changed at all. *)
Definition identity_kept (s s' : state) : Prop :=
  frame s s' /\ no_has_journal_question s s'
  /\ s_feature_compat (sbof s') = s_feature_compat (sbof s)
  /\ s_feature_incompat (sbof s') = s_feature_incompat (sbof s)
  /\ s_journal_inum (sbof s') = s_journal_inum (sbof s)
  /\ (s_journal_dev (sbof s) = 0 -> s_journal_dev (sbof s') = 0)
  /\ (uuid_is_null (s_journal_uuid (sbof s)) = true ->
      uuid_is_null (s_journal_uuid (sbof s')) = true)
  /\ (s_journal_dev (sbof s) = 0 ->
      uuid_is_null (s_journal_uuid (sbof s)) = true -> unchanged s s').

Definition get_journal_summary (s : state) (r : errcode_t + journal_t)
           (s' : state) : Prop :=
  identity_kept s s'
  /\ match r with
     | inr j =>
         s_journal_dev (sbof s') = 0
         /\ uuid_is_null (s_journal_uuid (sbof s')) = true
         /\ (hasj s = true -> s_journal_inum (sbof s) <> 0)
         /\ b_dirty (j_sb_buffer j) = 0
     | inl e => is_err e = true
     end.

Definition load_summary (s : state) (r : errcode_t) (s' : state) : Prop :=
  frame s s' /\ no_has_journal_question s s'
  /\ (unchanged s s'
      \/ (r = OK /\ journal_removed s s' /\ removal_cause s s')).

Definition fix_corrupt_super_summary (s : state) (r : errcode_t) (s' : state)
  : Prop :=
  frame s s' /\ no_has_journal_question s s'
  /\ (is_err r = true
      \/ (r = OK /\ hasj s = true
          /\ s_feature_compat (sbof s') = s_feature_compat (sbof s)
          /\ s_journal_inum (sbof s') = s_journal_inum (sbof s)
          /\ s_journal_dev (sbof s') = s_journal_dev (sbof s)
          /\ s_journal_uuid (sbof s') = s_journal_uuid (sbof s))
      \/ (r = OK /\ hasj s = false /\ hasj s' = false /\ recov s' = false)).

(** The three ways out of the block at [no_has_journal] when the feature
    is clear: agreement, and the question declined on a writable or on a
    read-only image. *)
Definition agreed (s s' : state) : Prop :=
  hasj s' = false /\ recov s' = false
  /\ answered PR_0_JOURNAL_HAS_JOURNAL true s'
  /\ (answered PR_0_JOURNAL_HAS_JOURNAL false s' ->
      answered PR_0_JOURNAL_HAS_JOURNAL false s)
  /\ s_state (sbof s') =
       (if recov s || (s_journal_inum (sbof s) <? EXT2_FIRST_INODE (sbof s))
        then clear_flag (s_state (sbof s)) EXT2_VALID_FS
        else s_state (sbof s)).

Definition declined_writable (s s' : state) : Prop :=
  readonly s = false
  /\ answered PR_0_JOURNAL_HAS_JOURNAL false s'
  /\ hasj s' = true
  /\ s_feature_incompat (sbof s') = s_feature_incompat (sbof s)
  /\ s_journal_inum (sbof s') = s_journal_inum (sbof s)
  /\ s_journal_dev (sbof s') = s_journal_dev (sbof s)
  /\ s_journal_uuid (sbof s') = s_journal_uuid (sbof s).

Definition declined_readonly (s s' : state) : Prop :=
  readonly s = true
  /\ answered PR_0_JOURNAL_HAS_JOURNAL false s'
  /\ unchanged s s'.

Definition no_has_journal_summary (s s' : state) : Prop :=
  frame s s'
  /\ ((hasj s = true /\ unchanged s s' /\ problems s' = problems s)
      \/ (hasj s = false
          /\ (agreed s s' \/ declined_writable s s' \/ declined_readonly s s'))).

Definition clear_recover_summary (error : bool) (s s' : state) : Prop :=
  frame s s' /\ problems s' = problems s
  /\ recov s' = false
  /\ s_feature_compat (sbof s') = s_feature_compat (sbof s)
  /\ s_journal_inum (sbof s') = s_journal_inum (sbof s)
  /\ s_journal_dev (sbof s') = s_journal_dev (sbof s)
  /\ s_journal_uuid (sbof s') = s_journal_uuid (sbof s)
  /\ s_state (sbof s') =
       (if error then clear_flag (s_state (sbof s)) EXT2_VALID_FS
        else s_state (sbof s)).

(** What the part of the check after a successful load leaves. *)
Definition flags_summary (s s' : state) : Prop :=
  frame s s'
  /\ ((hasj s = true /\ no_has_journal_question s s'
       /\ s_feature_compat (sbof s') = s_feature_compat (sbof s)
       /\ s_feature_incompat (sbof s') = s_feature_incompat (sbof s)
       /\ s_journal_inum (sbof s') = s_journal_inum (sbof s)
       /\ s_journal_dev (sbof s') = s_journal_dev (sbof s)
       /\ s_journal_uuid (sbof s') = s_journal_uuid (sbof s))
      \/ (hasj s = false
          /\ (agreed s s' \/ declined_writable s s' \/ declined_readonly s s'))).

(** What a successful check leaves of the journal fields: a set
    has-journal feature comes with a zero device field and a null UUID,
    and with a non-zero journal inode number unless a bad-inode repair was
    accepted on the way (or there was neither feature nor inode number to
    begin with); a clear has-journal feature comes with a clear recovery
    flag unless the image is read-only and the user declined
    [PR_0_JOURNAL_HAS_JOURNAL]. *)
Definition journal_fields_consistent (s s' : state) : Prop :=
  (hasj s' = true ->
   s_journal_dev (sbof s') = 0
   /\ uuid_is_null (s_journal_uuid (sbof s')) = true
   /\ ((hasj s = true \/ s_journal_inum (sbof s) <> 0) ->
       ~ answered PR_0_JOURNAL_BAD_INODE true s' ->
       s_journal_inum (sbof s') <> 0))
  /\ (hasj s' = false -> recov s' = true ->
      readonly s = true /\ answered PR_0_JOURNAL_HAS_JOURNAL false s').

(** C8, as the code has it: an accepted bad-inode repair always clears the
    valid bit; an agreement on [PR_0_JOURNAL_HAS_JOURNAL] leaves the feature
    clear, clears the valid bit when recovery was pending or the journal
    inode number is below the first non-reserved one, and otherwise leaves
    [s_state] as it was (no other repair having been made). *)
Definition force_fsck_rule (s s' : state) : Prop :=
  (answered PR_0_JOURNAL_BAD_INODE true s' -> valid_fs s' = false)
  /\ (answered PR_0_JOURNAL_HAS_JOURNAL true s' ->
      ~ answered PR_0_JOURNAL_HAS_JOURNAL false s' ->
      hasj s' = false
      /\ (recov s = true
          \/ s_journal_inum (sbof s) < EXT2_FIRST_INODE (sbof s) ->
          valid_fs s' = false)
      /\ (recov s = false ->
          EXT2_FIRST_INODE (sbof s) <= s_journal_inum (sbof s) ->
          s_journal_dev (sbof s) = 0 ->
          uuid_is_null (s_journal_uuid (sbof s)) = true ->
          ~ answered PR_0_JOURNAL_BAD_INODE true s' ->
          s_state (sbof s') = s_state (sbof s))).

(** The question about a journal that has data but no recovery flag:
    asked only with the has-journal feature set; it changes [s_state] at
    most. *)
Definition reset_step (s s' : state) : Prop :=
  s' = s
  \/ (hasj s = true /\ frame s s' /\ no_has_journal_question s s'
      /\ s_feature_compat (sbof s') = s_feature_compat (sbof s)
      /\ s_feature_incompat (sbof s') = s_feature_incompat (sbof s)
      /\ s_journal_inum (sbof s') = s_journal_inum (sbof s)
      /\ s_journal_dev (sbof s') = s_journal_dev (sbof s)
      /\ s_journal_uuid (sbof s') = s_journal_uuid (sbof s)).

(** The journal handles, inode views and buffers allocated and not
    freed. *)
Definition outstanding (s : state) : nat * nat * nat :=
  (live_journals (memory s), live_inodes (memory s), live_buffers (memory s)).

(* ================================================================= *)
(** ** What each function leaves behind

    The predicates in which the behaviour of the buffer layer and of the
    driver's functions is stated, function by function. *)

(** Total form of [wp]: [Q] holds of the result and the state of a return,
    [I] of the state the run stops in when it aborts or waits for an answer
    that does not come. *)
Definition wpx {A : Type} (m : M A) (Q : A -> state -> Prop) (I : state -> Prop)
           (s : state) : Prop :=
  match m s with
  | Done a s' => Q a s'
  | Fatal s' => I s'
  | Blocked s' => I s'
  end.

(** The buffers [ll_rw_block] has something to do for, and the transfers
    it issues for a list of buffers, in order. *)
Definition needs_read (bh : buffer_head) : bool := b_uptodate bh =? 0.
Definition needs_write (bh : buffer_head) : bool := negb (b_dirty bh =? 0).

Definition transfers (rw : Z) (bhp : list buffer_head) : list io_event :=
  if rw =? READ then
    map (fun bh => PhysRead (b_blocknr bh)) (filter needs_read bhp)
  else if rw =? WRITE then
    map (fun bh => PhysWrite (b_blocknr bh) (b_data bh)) (filter needs_write bhp)
  else [].

(** The return code of the next transfer the device is asked for. *)
Definition next_io (s : state) : errcode_t :=
  io_result (device s) (List.length (io_log (device s))).

(** What [ll_rw_block rw] leaves of one buffer: the block it stands for,
    the state asked for or an error, and an error it already carried. *)
Definition settled (rw : Z) (bh bh' : buffer_head) : Prop :=
  b_blocknr bh' = b_blocknr bh /\ b_size bh' = b_size bh
  /\ (rw = READ -> b_uptodate bh' <> 0 \/ is_err (b_err bh') = true)
  /\ (rw = WRITE -> b_dirty bh' = 0 \/ is_err (b_err bh') = true)
  /\ (is_err (b_err bh) = true -> is_err (b_err bh') = true).

(** The filesystem is marked as [ext2fs_mark_super_dirty] marks it. *)
Definition super_dirty (s : state) : Prop :=
  has_flag (flags (fs (ctx s))) EXT2_FLAG_DIRTY = true
  /\ has_flag (flags (fs (ctx s))) EXT2_FLAG_CHANGED = true.

(** One more journal handle, inode view and buffer. *)
Definition add3 (o : nat * nat * nat) : nat * nat * nat :=
  let '(a, b, c) := o in (S a, S b, S c).

(** Whether the n-th allocation from now on succeeds. *)
Definition alloc_next (s : state) (n : nat) : bool :=
  alloc_ok (memory s) (allocs (memory s) + n)%nat.

(** The tests [e2fsck_journal_init_inode] puts a journal inode to: it has
    a link, is a regular file, holds the least number of blocks a journal
    needs, and its first block is mapped. *)
Definition journal_inode_usable (raw : ext2_inode) (bsize phys : Z) : bool :=
  negb (i_links_count raw =? 0)
  && LINUX_S_ISREG (i_mode raw)
  && (JFS_MIN_JOURNAL_BLOCKS <=? i_size raw / bsize)
  && negb (phys =? 0).

(** From [s] to [s'] the questions [qs] were asked, and their answers
    taken from the pending ones. *)
Definition asked_since (s s' : state) (qs : list (problem_t * bool)) : Prop :=
  asked (problems s') = asked (problems s) ++ qs
  /\ answers (problems s) = map snd qs ++ answers (problems s').

Definition said_yes (q : problem_t * bool) : Prop := snd q = true.
Definition said_no (q : problem_t * bool) : Prop := snd q = false.

(** The questions of [e2fsck_get_journal], with and without the
    has-journal feature. *)
Definition identity_codes (has_journal : bool) : list problem_t :=
  if has_journal
  then [PR_0_JOURNAL_UNSUPP_DEV; PR_0_JOURNAL_UNSUPP_UUID]
  else [PR_0_JOURNAL_BAD_DEV; PR_0_JOURNAL_BAD_UUID].

(** What [e2fsck_get_journal] leaves when it returns [r]: at most two
    questions, about the journal device and UUID, none when both fields are
    already clear; a journal only when every question was accepted, with
    both fields clear; an error with nothing left allocated, the
    unsupported-feature code when a question was declined. *)
Definition get_journal_post (s : state) (r : errcode_t + journal_t) (s' : state)
  : Prop :=
  exists qs,
    asked_since s s' qs
    /\ (List.length qs <= 2)%nat
    /\ Forall (fun q => In (fst q) (identity_codes (hasj s))) qs
    /\ device s' = device s
    /\ (s_journal_dev (sbof s) = 0 ->
        uuid_is_null (s_journal_uuid (sbof s)) = true ->
        qs = [] /\ ctx s' = ctx s)
    /\ match r with
       | inr j =>
           Forall said_yes qs
           /\ outstanding s' = add3 (outstanding s)
           /\ s_journal_dev (sbof s') = 0
           /\ uuid_is_null (s_journal_uuid (sbof s')) = true
       | inl e =>
           is_err e = true
           /\ outstanding s' = outstanding s
           /\ (Exists said_no qs -> e = EXT2_ET_UNSUPP_FEATURE)
       end.

(** What [e2fsck_get_journal] leaves when it waits for an answer. *)
Definition get_journal_waits (s s' : state) : Prop :=
  exists qs,
    asked_since s s' qs
    /\ (List.length qs <= 1)%nat
    /\ Forall said_yes qs
    /\ device s' = device s
    /\ outstanding s' = outstanding s.

(** What [e2fsck_journal_fix_bad_inode] leaves when it returns [r]. *)
Definition fix_bad_inode_post (s : state) (r : errcode_t) (s' : state) : Prop :=
  (r = OK <-> hasj s' = false /\ s_journal_inum (sbof s') = 0 /\ recov s' = false)
  /\ (r <> OK -> ctx s' = ctx s
               /\ (r = EXT2_ET_BAD_INODE_NUM \/ r = EXT2_ET_UNSUPP_FEATURE))
  /\ (r = OK -> ctx s' <> ctx s -> valid_fs s' = false /\ super_dirty s')
  /\ s_journal_dev (sbof s') = s_journal_dev (sbof s)
  /\ s_journal_uuid (sbof s') = s_journal_uuid (sbof s)
  /\ device s' = device s /\ memory s' = memory s
  /\ exists qs, asked_since s s' qs /\ (List.length qs <= 1)%nat.

(** The three ways [e2fsck_journal_fix_unsupported_super] returns. *)
Definition fix_unsupported_super_post (s : state) (r : errcode_t) (s' : state)
  : Prop :=
  (r = EXT2_ET_CORRUPT_SUPERBLOCK /\ hasj s = true /\ ctx s' = ctx s
   /\ asked_since s s' [(PR_0_JOURNAL_UNSUPP_SUPER, true)])
  \/ (r = EXT2_ET_UNSUPP_FEATURE /\ ctx s' = ctx s
      /\ (hasj s = true \/ s_journal_inum (sbof s) <> 0 \/ recov s = true))
  \/ (r = OK /\ hasj s' = false /\ s_journal_inum (sbof s') = 0
      /\ recov s' = false).

(** What [e2fsck_journal_load] does with a journal superblock that was
    read into [jbh], leaving [s1], and has the magic. *)
Definition load_good_magic_post (j : journal_t) (jbh : buffer_head)
           (s1 : state) (r : errcode_t) (j' : journal_t) (s' : state) : Prop :=
  let jsb := b_data jbh in
  let unknown_incompat :=
    negb (Z.land (get_be32 off_s_feature_incompat jsb)
                 (Z.lnot JFS_KNOWN_INCOMPAT_FEATURES) =? 0) in
  let unknown_ro :=
    negb (Z.land (get_be32 off_s_feature_ro_compat jsb)
                 (Z.lnot JFS_KNOWN_ROCOMPAT_FEATURES) =? 0) in
  ctx s' = ctx s1 /\ problems s' = problems s1 /\ memory s' = memory s1
  /\ device s' = device s1
  /\ j_sb_buffer j' = jbh
  /\ (r = OK <-> format_checks_pass j jbh = true
                 /\ get_be32 off_s_maxlen jsb <= j_maxlen j)
  /\ (jsb_version jsb = None -> r = EXT2_ET_UNSUPP_FEATURE)
  /\ (jsb_version jsb = Some 1 ->
      r = OK \/ r = EXT2_ET_CORRUPT_SUPERBLOCK)
  /\ (jsb_version jsb = Some 2 -> unknown_incompat = true ->
      r = EXT2_ET_UNSUPP_FEATURE)
  /\ (jsb_version jsb = Some 2 -> unknown_incompat = false ->
      unknown_ro = true -> r = EXT2_ET_RO_UNSUPP_FEATURE)
  /\ (jsb_version jsb = Some 2 -> unknown_incompat = false ->
      unknown_ro = false -> r = OK \/ r = EXT2_ET_CORRUPT_SUPERBLOCK).

(** What [e2fsck_journal_fix_corrupt_super] leaves when it returns. *)
Definition fix_corrupt_super_post (j : journal_t) (s : state)
           (rj : errcode_t * journal_t) (s' : state) : Prop :=
  let r := fst rj in
  let j' := snd rj in
  (r = OK \/ r = EXT2_ET_CORRUPT_SUPERBLOCK)
  /\ (r = EXT2_ET_CORRUPT_SUPERBLOCK -> ctx s' = ctx s /\ j' = j)
  /\ (hasj s = true -> r = OK ->
      j_transaction_sequence j' = 1
      /\ b_data (j_sb_buffer j') =
           reset_super_data (blocksize (fs (ctx s))) (j_maxlen j)
                            (b_data (j_sb_buffer j))
      /\ hasj s' = true /\ recov s' = false
      /\ s_state (sbof s') =
           (if recov s then clear_flag (s_state (sbof s)) EXT2_VALID_FS
            else s_state (sbof s))
      /\ super_dirty s')
  /\ (hasj s = false ->
      j' = j /\ (r = OK -> s_journal_inum (sbof s') = 0 /\ recov s' = false))
  /\ memory s' = memory s.

(** What a step of the driver leaves behind: a context it changed has the
    superblock marked dirty; and on a read-only image a step during which
    the user accepted nothing leaves the context as it was. *)
Definition footprint (s s' : state) : Prop :=
  (ctx s' = ctx s \/ super_dirty s')
  /\ exists qs,
       asked_since s s' qs
       /\ (Forall said_no qs -> readonly s = true -> ctx s' = ctx s).

(** The device holds what it held, and no write was issued. *)
Definition reads_only (s s' : state) : Prop :=
  blocks (device s') = blocks (device s)
  /\ exists evs, io_since s s' evs /\ writes evs = 0%nat.

(** [v'] is [v], or [v] with the bits of [m] cleared. *)
Definition kept_or_cleared (m v v' : Z) : Prop :=
  v' = v \/ v' = clear_flag v m.

(** The only changes the driver makes to the context: the recovery flag
    and the valid bit may be cleared, the has-journal feature cleared or
    set, the journal inode number, device and UUID zeroed, the dirty flags
    of the filesystem set. *)
Definition only_clears (s s' : state) : Prop :=
  let sb := sbof s in
  let sb' := sbof s' in
  same_ids s s'
  /\ device_name (ctx s') = device_name (ctx s)
  /\ s_rev_level sb' = s_rev_level sb
  /\ s_first_ino sb' = s_first_ino sb
  /\ kept_or_cleared EXT3_FEATURE_INCOMPAT_RECOVER
       (s_feature_incompat sb) (s_feature_incompat sb')
  /\ kept_or_cleared EXT2_VALID_FS (s_state sb) (s_state sb')
  /\ (kept_or_cleared EXT3_FEATURE_COMPAT_HAS_JOURNAL
        (s_feature_compat sb) (s_feature_compat sb')
      \/ s_feature_compat sb' =
           Z.lor (s_feature_compat sb) EXT3_FEATURE_COMPAT_HAS_JOURNAL)
  /\ (s_journal_inum sb' = s_journal_inum sb \/ s_journal_inum sb' = 0)
  /\ (s_journal_dev sb' = s_journal_dev sb \/ s_journal_dev sb' = 0)
  /\ (s_journal_uuid sb' = s_journal_uuid sb \/ s_journal_uuid sb' = uuid_clear)
  /\ (flags (fs (ctx s')) = flags (fs (ctx s))
      \/ flags (fs (ctx s')) =
           Z.lor (flags (fs (ctx s))) (Z.lor EXT2_FLAG_DIRTY EXT2_FLAG_CHANGED)).

(** The answers of a user who, [k] times, agrees that the superblock has
    no journal and then declines to clear the recovery flag; and the log
    these answers leave. *)
Fixpoint undecided (k : nat) : list bool :=
  match k with
  | O => []
  | S k' => true :: false :: undecided k'
  end.

Fixpoint undecided_log (k : nat) : list (problem_t * bool) :=
  match k with
  | O => []
  | S k' => (PR_0_JOURNAL_HAS_JOURNAL, true)
            :: (PR_0_JOURNAL_RECOVER_SET, false) :: undecided_log k'
  end.

(** The calls made to the revoke table, the recovery engine and the image
    are as they were. *)
Definition same_calls (s s' : state) : Prop := calls s' = calls s.

(** What [recover_ext3_journal] has asked of the revoke table and of the
    recovery engine when it returns [r]. *)
Definition recover_post (s : state) (r : errcode_t) (s' : state) : Prop :=
  exists cs,
    calls s' = calls s ++ cs
    /\ ((cs = [] /\ is_err r = true)
        \/ (cs = [CallInitRevoke 1024] /\ is_err r = true)
        \/ cs = [CallInitRevoke 1024; CallRecover]).

(* ================================================================= *)
(** ** Sample images

    Concrete machine states on which the driver is run: a 1024-byte-block
    image whose journal inode maps its first block to block 100. *)

Module Sample.

Definition mk_super (compat incompat inum dev : Z) (uuid : list byte)
  : ext2_super_block :=
  {| s_state := EXT2_VALID_FS; s_rev_level := 1; s_first_ino := 11;
     s_feature_compat := compat; s_feature_incompat := incompat;
     s_journal_uuid := uuid; s_journal_inum := inum;
     s_journal_dev := dev |}.

Definition null_uuid : list byte := repeat x00 16.

(** A regular file of 1024 blocks, and a directory. *)
Definition regular_inode : ext2_inode :=
  {| i_mode := 33152; i_size := 1048576; i_links_count := 1 |}.
Definition directory_inode : ext2_inode :=
  {| i_mode := 16877; i_size := 1048576; i_links_count := 2 |}.

(** A journal superblock block with the given fields. *)
Definition jsb (magic blocktype bsize maxlen first sequence start : Z)
  : list byte :=
  put_be32 off_s_start start
    (put_be32 off_s_sequence sequence
      (put_be32 off_s_first first
        (put_be32 off_s_maxlen maxlen
          (put_be32 off_s_blocksize bsize
            (put_be32 off_h_blocktype blocktype
              (put_be32 off_h_magic magic (repeat x00 1024))))))).

Definition good_jsb (start : Z) : list byte :=
  jsb JFS_MAGIC_NUMBER JFS_SUPERBLOCK_V2 1024 1024 1 7 start.

Definition mk_fs (sb : ext2_super_block) : ext2_filsys :=
  {| super := sb; blocksize := 1024; flags := EXT2_FLAG_RW; io_manager := 1 |}.

Definition quiet : services :=
  {| journal_init_revoke_result := fun _ _ => OK;
     journal_recover_result := fun j b => (0, j, b);
     ext2fs_open_result := fun _ _ _ _ _ =>
       (OK, mk_fs (mk_super EXT3_FEATURE_COMPAT_HAS_JOURNAL
                            EXT3_FEATURE_INCOMPAT_RECOVER 8 0 null_uuid)) |}.

(** The image with superblock [sb], opened with [opts]; the journal inode
    is [ino], its first block holds [jblock]; the user will answer [ans];
    the n-th transfer returns [io n]. *)
Definition mk_state (sb : ext2_super_block) (opts : Z) (ans : list bool)
                    (ino : ext2_inode) (jblock : list byte)
                    (io : nat -> errcode_t) : state :=
  {| ctx := {| fs := mk_fs sb; options := opts; superblock := 0;
               filesystem_name := "/dev/sda1"; device_name := "/dev/sda1";
               program_name := "e2fsck" |};
     problems := {| answers := ans; asked := [] |};
     memory := {| alloc_ok := fun _ => true; allocs := 0;
                  live_journals := 0; live_inodes := 0; live_buffers := 0 |};
     inodes := {| inode_table := fun _ => (OK, ino);
                  block_map := fun _ _ => (OK, 100) |};
     device := {| blocks := fun b => if b =? 100 then jblock
                                     else repeat x00 1024;
                  io_result := io; io_log := [] |};
     externals := quiet;
     calls := [];
     diag := [] |}.

Definition io_ok : nat -> errcode_t := fun _ => OK.
Definition io_fail : nat -> errcode_t := fun _ => ERRNO 5.

(** What a run returned, if it did. *)
Definition returned {A : Type} (o : outcome A) : option A :=
  match o with Done a _ => Some a | _ => None end.

(** The journal handle [e2fsck_journal_init_inode] builds on these
    images, before anything is read. *)
Definition fresh_buffer : buffer_head :=
  {| b_size := 1024; b_blocknr := 100; b_dirty := 0; b_uptodate := 0;
     b_err := OK; b_data := repeat x00 1024 |}.

Definition fresh_journal (inum : Z) : journal_t :=
  {| j_inode := Some {| i_ino := inum; i_ext2 := regular_inode |};
     j_blocksize := 1024; j_maxlen := 1024; j_format_version := 0;
     j_tail_sequence := 0; j_transaction_sequence := 0;
     j_tail := 0; j_first := 0; j_last := 0;
     j_sb_buffer := fresh_buffer |}.

(** The buffer and the state after the journal superblock has been
    read from block 100. *)
Definition loaded_buffer (jblock : list byte) : buffer_head :=
  {| b_size := 1024; b_blocknr := 100; b_dirty := 0; b_uptodate := 1;
     b_err := OK; b_data := jblock |}.

Definition after_read (s : state) : state :=
  set_device {| blocks := blocks (device s);
                io_result := io_result (device s);
                io_log := io_log (device s) ++ [PhysRead 100] |} s.

(** An ext3 image, writable, recovery not pending, whose journal block
    has no magic; the user accepts every repair. *)
Definition bad_magic_image : state :=
  mk_state (mk_super EXT3_FEATURE_COMPAT_HAS_JOURNAL 0 8 0 null_uuid) 0
           [true; true] regular_inode (jsb 0 2 1024 1024 1 7 0) io_ok.

(** A read-only image with the recovery flag and a good journal but no
    has-journal feature; the user declines. *)
Definition readonly_recover_image : state :=
  mk_state (mk_super 0 EXT3_FEATURE_INCOMPAT_RECOVER 8 0 null_uuid)
           E2F_OPT_READONLY [false] regular_inode (good_jsb 0) io_ok.

(** An ext3 image whose journal inode, number 12, is a directory; the
    user accepts the repair. *)
Definition directory_journal_image : state :=
  mk_state (mk_super EXT3_FEATURE_COMPAT_HAS_JOURNAL 0 12 0 null_uuid) 0
           [true] directory_inode (good_jsb 0) io_ok.

(** An ext3 image with recovery pending whose journal superblock claims
    a block size of 4096; the user accepts the reset. *)
Definition corrupt_super_image : state :=
  mk_state (mk_super EXT3_FEATURE_COMPAT_HAS_JOURNAL
                     EXT3_FEATURE_INCOMPAT_RECOVER 8 0 null_uuid) 0
           [true] regular_inode
           (jsb JFS_MAGIC_NUMBER JFS_SUPERBLOCK_V2 4096 1024 1 7 42) io_ok.

(** An ext3 image with recovery pending whose journal superblock cannot
    be read, and one whose journal superblock has an unknown block
    type. *)
Definition unreadable_image : state :=
  mk_state (mk_super EXT3_FEATURE_COMPAT_HAS_JOURNAL
                     EXT3_FEATURE_INCOMPAT_RECOVER 8 0 null_uuid) 0
           [] regular_inode (good_jsb 42) io_fail.

Definition future_format_image : state :=
  mk_state (mk_super EXT3_FEATURE_COMPAT_HAS_JOURNAL
                     EXT3_FEATURE_INCOMPAT_RECOVER 8 0 null_uuid) 0
           [] regular_inode
           (jsb JFS_MAGIC_NUMBER 9 1024 1024 1 7 42) io_ok.

(** A clean and a dirty ext3 image, writable. *)
Definition clean_image : state :=
  mk_state (mk_super EXT3_FEATURE_COMPAT_HAS_JOURNAL 0 8 0 null_uuid) 0
           [] regular_inode (good_jsb 0) io_ok.

Definition dirty_image : state :=
  mk_state (mk_super EXT3_FEATURE_COMPAT_HAS_JOURNAL
                     EXT3_FEATURE_INCOMPAT_RECOVER 8 0 null_uuid) 0
           [] regular_inode (good_jsb 42) io_ok.

(** An image without the has-journal feature but with a journal inode
    below the first non-reserved one; the user agrees to drop it. *)
Definition stale_inode_image : state :=
  mk_state (mk_super 0 0 8 0 null_uuid) 0
           [true] regular_inode (good_jsb 0) io_ok.


End Sample.

(** Further images, for the functions below the consistency check. *)

Module Cases.

(** An image that never had a journal. *)
Definition plain_ext2_image : state :=
  Sample.mk_state (Sample.mk_super 0 0 0 0 Sample.null_uuid) 0
                  [] Sample.regular_inode (repeat x00 1024) Sample.io_ok.

(** An image with the recovery flag and without the has-journal feature.
    Its user twice agrees that there is no journal and declines to clear
    the flag, then accepts both. *)
Definition undecided_image : state :=
  Sample.mk_state
    (Sample.mk_super 0 EXT3_FEATURE_INCOMPAT_RECOVER 8 0 Sample.null_uuid) 0
    (undecided 2 ++ [true; true]) Sample.regular_inode (Sample.good_jsb 0)
    Sample.io_ok.

(** The same image when the user accepts at once. *)
Definition agreeing_image : state :=
  Sample.mk_state
    (Sample.mk_super 0 EXT3_FEATURE_INCOMPAT_RECOVER 8 0 Sample.null_uuid) 0
    [true; true] Sample.regular_inode (Sample.good_jsb 0) Sample.io_ok.

(** Services whose recovery engine fails with an I/O error. *)
Definition failing : services :=
  {| journal_init_revoke_result := fun _ _ => OK;
     journal_recover_result := fun j b => (-5, j, b);
     ext2fs_open_result := ext2fs_open_result Sample.quiet |}.

(** The dirty image, on these services. *)
Definition failed_replay_image : state :=
  {| ctx := ctx Sample.dirty_image; problems := problems Sample.dirty_image;
     memory := memory Sample.dirty_image; inodes := inodes Sample.dirty_image;
     device := device Sample.dirty_image; externals := failing;
     calls := []; diag := [] |}.

(** The journal handle once a journal superblock without the magic has
    been read. *)
Definition journal_without_magic : journal_t :=
  set_j_sb_buffer (Sample.loaded_buffer (Sample.jsb 0 2 1024 1024 1 7 0))
                  (Sample.fresh_journal 8).

(** The read-only image of [Sample.readonly_recover_image], opened for
    writing. *)
Definition writable_recover_image : state :=
  Sample.mk_state
    (Sample.mk_super 0 EXT3_FEATURE_INCOMPAT_RECOVER 8 0 Sample.null_uuid) 0
    [false] Sample.regular_inode (Sample.good_jsb 0) Sample.io_ok.

(** An ext3 image, writable, whose journal block has no magic; the user
    accepts the removal of the journal and then declines
    [PR_0_JOURNAL_HAS_JOURNAL]. *)
Definition deleted_journal_image : state :=
  Sample.mk_state
    (Sample.mk_super EXT3_FEATURE_COMPAT_HAS_JOURNAL 0 8 0 Sample.null_uuid) 0
    [true; false] Sample.regular_inode (Sample.jsb 0 2 1024 1024 1 7 0)
    Sample.io_ok.


(** The journal handle once the journal superblock of the dirty image,
    with start 42 and sequence 7, has been read and the sequence has moved
    on to 9; and the handle of that image with its buffer marked dirty. *)
Definition replayed_journal : journal_t :=
  set_j_transaction_sequence 9
    (set_j_sb_buffer (Sample.loaded_buffer (Sample.good_jsb 42))
                     (Sample.fresh_journal 8)).

Definition dirty_journal : journal_t :=
  set_j_sb_buffer
    (mark_buffer_dirty (Sample.loaded_buffer (Sample.good_jsb 42)) 1)
    (Sample.fresh_journal 8).

End Cases.

(* ================================================================= *)
(** * Properties *)

(** Splits a conjunction into its conjuncts, and nothing else. *)
Ltac splits := repeat match goal with |- _ /\ _ => split end.

(* ----------------------------------------------------------------- *)
(** ** Bytes *)

Lemma byte_val_range (b : byte) : 0 <= byte_val b < 256.
Proof.
  unfold byte_val. pose proof (Byte.to_N_bounded b). lia.
Qed.

Lemma byte_val_of_Z (z : Z) : byte_val (byte_of_Z z) = z mod 256.
Proof.
  unfold byte_val, byte_of_Z.
  assert (Hr : 0 <= z mod 256 < 256) by (apply Z.mod_pos_bound; lia).
  destruct (Byte.of_N (Z.to_N (z mod 256))) as [b|] eqn:E.
  - apply Byte.to_of_N in E. rewrite E. lia.
  - apply Byte.of_N_None_iff in E. lia.
Qed.

Lemma store_length (off : nat) (bs d : list byte) :
  List.length (store off bs d) = List.length d.
Proof.
  revert off bs. induction d as [|x d IH]; intros off bs; simpl; [reflexivity|].
  destruct off; [destruct bs|]; simpl; auto.
Qed.

Lemma nth_store_in (d : list byte) : forall (off : nat) (bs : list byte) (i : nat) (x : byte),
  (off <= i < off + List.length bs)%nat -> (i < List.length d)%nat ->
  nth i (store off bs d) x = nth (i - off) bs x.
Proof.
  induction d as [|y d IH]; intros off bs i x Hi Hd; simpl in *; [lia|].
  destruct off as [|off].
  - destruct bs as [|b bs]; simpl in *; [lia|].
    destruct i as [|i]; simpl; [reflexivity|].
    rewrite (IH O bs i x) by lia. now rewrite Nat.sub_0_r.
  - destruct i as [|i]; [lia|]. simpl. apply IH; lia.
Qed.

Lemma nth_store_out (d : list byte) : forall (off : nat) (bs : list byte) (i : nat) (x : byte),
  (i < off \/ off + List.length bs <= i)%nat ->
  nth i (store off bs d) x = nth i d x.
Proof.
  induction d as [|y d IH]; intros off bs i x Hi; simpl in *; [reflexivity|].
  destruct off as [|off].
  - destruct bs as [|b bs]; simpl in *; [reflexivity|].
    destruct i as [|i]; [lia|]. simpl. apply IH. lia.
  - destruct i as [|i]; simpl; [reflexivity|]. apply IH. lia.
Qed.

Lemma get_be32_range (off : nat) (d : list byte) :
  0 <= get_be32 off d < 4294967296.
Proof.
  unfold get_be32.
  pose proof (byte_val_range (nth off d x00)).
  pose proof (byte_val_range (nth (off + 1) d x00)).
  pose proof (byte_val_range (nth (off + 2) d x00)).
  pose proof (byte_val_range (nth (off + 3) d x00)).
  lia.
Qed.

Lemma put_be32_length (off : nat) (v : Z) (d : list byte) :
  List.length (put_be32 off v d) = List.length d.
Proof. apply store_length. Qed.

Lemma memset0_length (off len : nat) (d : list byte) :
  List.length (memset0 off len d) = List.length d.
Proof. apply store_length. Qed.

Lemma be32_split (v : Z) :
  (v / 16777216) mod 256 * 16777216 + (v / 65536) mod 256 * 65536
  + (v / 256) mod 256 * 256 + v mod 256 = v mod 4294967296.
Proof.
  pose proof (Z.div_mod v 256 ltac:(lia)).
  pose proof (Z.div_mod (v / 256) 256 ltac:(lia)).
  pose proof (Z.div_mod (v / 256 / 256) 256 ltac:(lia)).
  pose proof (Z.div_mod (v / 256 / 256 / 256) 256 ltac:(lia)).
  pose proof (Z.mod_pos_bound v 256 ltac:(lia)).
  pose proof (Z.mod_pos_bound (v / 256) 256 ltac:(lia)).
  pose proof (Z.mod_pos_bound (v / 256 / 256) 256 ltac:(lia)).
  pose proof (Z.mod_pos_bound (v / 256 / 256 / 256) 256 ltac:(lia)).
  replace (v / 65536) with (v / 256 / 256)
    by (rewrite Z.div_div by lia; reflexivity).
  replace (v / 16777216) with (v / 256 / 256 / 256)
    by (rewrite !Z.div_div by lia; reflexivity).
  apply Z.mod_unique_pos with (q := v / 256 / 256 / 256 / 256); lia.
Qed.

Lemma get_put_be32_same (off : nat) (v : Z) (d : list byte) :
  (off + 4 <= List.length d)%nat ->
  get_be32 off (put_be32 off v d) = v mod 4294967296.
Proof.
  intros Hlen. unfold get_be32, put_be32.
  rewrite !nth_store_in by (simpl; lia).
  replace (off - off)%nat with 0%nat by lia.
  replace (off + 1 - off)%nat with 1%nat by lia.
  replace (off + 2 - off)%nat with 2%nat by lia.
  replace (off + 3 - off)%nat with 3%nat by lia.
  simpl. rewrite !byte_val_of_Z. apply be32_split.
Qed.

Lemma get_put_be32_other (off off' : nat) (v : Z) (d : list byte) :
  (off' + 4 <= off \/ off + 4 <= off')%nat ->
  get_be32 off' (put_be32 off v d) = get_be32 off' d.
Proof.
  intros H. unfold get_be32, put_be32.
  rewrite !nth_store_out by (simpl; lia). reflexivity.
Qed.

Lemma nth_put_be32_other (off i : nat) (v : Z) (d : list byte) (x : byte) :
  (i < off \/ off + 4 <= i)%nat ->
  nth i (put_be32 off v d) x = nth i d x.
Proof. intros H. unfold put_be32. apply nth_store_out. simpl. lia. Qed.

Lemma nth_memset0_in (off len i : nat) (d : list byte) :
  (off <= i < off + len)%nat -> (i < List.length d)%nat ->
  nth i (memset0 off len d) x00 = x00.
Proof.
  intros Hi Hd. unfold memset0.
  rewrite nth_store_in by (rewrite ?repeat_length; lia).
  apply nth_repeat.
Qed.

Lemma nth_memset0_out (off len i : nat) (d : list byte) (x : byte) :
  (i < off \/ off + len <= i)%nat ->
  nth i (memset0 off len d) x = nth i d x.
Proof.
  intros Hi. unfold memset0. apply nth_store_out. rewrite repeat_length. lia.
Qed.

Lemma get_be32_memset0_in (off len o : nat) (d : list byte) :
  (off <= o)%nat -> (o + 4 <= off + len)%nat -> (o + 4 <= List.length d)%nat ->
  get_be32 o (memset0 off len d) = 0.
Proof.
  intros H1 H2 H3. unfold get_be32.
  rewrite !nth_memset0_in by lia. reflexivity.
Qed.

Lemma get_be32_memset0_out (off len o : nat) (d : list byte) :
  (o + 4 <= off \/ off + len <= o)%nat ->
  get_be32 o (memset0 off len d) = get_be32 o d.
Proof.
  intros H. unfold get_be32. rewrite !nth_memset0_out by lia. reflexivity.
Qed.

Lemma get_be32_ext (off : nat) (d d' : list byte) :
  (forall i, (off <= i < off + 4)%nat -> nth i d x00 = nth i d' x00) ->
  get_be32 off d = get_be32 off d'.
Proof.
  intros H. unfold get_be32. rewrite !H by lia. reflexivity.
Qed.

(* ----------------------------------------------------------------- *)
(** ** Rules of the monad *)

Lemma wp_ret {A : Type} (a : A) (Q : A -> state -> Prop) (s : state) :
  Q a s -> wp (ret a) Q s.
Proof. exact (fun H => H). Qed.

Lemma wp_bind {A B : Type} (m : M A) (k : A -> M B)
      (Q : B -> state -> Prop) (s : state) :
  wp m (fun a s' => wp (k a) Q s') s -> wp (bind m k) Q s.
Proof. unfold wp, bind. destruct (m s); auto. Qed.

Lemma wp_mono {A : Type} (m : M A) (P Q : A -> state -> Prop) (s : state) :
  wp m P s -> (forall a s', P a s' -> Q a s') -> wp m Q s.
Proof. unfold wp. destruct (m s); auto. Qed.

Lemma wp_gets {A : Type} (f : state -> A) (Q : A -> state -> Prop) (s : state) :
  Q (f s) s -> wp (gets f) Q s.
Proof. exact (fun H => H). Qed.

Lemma wp_modify (f : state -> state) (Q : unit -> state -> Prop) (s : state) :
  Q tt (f s) -> wp (modify f) Q s.
Proof. exact (fun H => H). Qed.

Lemma wp_Done {A : Type} (m : M A) (Q : A -> state -> Prop) (s s' : state) (a : A) :
  wp m Q s -> m s = Done a s' -> Q a s'.
Proof. unfold wp. intros H E. now rewrite E in H. Qed.

Lemma wp_fix_problem (code : problem_t) (Q : bool -> state -> Prop) (s : state) :
  (forall a rest,
      answers (problems s) = a :: rest ->
      Q a (set_problems {| answers := rest;
                           asked := asked (problems s) ++ [(code, a)] |} s)) ->
  wp (fix_problem code) Q s.
Proof.
  unfold wp, fix_problem. intros H.
  destruct (answers (problems s)) as [|a rest]; auto.
Qed.

Lemma always_ret {A : Type} (a : A) (R : state -> state -> Prop) :
  (forall s, R s s) -> always (ret a) R.
Proof. intros H s. apply H. Qed.

Lemma always_bind {A B : Type} (m : M A) (k : A -> M B)
      (R : state -> state -> Prop) :
  (forall s1 s2 s3, R s1 s2 -> R s2 s3 -> R s1 s3) ->
  always m R -> (forall a, always (k a) R) -> always (bind m k) R.
Proof.
  intros Htrans Hm Hk s. unfold bind.
  specialize (Hm s). destruct (m s) as [a s'| |]; simpl in *; auto.
  eapply Htrans; [exact Hm|]. apply Hk.
Qed.

Lemma always_wp {A : Type} (m : M A) (R : state -> state -> Prop)
      (Q : A -> state -> Prop) (s : state) :
  always m R -> (forall a s', R s s' -> Q a s') -> wp m Q s.
Proof.
  intros Hm HQ. unfold wp. specialize (Hm s).
  destruct (m s); simpl in *; auto.
Qed.

Lemma same_ctx_refl (s : state) : same_ctx s s.
Proof. repeat split; reflexivity. Qed.

Lemma same_ctx_trans (s1 s2 s3 : state) :
  same_ctx s1 s2 -> same_ctx s2 s3 -> same_ctx s1 s3.
Proof. unfold same_ctx. intros (-> & -> & ->) (-> & -> & ->). auto. Qed.

Lemma same_ids_refl (s : state) : same_ids s s.
Proof. unfold same_ids. repeat split; reflexivity. Qed.

Lemma same_ids_trans (s1 s2 s3 : state) :
  same_ids s1 s2 -> same_ids s2 s3 -> same_ids s1 s3.
Proof.
  unfold same_ids. intros H1 H2.
  repeat match goal with H : _ /\ _ |- _ => destruct H end.
  repeat split; congruence.
Qed.

Lemma same_ctx_ids (s s' : state) : same_ctx s s' -> same_ids s s'.
Proof.
  unfold same_ctx, same_ids. intros (E & _ & Hx). rewrite E. repeat split; auto.
Qed.

(* ----------------------------------------------------------------- *)
(** ** Functions that leave the context alone *)

Create HintDb quiet.

Ltac always_step refl trans :=
  first
    [ solve [auto with quiet]
    | apply always_ret; exact refl
    | apply always_bind; [exact trans | | intros ?]
    | match goal with
      | |- always (match ?x with _ => _ end) _ => destruct x
      end ].

Ltac quiet_tac := repeat always_step same_ctx_refl same_ctx_trans.

Ltac prim_tac :=
  intros s; cbv beta delta [final_state]; simpl;
  repeat match goal with
         | |- context [if ?b then _ else _] => destruct b
         | |- context [match ?x with _ => _ end] => destruct x
         end;
  simpl; repeat split; reflexivity.

Lemma quiet_gets {A : Type} (f : state -> A) : always (gets f) same_ctx.
Proof. prim_tac. Qed.

Lemma quiet_com_err (w : string) (c : errcode_t) (t : string) :
  always (com_err w c t) same_ctx.
Proof. prim_tac. Qed.

Lemma quiet_printf (t : string) : always (printf t) same_ctx.
Proof. prim_tac. Qed.

Lemma quiet_allocate (k : obj_kind) : always (e2fsck_allocate_memory k) same_ctx.
Proof. unfold e2fsck_allocate_memory. prim_tac. Qed.

Lemma quiet_free (k : obj_kind) : always (ext2fs_free_mem k) same_ctx.
Proof. prim_tac. Qed.

Lemma quiet_read_blk (blk : Z) (buf : list byte) :
  always (io_channel_read_blk blk buf) same_ctx.
Proof. prim_tac. Qed.

Lemma quiet_write_blk (blk : Z) (buf : list byte) :
  always (io_channel_write_blk blk buf) same_ctx.
Proof. prim_tac. Qed.

#[local] Hint Resolve quiet_gets quiet_com_err quiet_printf quiet_allocate
  quiet_free quiet_read_blk quiet_write_blk : quiet.

Lemma quiet_ext2fs_bmap (ino block : Z) : always (ext2fs_bmap ino block) same_ctx.
Proof. apply quiet_gets. Qed.

Lemma quiet_read_inode (ino : Z) : always (ext2fs_read_inode ino) same_ctx.
Proof. apply quiet_gets. Qed.

#[local] Hint Resolve quiet_ext2fs_bmap quiet_read_inode : quiet.

Lemma quiet_bmap (inode : inode_t) (block : Z) : always (bmap inode block) same_ctx.
Proof. unfold bmap. quiet_tac. Qed.

Lemma quiet_getblk (blocknr bsize : Z) : always (getblk blocknr bsize) same_ctx.
Proof. unfold getblk. quiet_tac. Qed.

Lemma quiet_ll_rw_block_one (rw : Z) (bh : buffer_head) :
  always (ll_rw_block_one rw bh) same_ctx.
Proof. unfold ll_rw_block_one. quiet_tac. Qed.

#[local] Hint Resolve quiet_bmap quiet_getblk quiet_ll_rw_block_one : quiet.

Lemma quiet_ll_rw_block (rw : Z) (bhp : list buffer_head) :
  always (ll_rw_block rw bhp) same_ctx.
Proof. induction bhp; simpl; quiet_tac. Qed.

#[local] Hint Resolve quiet_ll_rw_block : quiet.

Lemma quiet_ll_rw_block1 (rw : Z) (bh : buffer_head) :
  always (ll_rw_block1 rw bh) same_ctx.
Proof. unfold ll_rw_block1. quiet_tac. Qed.

#[local] Hint Resolve quiet_ll_rw_block1 : quiet.

Lemma quiet_brelse (bh : buffer_head) : always (brelse bh) same_ctx.
Proof. unfold brelse. quiet_tac. Qed.

Lemma quiet_wait_on_buffer (bh : buffer_head) : always (wait_on_buffer bh) same_ctx.
Proof. unfold wait_on_buffer. quiet_tac. Qed.

#[local] Hint Resolve quiet_brelse quiet_wait_on_buffer : quiet.

Lemma quiet_init_inode (ino : Z) : always (e2fsck_journal_init_inode ino) same_ctx.
Proof. unfold e2fsck_journal_init_inode. quiet_tac. Qed.

Lemma quiet_reset_super (j : journal_t) : always (e2fsck_journal_reset_super j) same_ctx.
Proof. unfold e2fsck_journal_reset_super. quiet_tac. Qed.

Lemma quiet_release (j : journal_t) (reset : bool) :
  always (e2fsck_journal_release j reset) same_ctx.
Proof. unfold e2fsck_journal_release. quiet_tac. Qed.

#[local] Hint Resolve quiet_init_inode quiet_reset_super quiet_release : quiet.

(* ----------------------------------------------------------------- *)
(** ** Functions that keep the identity of the image *)

Create HintDb ids.

Lemma always_weaken {A : Type} (m : M A) (R R' : state -> state -> Prop) :
  (forall s s', R s s' -> R' s s') -> always m R -> always m R'.
Proof. intros H Hm s. apply H, Hm. Qed.

Lemma ids_of_quiet {A : Type} (m : M A) : always m same_ctx -> always m same_ids.
Proof. apply always_weaken. exact same_ctx_ids. Qed.

Lemma ids_get_sb : always get_sb same_ids.
Proof. apply ids_of_quiet, quiet_gets. Qed.

Lemma ids_update_sb (f : ext2_super_block -> ext2_super_block) :
  always (update_sb f) same_ids.
Proof. prim_tac. Qed.

Lemma ids_mark_super_dirty : always ext2fs_mark_super_dirty same_ids.
Proof. prim_tac. Qed.

Lemma ids_fix_problem (code : problem_t) : always (fix_problem code) same_ids.
Proof.
  intros s. unfold fix_problem.
  destruct (answers (problems s)); simpl; repeat split; reflexivity.
Qed.

Lemma ids_gets {A : Type} (f : state -> A) : always (gets f) same_ids.
Proof. apply ids_of_quiet, quiet_gets. Qed.

Lemma ids_printf (t : string) : always (printf t) same_ids.
Proof. apply ids_of_quiet, quiet_printf. Qed.

Lemma ids_com_err (w : string) (c : errcode_t) (t : string) :
  always (com_err w c t) same_ids.
Proof. apply ids_of_quiet, quiet_com_err. Qed.

Lemma ids_ll_rw_block1 (rw : Z) (bh : buffer_head) :
  always (ll_rw_block1 rw bh) same_ids.
Proof. apply ids_of_quiet, quiet_ll_rw_block1. Qed.

Lemma ids_init_inode (ino : Z) : always (e2fsck_journal_init_inode ino) same_ids.
Proof. apply ids_of_quiet, quiet_init_inode. Qed.

Lemma ids_reset_super (j : journal_t) :
  always (e2fsck_journal_reset_super j) same_ids.
Proof. apply ids_of_quiet, quiet_reset_super. Qed.

Lemma ids_release (j : journal_t) (reset : bool) :
  always (e2fsck_journal_release j reset) same_ids.
Proof. apply ids_of_quiet, quiet_release. Qed.

#[local] Hint Resolve ids_get_sb ids_update_sb ids_mark_super_dirty
  ids_fix_problem ids_gets ids_printf ids_com_err ids_ll_rw_block1
  ids_init_inode ids_reset_super ids_release : ids.

Ltac ids_auto :=
  repeat first
    [ solve [auto with ids]
    | apply always_ret; exact same_ids_refl
    | apply always_bind; [exact same_ids_trans | | intros ?]
    | match goal with
      | |- always (match ?x with _ => _ end) _ => destruct x
      end ].

Lemma ids_clear_recover (error : bool) : always (e2fsck_clear_recover error) same_ids.
Proof. unfold e2fsck_clear_recover. ids_auto. Qed.

#[local] Hint Resolve ids_clear_recover : ids.

Lemma ids_fix_bad_inode : always e2fsck_journal_fix_bad_inode same_ids.
Proof. unfold e2fsck_journal_fix_bad_inode. ids_auto. Qed.

#[local] Hint Resolve ids_fix_bad_inode : ids.

Lemma ids_check_journal_dev (code : problem_t) (k : M (errcode_t + journal_t)) :
  always k same_ids -> always (check_journal_dev code k) same_ids.
Proof. intros Hk. unfold check_journal_dev. ids_auto. Qed.

Lemma ids_check_journal_uuid (code : problem_t) (k : M (errcode_t + journal_t)) :
  always k same_ids -> always (check_journal_uuid code k) same_ids.
Proof. intros Hk. unfold check_journal_uuid. ids_auto. Qed.

Lemma ids_get_journal : always e2fsck_get_journal same_ids.
Proof.
  assert (Hrest : always
            (check_journal_dev PR_0_JOURNAL_BAD_DEV
               (check_journal_uuid PR_0_JOURNAL_BAD_UUID
                  (sb <- get_sb ;;
                   e2fsck_journal_init_inode (s_journal_inum sb)))) same_ids).
  { apply ids_check_journal_dev, ids_check_journal_uuid. ids_auto. }
  unfold e2fsck_get_journal. cbv zeta.
  apply always_bind; [exact same_ids_trans | auto with ids | intros sb].
  destruct (has_flag _ _); [|exact Hrest].
  apply ids_check_journal_dev, ids_check_journal_uuid.
  apply always_bind; [exact same_ids_trans | auto with ids | intros sb'].
  destruct (_ =? _); [ids_auto | exact Hrest].
Qed.

Lemma ids_load (j : journal_t) : always (e2fsck_journal_load j) same_ids.
Proof. unfold e2fsck_journal_load. ids_auto. Qed.

Lemma ids_init_revoke (j : journal_t) (n : Z) :
  always (journal_init_revoke j n) same_ids.
Proof. unfold journal_init_revoke. apply always_bind;
  [exact same_ids_trans | prim_tac | intros; auto with ids]. Qed.

Lemma ids_journal_recover (j : journal_t) : always (journal_recover j) same_ids.
Proof.
  unfold journal_recover. apply always_bind;
    [exact same_ids_trans | prim_tac | intros _].
  intros s. cbv zeta.
  destruct (journal_recover_result _ _ _) as [[r j'] b'].
  simpl. repeat split; reflexivity.
Qed.

#[local] Hint Resolve ids_get_journal ids_load ids_init_revoke
  ids_journal_recover : ids.

Lemma ids_recover_ext3_journal : always recover_ext3_journal same_ids.
Proof. unfold recover_ext3_journal. ids_auto. Qed.

(* ----------------------------------------------------------------- *)
(** ** The runner *)

Lemma has_flag_clear_flag (v m : Z) : has_flag (clear_flag v m) m = false.
Proof.
  unfold has_flag, clear_flag.
  rewrite <- Z.land_assoc, (Z.land_comm (Z.lnot m) m), Z.land_lnot_diag.
  now rewrite Z.land_0_r.
Qed.

(** C9: on a read-only image [e2fsck_run_ext3_journal] returns
    [EXT2_ET_FILE_RO] at once, having done nothing but print; otherwise,
    whatever the recovery phase returned, it closes the image, reopens it
    read-write at the superblock offset, block size and I/O manager it had
    on entry, and, the reopen done, clears the recovery-needed bit of the
    reopened superblock, clears its valid bit exactly when the recovery
    phase returned non-zero, and returns what the recovery phase returned. *)
Theorem run_journal_reopens_and_clears :
  forall s : state,
    (readonly s = true ->
     e2fsck_run_ext3_journal s =
       Done EXT2_ET_FILE_RO
            (set_diag ((diag s ++ [Printf "recovering journal"])
                       ++ [Printf "won't do journal recovery while read-only"]) s))
    /\
    (readonly s = false ->
     forall (rr : errcode_t) (s1 : state),
       recover_ext3_journal
         (set_diag (diag s ++ [Printf "recovering journal"]) s) = Done rr s1 ->
       let c := ctx s in
       let reopened :=
         ext2fs_open_result (externals s) (filesystem_name c) EXT2_FLAG_RW
                            (superblock c) (blocksize (fs c)) (io_manager (fs c)) in
       exists s' : state,
         calls s' =
           calls s1 ++ [CallClose;
                        CallOpen (filesystem_name c) EXT2_FLAG_RW (superblock c)
                                 (blocksize (fs c)) (io_manager (fs c))]
         /\ device s' = device s1
         /\ if is_err (fst reopened)
            then e2fsck_run_ext3_journal s = Fatal s'
            else e2fsck_run_ext3_journal s = Done rr s'
                 /\ s_feature_incompat (sbof s') =
                      clear_flag (s_feature_incompat (super (snd reopened)))
                                 EXT3_FEATURE_INCOMPAT_RECOVER
                 /\ recov s' = false
                 /\ s_state (sbof s') =
                      (if is_err rr
                       then clear_flag (s_state (super (snd reopened))) EXT2_VALID_FS
                       else s_state (super (snd reopened)))).
Proof.
  intros s. split.
  - intros Hro. unfold readonly in Hro.
    unfold e2fsck_run_ext3_journal, bind, gets, printf, modify, ret.
    simpl. rewrite Hro. reflexivity.
  - intros Hro rr s1 Hrec c reopened. subst c reopened.
    unfold readonly in Hro.
    pose proof (ids_recover_ext3_journal
                  (set_diag (diag s ++ [Printf "recovering journal"]) s)) as Hid.
    rewrite Hrec in Hid. unfold same_ids in Hid. cbn in Hid.
    destruct Hid as (Hopt & Hsb & Hname & Hprog & Hbs & Hmgr & Hext).
    remember (e2fsck_run_ext3_journal s) as run eqn:Hrun.
    unfold e2fsck_run_ext3_journal, bind at 1 in Hrun.
    unfold gets at 1 in Hrun. cbv beta iota in Hrun.
    unfold bind at 1 in Hrun. unfold printf at 1, modify at 1 in Hrun.
    cbv beta iota in Hrun. rewrite Hro in Hrun.
    unfold bind at 1 in Hrun. rewrite Hrec in Hrun.
    cbv beta iota zeta delta
      [ext2fs_close ext2fs_open bind gets modify com_err fatal_error
       e2fsck_clear_recover update_sb ext2fs_mark_super_dirty ret] in Hrun.
    cbn in Hrun. rewrite Hsb, Hname, Hext in Hrun.
    destruct (ext2fs_open_result (externals s) (filesystem_name (ctx s))
                EXT2_FLAG_RW (superblock (ctx s)) (blocksize (fs (ctx s)))
                (io_manager (fs (ctx s))))
      as [retval newfs] eqn:Eopen.
    cbn in Hrun |- *. destruct (is_err retval) eqn:Eret.
    + subst run. eexists. split; [|split]; [| |reflexivity]; cbn;
        [now rewrite <- app_assoc | reflexivity].
    + destruct (is_err rr) eqn:Err; cbn in Hrun; subst run;
        (eexists; split; [|split; [|split; [reflexivity|]]]; cbn;
         [now rewrite <- app_assoc | reflexivity |]);
        unfold recov, sbof; cbn;
        (split; [reflexivity|split; [apply has_flag_clear_flag|reflexivity]]).
Qed.

(* ----------------------------------------------------------------- *)
(** ** Block mapping *)


(* ----------------------------------------------------------------- *)
(** ** Loading the journal superblock *)

(** C7: once the journal superblock is read and has passed the format and
    block-size checks, [e2fsck_journal_load] compares the on-disk [s_maxlen]
    with the length computed from the inode: a smaller on-disk value
    replaces [j_maxlen]; a greater one makes the load return
    [EXT2_ET_CORRUPT_SUPERBLOCK]; equal values leave [j_maxlen] as it is;
    and in the two cases that go on the load returns 0 with the live fields
    set from the superblock. *)
Theorem load_reconciles_maxlen :
  forall (j : journal_t) (s s1 : state) (jbh : buffer_head),
    ll_rw_block1 READ (j_sb_buffer j) s = Done jbh s1 ->
    format_checks_pass j jbh = true ->
    let jsb := b_data jbh in
    let disk := get_be32 off_s_maxlen jsb in
    exists (r : errcode_t) (j' : journal_t) (s' : state),
      e2fsck_journal_load j s = Done (r, j') s'
      /\ (disk < j_maxlen j -> r = OK /\ j_maxlen j' = disk)
      /\ (j_maxlen j < disk ->
          r = EXT2_ET_CORRUPT_SUPERBLOCK /\ j_maxlen j' = j_maxlen j)
      /\ (disk = j_maxlen j -> r = OK /\ j_maxlen j' = j_maxlen j)
      /\ (r = OK ->
          j_tail_sequence j' = get_be32 off_s_sequence jsb
          /\ j_transaction_sequence j' = get_be32 off_s_sequence jsb
          /\ j_tail j' = get_be32 off_s_start jsb
          /\ j_first j' = get_be32 off_s_first jsb
          /\ j_last j' = disk).
Proof.
  intros j s s1 jbh Hread Hpass jsb disk. subst jsb disk.
  unfold format_checks_pass in Hpass.
  apply andb_true_iff in Hpass. destruct Hpass as [Hpass Hver].
  apply andb_true_iff in Hpass. destruct Hpass as [Herr Hmagic].
  apply negb_true_iff in Herr.
  destruct (jsb_version (b_data jbh)) as [v|] eqn:Ev; [|discriminate].
  cbv zeta in Hver.
  apply andb_true_iff in Hver. destruct Hver as [Hver Hbs].
  apply andb_true_iff in Hver. destruct Hver as [Hinc Hro].
  apply negb_true_iff in Hinc. apply negb_true_iff in Hro.
  unfold e2fsck_journal_load, bind at 1. rewrite Hread.
  cbv beta iota zeta delta [bind gets ret com_err modify].
  rewrite Herr, Hmagic. cbn [negb]. rewrite Ev.
  rewrite Hinc, Hro. cbn [j_blocksize set_j_format_version set_j_sb_buffer] in Hbs |- *.
  rewrite Hbs. cbn [negb].
  cbn [j_maxlen set_j_format_version set_j_sb_buffer].
  destruct (get_be32 off_s_maxlen (b_data jbh) <? j_maxlen j) eqn:Elt.
  - apply Z.ltb_lt in Elt.
    eexists; eexists; eexists; split; [reflexivity|]. cbn.
    repeat split; auto; lia.
  - apply Z.ltb_ge in Elt.
    destruct (j_maxlen j <? get_be32 off_s_maxlen (b_data jbh)) eqn:Egt.
    + apply Z.ltb_lt in Egt.
      eexists; eexists; eexists; split; [reflexivity|]. cbn.
      repeat split; try lia; try reflexivity; discriminate.
    + apply Z.ltb_ge in Egt.
      eexists; eexists; eexists; split; [reflexivity|]. cbn.
      repeat split; auto; lia.
Qed.

(* ----------------------------------------------------------------- *)
(** ** Releasing the journal *)

Lemma release_data_sequence (ts : Z) (reset : bool) (d : list byte) :
  (32 <= List.length d)%nat ->
  get_be32 off_s_sequence (release_data ts reset d) = ts mod 4294967296.
Proof.
  intros Hlen. unfold release_data, off_s_sequence, off_s_start.
  destruct reset.
  - rewrite get_put_be32_other by lia. apply get_put_be32_same. lia.
  - apply get_put_be32_same. lia.
Qed.

Lemma release_data_start_reset (ts : Z) (d : list byte) :
  (32 <= List.length d)%nat ->
  get_be32 off_s_start (release_data ts true d) = 0.
Proof.
  intros Hlen. unfold release_data, off_s_sequence, off_s_start.
  rewrite get_put_be32_same by (rewrite put_be32_length; lia). reflexivity.
Qed.

Lemma release_data_keep (ts : Z) (d : list byte) (i : nat) :
  (i < 24 \/ 28 <= i)%nat ->
  nth i (release_data ts false d) x00 = nth i d x00.
Proof.
  intros Hi. unfold release_data, off_s_sequence.
  apply nth_put_be32_other. lia.
Qed.

(** C5, amended: [e2fsck_journal_release] writes the superblock buffer of
    the handle back, whole.  On a writable image it issues one write, of
    the buffer with [s_sequence] set to the handle's
    [j_transaction_sequence] and, with [reset], [s_start] set to 0; when the
    device takes the write the block on disk is that buffer and no other
    block changes, when it refuses the device is as it was.  Without
    [reset] every byte written outside the [s_sequence] field is the
    buffer's: the start on disk becomes the start the buffer holds, whatever
    the disk held before.  On a read-only image the buffer is not modified,
    and is written back, as it is, only when it was dirty already. *)
Theorem release_writes_sequence_and_start :
  forall (j : journal_t) (reset : bool) (s : state),
    let bh := j_sb_buffer j in
    let ts := j_transaction_sequence j in
    let data := release_data ts reset (b_data bh) in
    (readonly s = false ->
     exists s' : state,
       e2fsck_journal_release j reset s = Done tt s'
       /\ io_log (device s') =
            io_log (device s) ++ [PhysWrite (b_blocknr bh) data]
       /\ (is_err (next_io s) = false ->
           blocks (device s') (b_blocknr bh) = data
           /\ forall b : Z, b <> b_blocknr bh ->
                            blocks (device s') b = blocks (device s) b)
       /\ (is_err (next_io s) = true ->
           blocks (device s') = blocks (device s)))
    /\ ((32 <= List.length (b_data bh))%nat ->
        get_be32 off_s_sequence data = ts mod 4294967296)
    /\ ((32 <= List.length (b_data bh))%nat ->
        reset = true -> get_be32 off_s_start data = 0)
    /\ (reset = false ->
        get_be32 off_s_start data = get_be32 off_s_start (b_data bh)
        /\ forall i : nat, (i < 24 \/ 28 <= i)%nat ->
                           nth i data x00 = nth i (b_data bh) x00)
    /\ (readonly s = true ->
        exists s' : state,
          e2fsck_journal_release j reset s = Done tt s'
          /\ io_log (device s') =
               io_log (device s)
               ++ (if b_dirty bh =? 0 then []
                   else [PhysWrite (b_blocknr bh) (b_data bh)])
          /\ (b_dirty bh = 0 -> device s' = device s)).
Proof.
  intros j reset s bh ts data. subst bh ts.
  split; [|split; [|split; [|split]]].
  - intros Hro. unfold readonly in Hro.
    cbv beta iota zeta delta
      [e2fsck_journal_release brelse ll_rw_block1 ll_rw_block ll_rw_block_one
       io_channel_write_blk ext2fs_free_mem mark_buffer_dirty
       bind gets ret com_err modify].
    rewrite Hro. cbn. unfold next_io.
    destruct (is_err (io_result (device s) (List.length (io_log (device s)))))
      eqn:Eio;
      destruct (is_err (int_of_errcode
                          (io_result (device s)
                                     (List.length (io_log (device s))))));
      cbn; destruct (j_inode j); cbn;
      (eexists; split; [reflexivity|]); cbn;
      (split; [reflexivity|]);
      (split; intros Hio; try discriminate Hio; try reflexivity);
      (split; [now rewrite Z.eqb_refl|]);
      intros b Hb; apply Z.eqb_neq in Hb; now rewrite Hb.
  - intros Hlen. subst data. now apply release_data_sequence.
  - intros Hlen ->. subst data. now apply release_data_start_reset.
  - intros ->. subst data.
    assert (Hkeep : forall i : nat, (i < 24 \/ 28 <= i)%nat ->
              nth i (release_data (j_transaction_sequence j) false
                                  (b_data (j_sb_buffer j))) x00
              = nth i (b_data (j_sb_buffer j)) x00)
      by (intros i Hi; now apply release_data_keep).
    split; [|exact Hkeep].
    apply get_be32_ext. intros i Hi. apply Hkeep.
    unfold off_s_start in Hi. lia.
  - intros Hro. unfold readonly in Hro.
    cbv beta iota zeta delta
      [e2fsck_journal_release brelse ll_rw_block1 ll_rw_block ll_rw_block_one
       io_channel_write_blk ext2fs_free_mem mark_buffer_dirty
       bind gets ret com_err modify].
    rewrite Hro. cbn.
    destruct (b_dirty (j_sb_buffer j) =? 0) eqn:Ed; cbn.
    + destruct (j_inode j); cbn; (eexists; split; [reflexivity|]); cbn;
        rewrite app_nil_r; split; reflexivity.
    + apply Z.eqb_neq in Ed.
      destruct (is_err (int_of_errcode
                          (io_result (device s)
                                     (List.length (io_log (device s))))));
        cbn; destruct (j_inode j); cbn;
        (eexists; split; [reflexivity|]); cbn;
        (split; [reflexivity | intros H0; contradiction]).
Qed.

(* ----------------------------------------------------------------- *)
(** ** Physical transfers *)

Create HintDb noio.

Lemma no_io_refl (s : state) : no_io s s.
Proof. reflexivity. Qed.

Lemma no_io_trans (s1 s2 s3 : state) : no_io s1 s2 -> no_io s2 s3 -> no_io s1 s3.
Proof. unfold no_io. congruence. Qed.

Ltac noio_auto :=
  repeat first
    [ solve [auto with noio]
    | apply always_ret; exact no_io_refl
    | apply always_bind; [exact no_io_trans | | intros ?]
    | match goal with
      | |- always (match ?x with _ => _ end) _ => destruct x
      end ].

Lemma noio_gets {A : Type} (f : state -> A) : always (gets f) no_io.
Proof. prim_tac. Qed.

Lemma noio_com_err (w : string) (c : errcode_t) (t : string) :
  always (com_err w c t) no_io.
Proof. prim_tac. Qed.

Lemma noio_printf (t : string) : always (printf t) no_io.
Proof. prim_tac. Qed.

Lemma noio_allocate (k : obj_kind) : always (e2fsck_allocate_memory k) no_io.
Proof. unfold e2fsck_allocate_memory. prim_tac. Qed.

Lemma noio_free (k : obj_kind) : always (ext2fs_free_mem k) no_io.
Proof. prim_tac. Qed.

Lemma noio_get_sb : always get_sb no_io.
Proof. prim_tac. Qed.

Lemma noio_update_sb (f : ext2_super_block -> ext2_super_block) :
  always (update_sb f) no_io.
Proof. prim_tac. Qed.

Lemma noio_mark_super_dirty : always ext2fs_mark_super_dirty no_io.
Proof. prim_tac. Qed.

Lemma noio_fix_problem (code : problem_t) : always (fix_problem code) no_io.
Proof.
  intros s. unfold fix_problem.
  destruct (answers (problems s)); reflexivity.
Qed.

Lemma noio_ext2fs_bmap (ino block : Z) : always (ext2fs_bmap ino block) no_io.
Proof. prim_tac. Qed.

Lemma noio_read_inode (ino : Z) : always (ext2fs_read_inode ino) no_io.
Proof. prim_tac. Qed.

#[local] Hint Resolve noio_gets noio_com_err noio_printf noio_allocate
  noio_free noio_get_sb noio_update_sb noio_mark_super_dirty noio_fix_problem
  noio_ext2fs_bmap noio_read_inode : noio.

Lemma noio_bmap (inode : inode_t) (block : Z) : always (bmap inode block) no_io.
Proof. unfold bmap. noio_auto. Qed.

Lemma noio_getblk (blocknr bsize : Z) : always (getblk blocknr bsize) no_io.
Proof. unfold getblk. noio_auto. Qed.

Lemma noio_clear_recover (error : bool) : always (e2fsck_clear_recover error) no_io.
Proof. unfold e2fsck_clear_recover. noio_auto. Qed.

#[local] Hint Resolve noio_bmap noio_getblk noio_clear_recover : noio.

Lemma noio_init_inode (ino : Z) : always (e2fsck_journal_init_inode ino) no_io.
Proof. unfold e2fsck_journal_init_inode. noio_auto. Qed.

Lemma noio_fix_bad_inode : always e2fsck_journal_fix_bad_inode no_io.
Proof. unfold e2fsck_journal_fix_bad_inode. noio_auto. Qed.

#[local] Hint Resolve noio_init_inode noio_fix_bad_inode : noio.

Lemma noio_check_journal_dev (code : problem_t) (k : M (errcode_t + journal_t)) :
  always k no_io -> always (check_journal_dev code k) no_io.
Proof. intros Hk. unfold check_journal_dev. noio_auto. Qed.

Lemma noio_check_journal_uuid (code : problem_t) (k : M (errcode_t + journal_t)) :
  always k no_io -> always (check_journal_uuid code k) no_io.
Proof. intros Hk. unfold check_journal_uuid. noio_auto. Qed.

Lemma noio_get_journal : always e2fsck_get_journal no_io.
Proof.
  assert (Hrest : always
            (check_journal_dev PR_0_JOURNAL_BAD_DEV
               (check_journal_uuid PR_0_JOURNAL_BAD_UUID
                  (sb <- get_sb ;;
                   e2fsck_journal_init_inode (s_journal_inum sb)))) no_io).
  { apply noio_check_journal_dev, noio_check_journal_uuid. noio_auto. }
  unfold e2fsck_get_journal. cbv zeta.
  apply always_bind; [exact no_io_trans | auto with noio | intros sb].
  destruct (has_flag _ _); [|exact Hrest].
  apply noio_check_journal_dev, noio_check_journal_uuid.
  apply always_bind; [exact no_io_trans | auto with noio | intros sb'].
  destruct (_ =? _); [noio_auto | exact Hrest].
Qed.

Lemma noio_no_has_journal (fuel : nat) : always (no_has_journal fuel) no_io.
Proof.
  induction fuel as [|fuel IH]; [intros s; reflexivity|].
  simpl. noio_auto.
Qed.

Lemma noio_init_revoke (j : journal_t) (n : Z) :
  always (journal_init_revoke j n) no_io.
Proof.
  unfold journal_init_revoke.
  apply always_bind; [exact no_io_trans | prim_tac | intros; auto with noio].
Qed.

Lemma noio_journal_recover (j : journal_t) : always (journal_recover j) no_io.
Proof.
  unfold journal_recover. apply always_bind;
    [exact no_io_trans | prim_tac | intros _].
  intros s. cbv zeta.
  destruct (journal_recover_result _ _ _) as [[r j'] b']. reflexivity.
Qed.

#[local] Hint Resolve noio_get_journal noio_no_has_journal noio_init_revoke
  noio_journal_recover : noio.

Lemma reads_app (l1 l2 : list io_event) : reads (l1 ++ l2) = (reads l1 + reads l2)%nat.
Proof. unfold reads. now rewrite filter_app, length_app. Qed.

Lemma writes_app (l1 l2 : list io_event) :
  writes (l1 ++ l2) = (writes l1 + writes l2)%nat.
Proof. unfold writes. now rewrite filter_app, length_app. Qed.

Lemma io_within_no_io (r w : nat) (s s' : state) : no_io s s' -> io_within r w s s'.
Proof.
  intros H. exists []. unfold io_since. rewrite app_nil_r.
  repeat split; [exact H | apply Nat.le_0_l | apply Nat.le_0_l].
Qed.

Lemma io_within_trans (r1 w1 r2 w2 : nat) (s1 s2 s3 : state) :
  io_within r1 w1 s1 s2 -> io_within r2 w2 s2 s3 ->
  io_within (r1 + r2) (w1 + w2) s1 s3.
Proof.
  intros (e1 & H1 & Hr1 & Hw1) (e2 & H2 & Hr2 & Hw2).
  exists (e1 ++ e2). unfold io_since in *.
  rewrite H2, H1, reads_app, writes_app.
  split; [now rewrite app_assoc | split; lia].
Qed.

Lemma io_bind {A B : Type} (r1 w1 r2 w2 : nat) (m : M A) (k : A -> M B) :
  always m (io_within r1 w1) ->
  (forall a, always (k a) (io_within r2 w2)) ->
  always (bind m k) (io_within (r1 + r2) (w1 + w2)).
Proof.
  intros Hm Hk s. unfold bind. specialize (Hm s).
  destruct (m s) as [a s'| |]; simpl in *.
  - eapply io_within_trans; [exact Hm | apply Hk].
  - replace (r1 + r2)%nat with (r1 + r2 + 0)%nat by lia.
    replace (w1 + w2)%nat with (w1 + w2 + 0)%nat by lia.
    destruct Hm as (e & H & Hr & Hw). exists e. repeat split; auto; lia.
  - destruct Hm as (e & H & Hr & Hw). exists e. repeat split; auto; lia.
Qed.

Lemma io_bind_l {A B : Type} (r w : nat) (m : M A) (k : A -> M B) :
  always m no_io ->
  (forall a, always (k a) (io_within r w)) ->
  always (bind m k) (io_within r w).
Proof.
  intros Hm Hk. apply (io_bind 0 0 r w); [|exact Hk].
  intros s. apply io_within_no_io, Hm.
Qed.

Lemma io_bind_r {A B : Type} (r w : nat) (m : M A) (k : A -> M B) :
  always m (io_within r w) ->
  (forall a, always (k a) no_io) ->
  always (bind m k) (io_within r w).
Proof.
  intros Hm Hk.
  replace r with (r + 0)%nat by lia. replace w with (w + 0)%nat by lia.
  apply io_bind; [exact Hm|]. intros a s. apply io_within_no_io, Hk.
Qed.

Lemma io_of_no_io {A : Type} (r w : nat) (m : M A) :
  always m no_io -> always m (io_within r w).
Proof. intros H s. apply io_within_no_io, H. Qed.

Lemma io_read_blk (blk : Z) (buf : list byte) :
  always (io_channel_read_blk blk buf) (io_within 1 0).
Proof.
  intros s. exists [PhysRead blk]. repeat split; simpl; auto.
Qed.

Lemma io_write_blk (blk : Z) (buf : list byte) :
  always (io_channel_write_blk blk buf) (io_within 0 1).
Proof.
  intros s. exists [PhysWrite blk buf]. repeat split; simpl; auto.
Qed.

Lemma io_ll_rw_block_one_read (bh : buffer_head) :
  always (ll_rw_block_one READ bh) (io_within 1 0).
Proof.
  unfold ll_rw_block_one. cbn [Z.eqb READ WRITE andb].
  destruct (b_uptodate bh =? 0).
  - apply io_bind_r; [apply io_read_blk|]. intros [retval data]. noio_auto.
  - apply io_of_no_io. noio_auto.
Qed.

Lemma io_ll_rw_block_one_write (bh : buffer_head) :
  always (ll_rw_block_one WRITE bh) (io_within 0 1).
Proof.
  unfold ll_rw_block_one. cbn [Z.eqb READ WRITE andb].
  destruct (negb (b_dirty bh =? 0)).
  - apply io_bind_r; [apply io_write_blk|]. intros retval. noio_auto.
  - apply io_of_no_io. noio_auto.
Qed.

Lemma io_ll_rw_block1_read (bh : buffer_head) :
  always (ll_rw_block1 READ bh) (io_within 1 0).
Proof.
  unfold ll_rw_block1. simpl.
  apply io_bind_r; [|intros; noio_auto].
  apply io_bind_r; [apply io_ll_rw_block_one_read | intros; noio_auto].
Qed.

Lemma io_ll_rw_block1_write (bh : buffer_head) :
  always (ll_rw_block1 WRITE bh) (io_within 0 1).
Proof.
  unfold ll_rw_block1. simpl.
  apply io_bind_r; [|intros; noio_auto].
  apply io_bind_r; [apply io_ll_rw_block_one_write | intros; noio_auto].
Qed.

Lemma io_brelse (bh : buffer_head) : always (brelse bh) (io_within 0 1).
Proof.
  unfold brelse. apply io_bind_r; [|intros; noio_auto].
  destruct (negb _); [apply io_ll_rw_block1_write | apply io_of_no_io; noio_auto].
Qed.

Lemma io_release (j : journal_t) (reset : bool) :
  always (e2fsck_journal_release j reset) (io_within 0 1).
Proof.
  unfold e2fsck_journal_release.
  apply io_bind_l; [noio_auto | intros opts].
  apply io_bind_r; [apply io_brelse | intros; noio_auto].
Qed.

Lemma io_reset_super (j : journal_t) :
  always (e2fsck_journal_reset_super j) (io_within 0 1).
Proof.
  unfold e2fsck_journal_reset_super.
  apply io_bind_l; [noio_auto | intros bsize].
  apply io_bind_r; [apply io_ll_rw_block1_write | intros; noio_auto].
Qed.

Lemma io_fix_corrupt_super (j : journal_t) :
  always (e2fsck_journal_fix_corrupt_super j) (io_within 0 1).
Proof.
  unfold e2fsck_journal_fix_corrupt_super.
  apply io_bind_l; [noio_auto | intros sb].
  destruct (has_flag _ _).
  - apply io_bind_l; [noio_auto | intros yes]. destruct yes.
    + apply io_bind_r; [apply io_reset_super | intros; noio_auto].
    + apply io_of_no_io. noio_auto.
  - apply io_of_no_io. noio_auto.
Qed.

Lemma io_load (j : journal_t) : always (e2fsck_journal_load j) (io_within 1 0).
Proof.
  unfold e2fsck_journal_load.
  apply io_bind_r; [apply io_ll_rw_block1_read | intros jbh]. noio_auto.
Qed.

(** C4: between [getblk] and the end of the run, on every path and
    whatever the outcome, [e2fsck_check_ext3_journal] and the recovery
    driver issue at most one physical read and at most one physical write
    for the one buffer they hold, the journal superblock buffer. *)
Theorem core_issues_one_read_one_write :
  forall s : state,
    io_within 1 1 s (final_state (e2fsck_check_ext3_journal s))
    /\ io_within 1 1 s (final_state (recover_ext3_journal s)).
Proof.
  assert (Hcheck : always e2fsck_check_ext3_journal (io_within 1 1)).
  { unfold e2fsck_check_ext3_journal.
    apply io_bind_l; [noio_auto | intros sb].
    destruct (_ && _); [apply io_of_no_io; noio_auto|].
    apply io_bind_l; [noio_auto | intros r].
    destruct r as [e | journal].
    - apply io_of_no_io. destruct e; noio_auto.
    - apply (io_bind 1 0 0 1); [apply io_load | intros [retval j']].
      destruct (is_err retval).
      + destruct retval; try solve [apply io_of_no_io; noio_auto].
        apply io_bind_r; [apply io_fix_corrupt_super | intros [r' j'']; noio_auto].
      + unfold check_journal_flags.
        apply io_bind_l; [noio_auto | intros fuel].
        apply io_bind_l; [noio_auto | intros _].
        apply io_bind_l; [noio_auto | intros sb'].
        apply io_bind_l; [noio_auto | intros reset].
        apply io_bind_r; [apply io_release | intros; noio_auto]. }
  assert (Hrec : always recover_ext3_journal (io_within 1 1)).
  { unfold recover_ext3_journal.
    apply io_bind_l; [noio_auto | intros r].
    destruct r as [e | journal]; [apply io_of_no_io; noio_auto|].
    apply (io_bind 1 0 0 1); [apply io_load | intros [retval j']].
    destruct (is_err retval); [apply io_of_no_io; noio_auto|].
    apply io_bind_l; [noio_auto | intros rv].
    destruct (is_err rv); [apply io_of_no_io; noio_auto|].
    apply io_bind_l; [noio_auto | intros [r j'']].
    apply io_bind_r; [apply io_release | intros; noio_auto]. }
  intros s. split; [apply Hcheck | apply Hrec].
Qed.

(* ----------------------------------------------------------------- *)
(** ** The consistency check, step by step *)

Arguments has_flag : simpl never.
Arguments clear_flag : simpl never.

Lemma has_flag_set (v m : Z) : m <> 0 -> has_flag (Z.lor v m) m = true.
Proof.
  intros Hm. unfold has_flag.
  rewrite Z.land_comm, Z.land_lor_distr_r, Z.land_diag.
  apply negb_true_iff, Z.eqb_neq. intros H.
  apply Z.lor_eq_0_iff in H. tauto.
Qed.

Lemma frame_refl (s : state) : frame s s.
Proof. unfold frame, log_grows. repeat split; auto. Qed.

Lemma frame_trans (s1 s2 s3 : state) : frame s1 s2 -> frame s2 s3 -> frame s1 s3.
Proof.
  unfold frame, log_grows.
  intros (R1 & L1 & V1 & F1 & M1 & B1) (R2 & L2 & V2 & F2 & M2 & B2).
  repeat split; try congruence; auto.
  intros H. destruct (B2 H) as [H'|H']; auto.
  destruct (B1 H') as [H''|H'']; auto.
Qed.

Lemma no_hj_refl (s : state) : no_has_journal_question s s.
Proof. intros a H. exact H. Qed.

Lemma no_hj_trans (s1 s2 s3 : state) :
  no_has_journal_question s1 s2 -> no_has_journal_question s2 s3 ->
  no_has_journal_question s1 s3.
Proof. unfold no_has_journal_question. auto. Qed.

Lemma frame_of_same_ctx (s s' : state) : same_ctx s s' -> frame s s'.
Proof.
  unfold same_ctx, frame, log_grows, readonly, valid_fs, answered, sbof.
  intros (-> & -> & _). repeat split; auto.
Qed.

Lemma no_hj_of_same_ctx (s s' : state) :
  same_ctx s s' -> no_has_journal_question s s'.
Proof.
  unfold same_ctx, no_has_journal_question, answered.
  intros (_ & -> & _). auto.
Qed.

Lemma unchanged_of_same_ctx (s s' : state) : same_ctx s s' -> unchanged s s'.
Proof. unfold same_ctx, unchanged, sbof. intros (-> & _). reflexivity. Qed.

Lemma frame_asked (code : problem_t) (a : bool) (rest : list bool) (s : state) :
  (code = PR_0_JOURNAL_BAD_INODE -> a = true -> valid_fs s = false) ->
  frame s (asked_state code a rest s).
Proof.
  intros Hbad.
  unfold frame, log_grows, readonly, valid_fs, answered, sbof, asked_state.
  cbn. repeat split; auto.
  - intros q Hq. apply in_or_app. now left.
  - intros H. apply in_app_or in H. destruct H as [H|[H|[]]]; auto.
    inversion H; subst. right. now apply Hbad.
Qed.

Lemma frame_asked_other (code : problem_t) (a : bool) (rest : list bool) (s : state) :
  code <> PR_0_JOURNAL_BAD_INODE -> frame s (asked_state code a rest s).
Proof. intros H. apply frame_asked. intros E. contradiction. Qed.

Lemma frame_asked_no (code : problem_t) (rest : list bool) (s : state) :
  frame s (asked_state code false rest s).
Proof. apply frame_asked. discriminate. Qed.

Lemma no_hj_asked (code : problem_t) (a : bool) (rest : list bool) (s : state) :
  code <> PR_0_JOURNAL_HAS_JOURNAL ->
  no_has_journal_question s (asked_state code a rest s).
Proof.
  intros Hc b. unfold answered, asked_state. cbn. intros H.
  apply in_app_or in H. destruct H as [H|[H|[]]]; auto.
  inversion H; subst. contradiction.
Qed.

Lemma wp_fix_problem' (code : problem_t) (Q : bool -> state -> Prop) (s : state) :
  (forall a rest, answers (problems s) = a :: rest ->
                  Q a (asked_state code a rest s)) ->
  wp (fix_problem code) Q s.
Proof. exact (wp_fix_problem code Q s). Qed.

Lemma wp_quiet {A : Type} (m : M A) (Q : A -> state -> Prop) (s : state) :
  always m same_ctx ->
  (forall a s', same_ctx s s' -> Q a s') ->
  wp m Q s.
Proof. intros Hm HQ. eapply always_wp; eauto. Qed.

Ltac run_straight :=
  cbv beta iota zeta delta
    [wp bind ret gets modify printf com_err update_sb get_sb
     e2fsck_clear_recover ext2fs_mark_super_dirty].

(** Facts about a state reached by explicit updates of [s]. *)
Ltac frame_tac :=
  unfold frame, log_grows, readonly, valid_fs, answered, sbof, asked_state;
  cbn;
  repeat split; auto using has_flag_clear_flag;
  try (intros q Hq; apply in_or_app; now left);
  try (intros Hq; apply in_app_or in Hq; destruct Hq as [Hq|[Hq|[]]];
       [now left
       | first [ discriminate
               | inversion Hq; subst; contradiction
               | right; auto using has_flag_clear_flag ] ]).

Ltac no_hj_tac :=
  unfold no_has_journal_question, answered, asked_state; cbn;
  try (intros a Hq; apply in_app_or in Hq; destruct Hq as [Hq|[Hq|[]]];
       [assumption
       | first [discriminate | inversion Hq; subst; contradiction] ]);
  auto.

Lemma fix_bad_inode_sum (s : state) :
  wp e2fsck_journal_fix_bad_inode (fix_bad_inode_summary s) s.
Proof.
  unfold e2fsck_journal_fix_bad_inode.
  apply wp_bind, wp_gets. cbv zeta.
  destruct (_ || _) eqn:E1.
  - apply wp_bind, wp_fix_problem'. intros [|] rest Hans.
    + destruct (_ && _); run_straight; cbn;
        (split; [frame_tac | split; [no_hj_tac|]]); left;
        (split; [reflexivity|]);
        (split; [unfold journal_removed, hasj, recov, valid_fs, sbof; cbn;
                 repeat split; auto using has_flag_clear_flag
                | left; unfold answered, asked_state; cbn;
                  apply in_or_app; right; now left]).
    + run_straight; cbn. split; [frame_tac | split; [no_hj_tac|]].
      right; left. split; reflexivity.
  - apply orb_false_iff in E1. destruct E1 as [Ehj Einum].
    apply negb_false_iff, Z.eqb_eq in Einum.
    destruct (has_flag (s_feature_incompat _) _) eqn:Erec.
    + apply wp_bind, wp_fix_problem'. intros [|] rest Hans.
      * run_straight; cbn. split; [frame_tac | split; [no_hj_tac|]]. left.
        split; [reflexivity|].
        split; [unfold journal_removed, hasj, recov, valid_fs, sbof; cbn;
                repeat split; auto using has_flag_clear_flag
               | right; unfold hasj, recov, sbof; auto].
      * run_straight; cbn. split; [frame_tac | split; [no_hj_tac|]].
        right; left. split; reflexivity.
    + run_straight. split; [apply frame_refl | split; [apply no_hj_refl|]].
      right; right. unfold unchanged, hasj, recov, sbof. auto.
Qed.

Lemma wp_any {A : Type} (m : M A) (Q : A -> state -> Prop) (s : state) :
  (forall a s', Q a s') -> wp m Q s.
Proof. intros H. unfold wp. destruct (m s); auto. Qed.

Lemma wp_conj {A : Type} (m : M A) (P Q : A -> state -> Prop) (s : state) :
  wp m P s -> wp m Q s -> wp m (fun a s' => P a s' /\ Q a s') s.
Proof. unfold wp. destruct (m s); auto. Qed.

Lemma identity_kept_refl (s : state) : identity_kept s s.
Proof.
  unfold identity_kept, unchanged.
  split; [apply frame_refl | split; [apply no_hj_refl | repeat split; auto]].
Qed.

Lemma identity_kept_trans (s1 s2 s3 : state) :
  identity_kept s1 s2 -> identity_kept s2 s3 -> identity_kept s1 s3.
Proof.
  unfold identity_kept, unchanged.
  intros (F1 & N1 & C1 & I1 & J1 & D1 & U1 & K1)
         (F2 & N2 & C2 & I2 & J2 & D2 & U2 & K2).
  split; [eapply frame_trans; eauto|].
  split; [eapply no_hj_trans; eauto|].
  repeat split; try congruence; auto.
  intros Hd Hu. rewrite K2; auto.
Qed.

Lemma identity_kept_same_ctx (s s' : state) : same_ctx s s' -> identity_kept s s'.
Proof.
  intros H. pose proof (unchanged_of_same_ctx _ _ H) as Hu. unfold unchanged in Hu.
  unfold identity_kept, unchanged.
  split; [now apply frame_of_same_ctx|].
  split; [now apply no_hj_of_same_ctx|].
  repeat split; try (rewrite Hu; auto).
Qed.

(** The result of [e2fsck_journal_init_inode]: an error code, or a journal
    whose superblock buffer is fresh. *)
Lemma init_inode_result (ino : Z) (s : state) :
  wp (e2fsck_journal_init_inode ino)
     (fun r _ => match r with
                 | inr j => b_dirty (j_sb_buffer j) = 0
                 | inl e => is_err e = true
                 end) s.
Proof.
  unfold e2fsck_journal_init_inode.
  apply wp_bind, wp_any. intros okj s1.
  destruct (negb okj); [apply wp_ret; reflexivity|].
  apply wp_bind, wp_any. intros oki s2.
  destruct (negb oki).
  { apply wp_bind, wp_any. intros _ s3. apply wp_ret. reflexivity. }
  cbv zeta.
  apply wp_bind, wp_any. intros [retval raw] s3.
  destruct (is_err (int_of_errcode retval)) eqn:Eret.
  { apply wp_bind, wp_any. intros _ s4. apply wp_bind, wp_any. intros _ s5.
    apply wp_ret. exact Eret. }
  apply wp_bind, wp_any. intros bsize s4.
  destruct (_ || _).
  { apply wp_bind, wp_any. intros _ s5. apply wp_bind, wp_any. intros _ s6.
    apply wp_ret. reflexivity. }
  apply wp_bind, wp_any. intros start s5.
  destruct (start =? 0).
  { apply wp_bind, wp_any. intros _ s6. apply wp_bind, wp_any. intros _ s7.
    apply wp_ret. reflexivity. }
  unfold getblk.
  apply wp_bind, wp_bind, wp_any. intros ok s6.
  destruct (negb ok); apply wp_ret.
  - apply wp_bind, wp_any. intros _ s7. apply wp_bind, wp_any. intros _ s8.
    apply wp_ret. reflexivity.
  - apply wp_ret. reflexivity.
Qed.

Lemma init_inode_sum (ino : Z) (s : state) :
  wp (e2fsck_journal_init_inode ino)
     (fun r s' => same_ctx s s'
                  /\ match r with
                     | inr j => b_dirty (j_sb_buffer j) = 0
                     | inl e => is_err e = true
                     end) s.
Proof.
  apply wp_conj.
  - apply wp_quiet; [apply quiet_init_inode | auto].
  - apply init_inode_result.
Qed.

Lemma wp_check_journal_dev (code : problem_t) (k : M (errcode_t + journal_t))
      (Q : errcode_t + journal_t -> state -> Prop) (s : state) :
  code <> PR_0_JOURNAL_BAD_INODE -> code <> PR_0_JOURNAL_HAS_JOURNAL ->
  (forall s', identity_kept s s' -> s_journal_dev (sbof s') = 0 -> wp k Q s') ->
  (forall s', identity_kept s s' -> Q (inl EXT2_ET_UNSUPP_FEATURE) s') ->
  wp (check_journal_dev code k) Q s.
Proof.
  intros Hc1 Hc2 Hk Herr. unfold check_journal_dev.
  apply wp_bind, wp_gets.
  destruct (negb _) eqn:Edev.
  - apply wp_bind, wp_fix_problem'. intros [|] rest Hans; cbn [negb].
    + run_straight; cbn. apply Hk; [|reflexivity].
      apply negb_true_iff, Z.eqb_neq in Edev.
      unfold identity_kept, unchanged.
      split; [frame_tac | split; [no_hj_tac|]].
      unfold sbof; cbn. splits; auto. intros H. contradiction.
    + apply wp_ret. apply Herr.
      unfold identity_kept, unchanged.
      split; [frame_tac | split; [no_hj_tac|]].
      unfold sbof; cbn. splits; auto.
  - apply negb_false_iff, Z.eqb_eq in Edev.
    apply Hk; [apply identity_kept_refl | exact Edev].
Qed.

Lemma wp_check_journal_uuid (code : problem_t) (k : M (errcode_t + journal_t))
      (Q : errcode_t + journal_t -> state -> Prop) (s : state) :
  code <> PR_0_JOURNAL_BAD_INODE -> code <> PR_0_JOURNAL_HAS_JOURNAL ->
  (forall s', identity_kept s s' ->
              uuid_is_null (s_journal_uuid (sbof s')) = true -> wp k Q s') ->
  (forall s', identity_kept s s' -> Q (inl EXT2_ET_UNSUPP_FEATURE) s') ->
  wp (check_journal_uuid code k) Q s.
Proof.
  intros Hc1 Hc2 Hk Herr. unfold check_journal_uuid.
  apply wp_bind, wp_gets.
  destruct (negb _) eqn:Eu.
  - apply wp_bind, wp_fix_problem'. intros [|] rest Hans; cbn [negb].
    + run_straight; cbn. apply Hk; [|reflexivity].
      apply negb_true_iff in Eu. fold (sbof s) in Eu.
      unfold identity_kept, unchanged.
      split; [frame_tac | split; [no_hj_tac|]].
      unfold sbof; cbn. splits; auto.
      intros _ H. unfold sbof in Eu. congruence.
    + apply wp_ret. apply Herr.
      unfold identity_kept, unchanged.
      split; [frame_tac | split; [no_hj_tac|]].
      unfold sbof; cbn. splits; auto.
  - apply negb_false_iff in Eu.
    apply Hk; [apply identity_kept_refl | exact Eu].
Qed.

Lemma get_journal_sum (s : state) :
  wp e2fsck_get_journal (get_journal_summary s) s.
Proof.
  assert (Hrest : forall s1,
             identity_kept s s1 ->
             (hasj s = true -> s_journal_inum (sbof s) <> 0) ->
             wp (check_journal_dev PR_0_JOURNAL_BAD_DEV
                  (check_journal_uuid PR_0_JOURNAL_BAD_UUID
                     (sb <- get_sb ;;
                      e2fsck_journal_init_inode (s_journal_inum sb))))
                (get_journal_summary s) s1).
  { intros s1 H1 Hinum.
    apply wp_check_journal_dev; try discriminate.
    - intros s2 H2 Hdev.
      apply wp_check_journal_uuid; try discriminate.
      + intros s3 H3 Hu.
        apply wp_bind, wp_gets.
        eapply wp_mono; [apply init_inode_sum|].
        intros r s4 [Hq Hr]. split.
        * eauto using identity_kept_trans, identity_kept_same_ctx.
        * destruct r as [e|j]; [exact Hr|].
          pose proof (unchanged_of_same_ctx _ _ Hq) as Hsame.
          unfold unchanged in Hsame. rewrite Hsame.
          destruct H3 as (_ & _ & _ & _ & _ & Hd3 & _).
          splits; auto.
      + intros s3 H3. split; [|reflexivity].
        eauto using identity_kept_trans.
    - intros s2 H2. split; [|reflexivity]. eauto using identity_kept_trans. }
  unfold e2fsck_get_journal. cbv zeta.
  apply wp_bind, wp_gets.
  destruct (has_flag _ _) eqn:Ehj.
  - apply wp_check_journal_dev; try discriminate.
    + intros s1 H1 Hdev.
      apply wp_check_journal_uuid; try discriminate.
      * intros s2 H2 Hu.
        apply wp_bind, wp_gets.
        destruct (_ =? 0) eqn:Einum.
        -- apply wp_ret. split; [|reflexivity]. eauto using identity_kept_trans.
        -- apply Hrest; [eauto using identity_kept_trans|].
           intros _. apply Z.eqb_neq in Einum.
           pose proof (identity_kept_trans _ _ _ H1 H2) as H12.
           destruct H12 as (_ & _ & _ & _ & Hi & _).
           fold (sbof s2) in Einum. congruence.
      * intros s2 H2. split; [|reflexivity]. eauto using identity_kept_trans.
    + intros s1 H1. split; [|reflexivity]. exact H1.
  - apply Hrest; [apply identity_kept_refl|].
    unfold hasj, sbof. congruence.
Qed.

Lemma same_ctx_views (s s' : state) :
  same_ctx s s' ->
  sbof s' = sbof s /\ hasj s' = hasj s /\ recov s' = recov s
  /\ valid_fs s' = valid_fs s /\ readonly s' = readonly s
  /\ asked (problems s') = asked (problems s).
Proof.
  unfold same_ctx, sbof, hasj, recov, valid_fs, readonly, sbof.
  intros (-> & -> & _). splits; reflexivity.
Qed.

Lemma load_summary_quiet (s s' : state) (r : errcode_t) :
  same_ctx s s' -> load_summary s r s'.
Proof.
  intros H. unfold load_summary.
  split; [now apply frame_of_same_ctx|].
  split; [now apply no_hj_of_same_ctx|].
  left. now apply unchanged_of_same_ctx.
Qed.

Lemma load_summary_repair (s s1 s2 : state) (r : errcode_t) :
  same_ctx s s1 -> fix_bad_inode_summary s1 r s2 -> load_summary s r s2.
Proof.
  intros Hq (Hf & Hn & Hcases).
  destruct (same_ctx_views _ _ Hq) as (Hsb & Hhj & Hrec & Hv & Hro & Hlog).
  unfold load_summary.
  split; [eapply frame_trans; [apply frame_of_same_ctx|]; eauto|].
  split; [eapply no_hj_trans; [apply no_hj_of_same_ctx|]; eauto|].
  destruct Hcases as [(Hr & Hrem & Hcause) | [(_ & Hu) | (_ & Hu & _)]].
  - right. split; [exact Hr|]. split.
    + unfold journal_removed in *. rewrite Hsb in Hrem. exact Hrem.
    + unfold removal_cause in *. rewrite Hsb, Hhj, Hrec in Hcause. exact Hcause.
  - left. unfold unchanged in *. congruence.
  - left. unfold unchanged in *. congruence.
Qed.

Lemma ll_rw_block_one_keeps_dirty (bh : buffer_head) (s : state) :
  wp (ll_rw_block_one READ bh) (fun bh' _ => b_dirty bh' = b_dirty bh) s.
Proof.
  unfold ll_rw_block_one. cbn [Z.eqb READ WRITE andb].
  destruct (b_uptodate bh =? 0).
  - apply wp_bind, wp_any. intros [retval data] s1.
    destruct (is_err (int_of_errcode retval)).
    + apply wp_bind, wp_any. intros dev s2. apply wp_bind, wp_any. intros _ s3.
      apply wp_ret. reflexivity.
    + apply wp_ret. reflexivity.
  - apply wp_ret. reflexivity.
Qed.

Lemma ll_rw_block1_read_sum (bh : buffer_head) (s : state) :
  wp (ll_rw_block1 READ bh)
     (fun bh' s' => same_ctx s s' /\ b_dirty bh' = b_dirty bh) s.
Proof.
  apply wp_conj.
  - apply wp_quiet; [apply quiet_ll_rw_block1 | auto].
  - unfold ll_rw_block1. simpl.
    apply wp_bind, wp_bind.
    eapply wp_mono; [apply ll_rw_block_one_keeps_dirty|].
    intros bh' s1 Hd. apply wp_bind, wp_ret, wp_ret, wp_ret. exact Hd.
Qed.

Lemma load_sum (j : journal_t) (s : state) :
  wp (e2fsck_journal_load j)
     (fun rj s' => load_summary s (fst rj) s'
                   /\ b_dirty (j_sb_buffer (snd rj)) = b_dirty (j_sb_buffer j)) s.
Proof.
  unfold e2fsck_journal_load.
  apply wp_bind. eapply wp_mono; [apply ll_rw_block1_read_sum|].
  intros jbh s1 [Hq Hd]. cbv zeta.
  apply wp_bind, wp_gets. apply wp_bind, wp_gets.
  assert (Hquiet : forall (m : M unit) r j',
             always m same_ctx ->
             b_dirty (j_sb_buffer j') = b_dirty (j_sb_buffer j) ->
             wp (m ;; ret (r, j'))
                (fun rj s' => load_summary s (fst rj) s'
                   /\ b_dirty (j_sb_buffer (snd rj)) = b_dirty (j_sb_buffer j)) s1).
  { intros m r j' Hm Hj. apply wp_bind, wp_quiet; [exact Hm|].
    intros _ s2 Hq2. apply wp_ret. split; [|exact Hj].
    apply load_summary_quiet. eauto using same_ctx_trans. }
  destruct (is_err (b_err jbh)); [apply Hquiet; auto with quiet|].
  destruct (negb _).
  { apply wp_bind. eapply wp_mono; [apply fix_bad_inode_sum|].
    intros r s2 Hsum. apply wp_ret. split; [|exact Hd].
    eapply load_summary_repair; eauto. }
  destruct (jsb_version _) as [v|]; [|apply Hquiet; auto with quiet].
  destruct (JFS_HAS_FEATURE _ _ _); [apply Hquiet; auto with quiet|].
  destruct (JFS_HAS_FEATURE _ _ _); [apply Hquiet; auto with quiet|].
  destruct (negb _); [apply Hquiet; auto with quiet|].
  destruct (_ <? _).
  { apply wp_ret. split; [|exact Hd]. now apply load_summary_quiet. }
  destruct (_ <? _); [apply Hquiet; auto with quiet|].
  apply wp_ret. split; [|exact Hd]. now apply load_summary_quiet.
Qed.

Ltac log_tac :=
  unfold answered, log_grows, no_has_journal_question, asked_state in *;
  cbn in *; intros; rewrite ?in_app_iff in *; cbn [In] in *;
  intuition (try discriminate; try congruence; auto).

Lemma clear_recover_sum (error : bool) (s : state) :
  wp (e2fsck_clear_recover error) (fun _ s' => clear_recover_summary error s s') s.
Proof.
  unfold clear_recover_summary.
  destruct error; run_straight; cbn;
    (split; [frame_tac|]);
    unfold recov, sbof; cbn; splits; auto using has_flag_clear_flag.
Qed.

Lemma no_hj_of_problems (s s' : state) :
  problems s' = problems s -> no_has_journal_question s s'.
Proof. unfold no_has_journal_question, answered. intros ->. auto. Qed.

Lemma fix_corrupt_super_sum (j : journal_t) (s : state) :
  wp (e2fsck_journal_fix_corrupt_super j)
     (fun rj s' => fix_corrupt_super_summary s (fst rj) s') s.
Proof.
  unfold e2fsck_journal_fix_corrupt_super.
  apply wp_bind, wp_gets. cbv zeta.
  destruct (has_flag (s_feature_compat _) _) eqn:Ehj.
  - apply wp_bind, wp_fix_problem'. intros [|] rest Hans.
    + apply wp_bind, wp_quiet; [apply quiet_reset_super|].
      intros j' s2 Hq. cbv zeta.
      apply wp_bind. eapply wp_mono; [apply clear_recover_sum|].
      intros _ s3 (Hf & Hp & Hrec & Hc & Hi & Hd & Hu & Hst).
      apply wp_ret. cbn [fst].
      destruct (same_ctx_views _ _ Hq) as (Hsb & _).
      unfold fix_corrupt_super_summary.
      split; [|split].
      * eapply (frame_trans _ (asked_state PR_0_JOURNAL_BAD_SUPER true rest s));
          [apply frame_asked_other; discriminate|].
        eapply frame_trans; [apply frame_of_same_ctx; eassumption | exact Hf].
      * eapply (no_hj_trans _ (asked_state PR_0_JOURNAL_BAD_SUPER true rest s));
          [apply no_hj_asked; discriminate|].
        eapply no_hj_trans; [apply no_hj_of_same_ctx; eassumption|].
        now apply no_hj_of_problems.
      * right; left. rewrite Hc, Hi, Hd, Hu, Hsb.
        unfold hasj, sbof, asked_state. cbn. splits; auto.
    + apply wp_ret. cbn [fst]. unfold fix_corrupt_super_summary.
      split; [apply frame_asked_no|].
      split; [apply no_hj_asked; discriminate|]. now left.
  - apply wp_bind. eapply wp_mono; [apply fix_bad_inode_sum|].
    intros r s2 (Hf & Hn & Hcases).
    unfold fix_corrupt_super_summary.
    destruct (is_err r) eqn:Er; apply wp_ret; cbn [fst];
      (split; [exact Hf | split; [exact Hn|]]); [now left|].
    right; right.
    destruct Hcases as [(Hr & Hrem & _) | [(Herr & _) | (_ & Hu & Hhj & _ & Hrec)]].
    + unfold journal_removed in Hrem. unfold hasj, sbof. tauto.
    + congruence.
    + unfold unchanged in Hu. unfold hasj, recov in *. rewrite Hu.
      unfold sbof in *. splits; auto.
Qed.

Ltac frame_tac2 :=
  unfold frame; splits;
  [ unfold readonly; cbn; reflexivity
  | log_tac
  | unfold sbof; cbn; reflexivity
  | unfold sbof; cbn; reflexivity
  | unfold valid_fs, sbof; cbn; intros;
    repeat match goal with
           | |- context [if ?c then _ else _] => destruct c
           end; auto using has_flag_clear_flag
  | log_tac ].

Lemma no_has_journal_sum (fuel : nat) :
  forall s, wp (no_has_journal fuel) (fun _ s' => no_has_journal_summary s s') s.
Proof.
  induction fuel as [|fuel IH]; intros s.
  { unfold wp. cbn. exact Logic.I. }
  cbn [no_has_journal]. apply wp_bind, wp_gets.
  destruct (negb _) eqn:Ehj.
  2: { apply wp_ret. apply negb_false_iff in Ehj.
       split; [apply frame_refl|]. left. unfold unchanged. auto. }
  apply negb_true_iff in Ehj. cbv zeta.
  apply wp_bind, wp_fix_problem'. intros [|] rest Hans.
  - apply wp_bind.
    destruct (has_flag (s_feature_incompat _) _) eqn:Erec.
    + apply wp_bind, wp_fix_problem'. intros [|] rest' Hans'; apply wp_ret;
        cbn [negb].
      * run_straight; cbn. split; [frame_tac2|]. right.
        split; [exact Ehj|]. left. unfold agreed. splits.
        -- exact Ehj.
        -- apply has_flag_clear_flag.
        -- log_tac.
        -- log_tac.
        -- unfold recov, sbof. cbn. rewrite Erec. reflexivity.
      * eapply wp_mono; [apply IH|]. intros _ s' (Hf & Hcases).
        set (s2 := asked_state PR_0_JOURNAL_RECOVER_SET false rest'
                     (asked_state PR_0_JOURNAL_HAS_JOURNAL true rest s)) in *.
        assert (Hf2 : frame s s2) by (subst s2; frame_tac2).
        split; [eapply frame_trans; eauto|]. right. split; [exact Ehj|].
        destruct Hcases as [(Hhj & _) | (_ & [Ha | [Hd | Hd]])].
        -- unfold hasj, sbof in Hhj. subst s2. cbn in Hhj. congruence.
        -- left. unfold agreed in *.
           destruct Ha as (A1 & A2 & A3 & A4 & A5). splits; auto.
           intros H. apply A4 in H. subst s2. revert H. clear. log_tac.
        -- right; left. exact Hd.
        -- right; right. exact Hd.
    + apply wp_ret. cbn [orb].
      destruct (_ <? _) eqn:Elt; run_straight; cbn;
        (split; [frame_tac2|]); right;
        (split; [exact Ehj|]); left; unfold agreed; splits;
        try exact Ehj; try apply has_flag_clear_flag; try solve [log_tac];
        unfold recov, sbof; cbn; rewrite Erec, Elt; reflexivity.
  - apply wp_bind, wp_gets.
    destruct (negb _) eqn:Ero.
    + apply negb_true_iff in Ero. run_straight; cbn. split; [frame_tac2|].
      right. split; [exact Ehj|]. right; left. unfold declined_writable.
      splits; auto.
      * log_tac.
      * apply has_flag_set. discriminate.
    + apply negb_false_iff in Ero. apply wp_ret. split; [frame_tac2|].
      right. split; [exact Ehj|]. right; right. unfold declined_readonly.
      splits; auto.
      * log_tac.
      * reflexivity.
Qed.

Lemma frame_log (s s' : state) (q : problem_t * bool) :
  frame s s' -> In q (asked (problems s)) -> In q (asked (problems s')).
Proof. intros (_ & L & _) H. now apply L. Qed.

Lemma flags_summary_step (s s3 s4 : state) :
  no_has_journal_summary s s3 -> reset_step s3 s4 -> flags_summary s s4.
Proof.
  intros (Hf & Hcases) [-> | (Hhj3 & Hf34 & Hn34 & Hc & Hi & Hn & Hd & Hu)].
  - split; [exact Hf|].
    destruct Hcases as [(Hhj & Hun & Hp) | (Hhj & Hrest)].
    + left. unfold unchanged in Hun. rewrite Hun.
      splits; auto using no_hj_of_problems.
    + right. auto.
  - split; [eapply frame_trans; eauto|].
    destruct Hcases as [(Hhj & Hun & Hp) | (Hhj & [Ha | [Hw | Hr]])].
    + left. unfold unchanged in Hun. rewrite <- Hun.
      splits; auto.
      eapply no_hj_trans; [apply no_hj_of_problems; eassumption | exact Hn34].
    + destruct Ha as (A1 & _). congruence.
    + right. split; [exact Hhj|]. right; left.
      destruct Hw as (W1 & W2 & W3 & W4 & W5 & W6 & W7).
      unfold declined_writable, answered, hasj in *.
      splits; try congruence.
      * eapply frame_log; eauto.
    + destruct Hr as (_ & _ & Hun). unfold unchanged in Hun.
      unfold hasj in *. rewrite Hun in Hhj3. congruence.
Qed.

Lemma flags_summary_quiet (s s4 s5 : state) :
  flags_summary s s4 -> same_ctx s4 s5 -> flags_summary s s5.
Proof.
  intros (Hf & Hcases) Hq.
  destruct (same_ctx_views _ _ Hq) as (Hsb & Hhj & Hrec & Hv & Hro & Hlog).
  split; [eapply frame_trans; [exact Hf | now apply frame_of_same_ctx]|].
  unfold agreed, declined_writable, declined_readonly, unchanged,
    no_has_journal_question, answered in *.
  rewrite Hsb, Hhj, Hrec, Hlog. exact Hcases.
Qed.

Lemma check_journal_flags_sum (j : journal_t) (r : errcode_t) (s : state) :
  wp (check_journal_flags j r) (fun r' s' => r' = r /\ flags_summary s s') s.
Proof.
  unfold check_journal_flags.
  apply wp_bind, wp_gets.
  apply wp_bind. eapply wp_mono; [apply no_has_journal_sum|].
  intros u s3 Hloop. cbv beta in Hloop.
  assert (Hend : forall reset s4,
             reset_step s3 s4 ->
             wp (e2fsck_journal_release j reset ;; ret r)
                (fun r' s' => r' = r /\ flags_summary s s') s4).
  { intros reset s4 Hstep.
    apply wp_bind, wp_quiet; [apply quiet_release|].
    intros _ s5 Hq. apply wp_ret. split; [reflexivity|].
    eapply flags_summary_quiet; [|exact Hq].
    eapply flags_summary_step; eauto. }
  apply wp_bind, wp_gets. apply wp_bind.
  destruct (_ && _) eqn:Econd.
  - apply andb_true_iff in Econd. destruct Econd as [Econd _].
    apply andb_true_iff in Econd. destruct Econd as [Ehj _].
    apply wp_bind, wp_fix_problem'. intros [|] rest Hans.
    + unfold update_sb, ext2fs_mark_super_dirty.
      apply wp_bind, wp_modify. apply wp_bind, wp_modify. apply wp_ret.
      apply Hend. right.
      split; [exact Ehj|]. split; [frame_tac2|]. split; [log_tac|].
      unfold sbof; cbn. splits; reflexivity.
    + apply wp_ret. apply Hend. right.
      split; [exact Ehj|]. split; [frame_tac2|]. split; [log_tac|].
      unfold sbof; cbn. splits; reflexivity.
  - apply wp_ret. apply Hend. now left.
Qed.

(* ----------------------------------------------------------------- *)
(** ** The consistency check, as a whole *)

Lemma frame_bad_inode (s s' : state) :
  frame s s' -> asked (problems s) = [] ->
  answered PR_0_JOURNAL_BAD_INODE true s' -> valid_fs s' = false.
Proof.
  intros (_ & _ & _ & _ & _ & B) Hlog H.
  destruct (B H) as [H'|H']; [|exact H'].
  unfold answered in H'. rewrite Hlog in H'. destruct H'.
Qed.

Lemma no_hj_empty (s s' : state) (a : bool) :
  no_has_journal_question s s' -> asked (problems s) = [] ->
  ~ answered PR_0_JOURNAL_HAS_JOURNAL a s'.
Proof.
  intros N Hlog H. apply N in H. unfold answered in H.
  rewrite Hlog in H. destruct H.
Qed.

Lemma force_fsck_rule_no_question (s s' : state) :
  frame s s' -> no_has_journal_question s s' -> asked (problems s) = [] ->
  force_fsck_rule s s'.
Proof.
  intros F N Hlog. split.
  - exact (frame_bad_inode s s' F Hlog).
  - intros H. exfalso. eapply no_hj_empty; eauto.
Qed.

Lemma consistent_when_clear (s s' : state) :
  hasj s' = false -> recov s' = false -> journal_fields_consistent s s'.
Proof.
  intros Hhj Hrec. split; intros H; [congruence|]. intros H'. congruence.
Qed.

Lemma frame_first_inode (s s' : state) :
  frame s s' -> EXT2_FIRST_INODE (sbof s') = EXT2_FIRST_INODE (sbof s).
Proof.
  intros (_ & _ & Hr & Hf & _). unfold EXT2_FIRST_INODE. now rewrite Hr, Hf.
Qed.

Lemma frame_readonly (s s' : state) : frame s s' -> readonly s' = readonly s.
Proof. intros (H & _). exact H. Qed.

Lemma frame_valid (s s' : state) :
  frame s s' -> valid_fs s = false -> valid_fs s' = false.
Proof. intros (_ & _ & _ & _ & H & _). exact H. Qed.

(** After a load that did not fail, the superblock is the one
    [e2fsck_get_journal] left, or the journal has been removed in it. *)
Lemma loaded_device_uuid (s1 s2 : state) (r : errcode_t) :
  load_summary s1 r s2 ->
  s_journal_dev (sbof s2) = s_journal_dev (sbof s1)
  /\ s_journal_uuid (sbof s2) = s_journal_uuid (sbof s1).
Proof.
  intros (_ & _ & [Hu | (_ & Hrem & _)]).
  - unfold unchanged in Hu. now rewrite Hu.
  - unfold journal_removed in Hrem. tauto.
Qed.

Lemma tail_consistent (s s1 s2 s5 : state) (r2 : errcode_t) :
  identity_kept s s1 ->
  s_journal_dev (sbof s1) = 0 ->
  uuid_is_null (s_journal_uuid (sbof s1)) = true ->
  (hasj s = true -> s_journal_inum (sbof s) <> 0) ->
  load_summary s1 r2 s2 ->
  flags_summary s2 s5 ->
  journal_fields_consistent s s5.
Proof.
  intros (F01 & N01 & C01 & I01 & J01 & D01 & U01 & K01) Hdev1 Hu1 Hin
         Hload (F25 & T).
  destruct (loaded_device_uuid _ _ _ Hload) as (Hd12 & Hu12).
  destruct Hload as (F12 & N12 & L).
  assert (Hhj01 : hasj s1 = hasj s) by (unfold hasj; now rewrite C01).
  split.
  - intros H5.
    destruct T as [(Hhj2 & N25 & C25 & I25 & J25 & D25 & U25)
                  | (Hhj2 & [Ha | [Hw | Hr]])].
    + destruct L as [Hun | (_ & Hrem & _)];
        [|destruct Hrem as (Hrem & _); congruence].
      unfold unchanged in Hun.
      assert (Hhj12 : hasj s2 = hasj s1) by (unfold hasj; now rewrite Hun).
      splits; try congruence.
      intros _ _. rewrite J25, Hun, J01. apply Hin. congruence.
    + destruct Ha as (A1 & _). congruence.
    + destruct Hw as (_ & _ & _ & _ & W5 & W6 & W7).
      splits; try congruence.
      intros Hpre Hnb. rewrite W5.
      destruct L as [Hun | (_ & Hrem & Hcause)].
      * unfold unchanged in Hun.
        assert (Hhj12 : hasj s2 = hasj s1) by (unfold hasj; now rewrite Hun).
        rewrite Hun, J01.
        destruct Hpre as [Hpre|Hpre]; [congruence | exact Hpre].
      * exfalso. destruct Hcause as [Hb | (Hc1 & Hc2 & _)].
        -- apply Hnb. exact (frame_log s2 s5 _ F25 Hb).
        -- destruct Hpre as [Hpre|Hpre]; congruence.
    + destruct Hr as (_ & _ & Hun). unfold unchanged in Hun.
      unfold hasj in *. rewrite Hun in H5. congruence.
  - intros H5 R5.
    destruct T as [(Hhj2 & N25 & C25 & I25 & J25 & D25 & U25)
                  | (Hhj2 & [Ha | [Hw | Hr]])].
    + unfold hasj in *. rewrite C25 in H5. congruence.
    + destruct Ha as (_ & A2 & _). congruence.
    + destruct Hw as (_ & _ & W3 & _). congruence.
    + destruct Hr as (R1 & R2 & _). split; [|exact R2].
      rewrite <- (frame_readonly _ _ F01), <- (frame_readonly _ _ F12).
      exact R1.
Qed.

Lemma tail_force_fsck (s s1 s2 s5 : state) (r2 : errcode_t) :
  asked (problems s) = [] ->
  identity_kept s s1 ->
  load_summary s1 r2 s2 ->
  flags_summary s2 s5 ->
  force_fsck_rule s s5.
Proof.
  intros Hlog (F01 & N01 & C01 & I01 & J01 & D01 & U01 & K01)
         (F12 & N12 & L) (F25 & T).
  assert (F05 : frame s s5) by eauto using frame_trans.
  assert (N02 : no_has_journal_question s s2) by eauto using no_hj_trans.
  split; [exact (frame_bad_inode s s5 F05 Hlog)|].
  intros Hyes Hno.
  destruct T as [(Hhj2 & N25 & _) | (Hhj2 & [Ha | [Hw | Hr]])].
  - exfalso. eapply (no_hj_empty s s5 true); eauto using no_hj_trans.
  - destruct Ha as (A1 & A2 & A3 & A4 & A5).
    split; [exact A1|]. split.
    + intros Hforce.
      destruct L as [Hun | (_ & Hrem & _)].
      * unfold unchanged in Hun.
        assert (Hforce2 : recov s2 || (s_journal_inum (sbof s2)
                                       <? EXT2_FIRST_INODE (sbof s2)) = true).
        { rewrite (frame_first_inode _ _ F12), (frame_first_inode _ _ F01).
          unfold recov. rewrite Hun, I01, J01. fold (recov s).
          destruct Hforce as [-> | Hlt]; [reflexivity|].
          apply orb_true_iff. right. now apply Z.ltb_lt. }
        rewrite Hforce2 in A5. unfold valid_fs. rewrite A5.
        apply has_flag_clear_flag.
      * destruct Hrem as (_ & _ & Hv & _).
        exact (frame_valid s2 s5 F25 Hv).
    + intros Hrec Hge Hdev Hu Hnb.
      assert (Hun01 : sbof s1 = sbof s) by (apply K01; assumption).
      assert (Hun12 : sbof s2 = sbof s1).
      { destruct L as [Hun | (_ & _ & [Hb | (_ & _ & Hr1)])]; [exact Hun | |].
        - exfalso. apply Hnb. exact (frame_log s2 s5 _ F25 Hb).
        - unfold recov in *. rewrite Hun01 in Hr1. congruence. }
      assert (Hforce2 : recov s2 || (s_journal_inum (sbof s2)
                                     <? EXT2_FIRST_INODE (sbof s2)) = false).
      { unfold recov. rewrite Hun12, Hun01. fold (recov s). rewrite Hrec.
        apply Z.ltb_ge. exact Hge. }
      rewrite Hforce2 in A5. congruence.
  - exfalso. apply Hno. destruct Hw as (_ & W2 & _). exact W2.
  - exfalso. apply Hno. destruct Hr as (_ & R2 & _). exact R2.
Qed.

Lemma check_sum (s : state) :
  asked (problems s) = [] ->
  wp e2fsck_check_ext3_journal
     (fun r s' => (is_err r = false -> journal_fields_consistent s s')
                  /\ force_fsck_rule s s') s.
Proof.
  intros Hlog. unfold e2fsck_check_ext3_journal.
  apply wp_bind, wp_gets. cbv zeta.
  destruct (_ && _) eqn:Econd.
  { apply wp_ret. split.
    - intros _.
      repeat (apply andb_true_iff in Econd; destruct Econd as [Econd ?]).
      apply consistent_when_clear.
      + now apply negb_true_iff in Econd.
      + match goal with H : negb _ = true |- _ => now apply negb_true_iff in H end.
    - apply force_fsck_rule_no_question;
        auto using frame_refl, no_hj_refl. }
  apply wp_bind. eapply wp_mono; [apply get_journal_sum|].
  intros r s1 (Hid & Hr).
  assert (F01 : frame s s1) by apply Hid.
  assert (N01 : no_has_journal_question s s1) by apply Hid.
  destruct r as [e | j].
  - assert (Hother : wp (ret e)
              (fun r s' => (is_err r = false -> journal_fields_consistent s s')
                           /\ force_fsck_rule s s') s1).
    { apply wp_ret. split; [congruence|].
      now apply force_fsck_rule_no_question. }
    destruct e; try exact Hother.
    eapply wp_mono; [apply fix_bad_inode_sum|].
    intros r2 s2 (F12 & N12 & Hcases). split.
    + intros Hok.
      destruct Hcases as [(_ & Hrem & _) | [(Herr & _) | (_ & Hun & Hhj & _ & Hrec)]].
      * destruct Hrem as (R1 & R2 & _). now apply consistent_when_clear.
      * congruence.
      * unfold unchanged in Hun. unfold hasj, recov in *.
        apply consistent_when_clear; unfold hasj, recov; now rewrite Hun.
    + apply force_fsck_rule_no_question;
        eauto using frame_trans, no_hj_trans.
  - destruct Hr as (Hdev1 & Hu1 & Hin & Hdirty).
    apply wp_bind. eapply wp_mono; [apply load_sum|].
    intros [r2 j2] s2 (Hload & _). cbn [fst snd] in Hload.
    assert (F12 : frame s1 s2) by apply Hload.
    assert (N12 : no_has_journal_question s1 s2) by apply Hload.
    destruct (is_err r2) eqn:Er2.
    + assert (Hother : wp (ret r2)
                (fun r s' => (is_err r = false -> journal_fields_consistent s s')
                             /\ force_fsck_rule s s') s2).
      { apply wp_ret. split; [congruence|].
        apply force_fsck_rule_no_question;
          eauto using frame_trans, no_hj_trans. }
      destruct r2; try exact Hother.
      apply wp_bind. eapply wp_mono; [apply fix_corrupt_super_sum|].
      intros [r3 j3] s3 (F23 & N23 & Hcases). cbn [fst] in Hcases.
      apply wp_ret. split.
      * intros Hok.
        destruct Hcases as [Herr | [(_ & Hhj2 & C23 & J23 & D23 & U23)
                                   | (_ & _ & Hhj3 & Hrec3)]].
        -- congruence.
        -- destruct Hload as (_ & _ & [Hun | (Hr & _)]); [|discriminate].
           unfold unchanged in Hun.
           destruct Hid as (_ & _ & C01 & _ & J01 & _).
           assert (Hhj : hasj s = true).
           { unfold hasj in *. rewrite <- C01, <- Hun. exact Hhj2. }
           split.
           ++ intros _. splits; try congruence.
              intros _ _. rewrite J23, Hun, J01. now apply Hin.
           ++ intros H. unfold hasj in *. rewrite C23 in H. congruence.
        -- now apply consistent_when_clear.
      * apply force_fsck_rule_no_question;
          eauto using frame_trans, no_hj_trans.
    + eapply wp_mono; [apply check_journal_flags_sum|].
      intros r' s5 (-> & Hflags). split.
      * intros _. eapply tail_consistent; eauto.
      * eapply tail_force_fsck; eauto.
Qed.

(** C8, amended: whenever [e2fsck_check_ext3_journal] returns, a bad-inode
    repair accepted on the way has cleared the valid bit, whatever the
    recovery flag and the journal inode number were; and a run that ended
    in agreement on [PR_0_JOURNAL_HAS_JOURNAL] leaves the has-journal
    feature clear, with the valid bit cleared when recovery was pending or
    the journal inode number was below the first non-reserved inode
    number, and with [s_state] as on entry when neither was the case and
    no other repair was made. *)
Theorem check_journal_force_fsck_rule :
  forall (s s' : state) (r : errcode_t),
    asked (problems s) = [] ->
    e2fsck_check_ext3_journal s = Done r s' ->
    force_fsck_rule s s'.
Proof.
  intros s s' r Hlog Hrun.
  exact (proj2 (wp_Done _ _ _ _ _ (check_sum s Hlog) Hrun)).
Qed.

(** The fuel of [no_has_journal] never runs out when it exceeds the number
    of pending answers: any two such fuels give the same run. *)
Lemma no_has_journal_fuel (fuel1 : nat) :
  forall (fuel2 : nat) (s : state),
    (List.length (answers (problems s)) < fuel1)%nat ->
    (List.length (answers (problems s)) < fuel2)%nat ->
    no_has_journal fuel1 s = no_has_journal fuel2 s.
Proof.
  induction fuel1 as [|fuel1 IH]; intros fuel2 s H1 H2; [lia|].
  destruct fuel2 as [|fuel2]; [lia|].
  cbn [no_has_journal]. unfold bind, get_sb, gets, fix_problem.
  destruct (negb _); [|reflexivity].
  destruct (answers (problems s)) as [|a rest] eqn:Ea; [reflexivity|].
  destruct a; [|reflexivity].
  destruct (has_flag (s_feature_incompat _) _); [|reflexivity].
  cbn. destruct rest as [|b rest']; [reflexivity|].
  destruct b; cbn; [reflexivity|].
  apply IH; cbn in *; lia.
Qed.

(* ----------------------------------------------------------------- *)
(** ** A journal superblock without the magic *)

(** C2, amended: when the journal superblock is read without error and
    its first four bytes are not the journal magic, [e2fsck_journal_load]
    returns what [e2fsck_journal_fix_bad_inode] returns.  With the
    has-journal feature or a journal inode number in the superblock, the
    user is asked [PR_0_JOURNAL_BAD_INODE]: declined, the load returns
    [EXT2_ET_BAD_INODE_NUM] and the filesystem superblock is as it was;
    accepted, the load returns 0 and the feature, the inode number, the
    recovery flag and the valid bit are cleared. *)
Theorem load_bad_magic_runs_bad_inode_repair :
  forall (j : journal_t) (s s1 : state) (jbh : buffer_head),
    ll_rw_block1 READ (j_sb_buffer j) s = Done jbh s1 ->
    is_err (b_err jbh) = false ->
    get_be32 off_h_magic (b_data jbh) <> JFS_MAGIC_NUMBER ->
    e2fsck_journal_load j s =
      (r <- e2fsck_journal_fix_bad_inode ;; ret (r, set_j_sb_buffer jbh j)) s1
    /\ ((hasj s = true \/ s_journal_inum (sbof s) <> 0) ->
        forall (a : bool) (rest : list bool),
          answers (problems s) = a :: rest ->
          exists s' : state,
            e2fsck_journal_load j s =
              Done (if a then OK else EXT2_ET_BAD_INODE_NUM,
                    set_j_sb_buffer jbh j) s'
            /\ asked (problems s') =
                 asked (problems s) ++ [(PR_0_JOURNAL_BAD_INODE, a)]
            /\ if a
               then hasj s' = false /\ s_journal_inum (sbof s') = 0
                    /\ recov s' = false /\ valid_fs s' = false
               else ctx s' = ctx s).
Proof.
  intros j s s1 jbh Hread Herr Hmagic.
  assert (Hload : e2fsck_journal_load j s =
            (r <- e2fsck_journal_fix_bad_inode ;; ret (r, set_j_sb_buffer jbh j)) s1).
  { unfold e2fsck_journal_load, bind at 1. rewrite Hread.
    unfold bind at 1, gets at 1. unfold bind at 1, gets at 1.
    rewrite Herr. apply Z.eqb_neq in Hmagic. rewrite Hmagic. reflexivity. }
  split; [exact Hload|].
  intros Hpre a rest Hans. rewrite Hload.
  pose proof (quiet_ll_rw_block1 READ (j_sb_buffer j) s) as Hq.
  rewrite Hread in Hq. destruct Hq as (Hctx & Hprob & _). cbn in Hctx, Hprob.
  assert (Hcond : has_flag (s_feature_compat (super (fs (ctx s1))))
                           EXT3_FEATURE_COMPAT_HAS_JOURNAL
                  || negb (s_journal_inum (super (fs (ctx s1))) =? 0) = true).
  { rewrite Hctx. apply orb_true_iff. unfold hasj, sbof in Hpre.
    destruct Hpre as [H|H]; [now left|right].
    now apply negb_true_iff, Z.eqb_neq. }
  unfold e2fsck_journal_fix_bad_inode, bind at 1, bind at 1.
  unfold get_sb at 1, gets at 1. cbv zeta. rewrite Hcond.
  unfold bind at 1, fix_problem at 1. rewrite Hprob, Hans.
  destruct a.
  - destruct (_ && _); run_straight; cbn;
      (eexists; split; [reflexivity|]);
      unfold hasj, recov, valid_fs, sbof; cbn; rewrite ?Hprob;
      splits; auto using has_flag_clear_flag.
  - run_straight; cbn. eexists; split; [reflexivity|].
    cbn. rewrite ?Hprob. split; [reflexivity | exact Hctx].
Qed.

(** C2 fails as stated: on an image whose journal block has no magic, with
    the has-journal feature set and a user who accepts the repair, the
    read succeeds, the magic differs, and [e2fsck_journal_load] returns 0,
    not [EXT2_ET_BAD_INODE_NUM], having cleared the feature. *)
Lemma load_bad_magic_counterexample :
  let s := Sample.bad_magic_image in
  let j := Sample.fresh_journal 8 in
  option_map b_err (Sample.returned (ll_rw_block1 READ (j_sb_buffer j) s)) = Some OK
  /\ option_map (fun bh => get_be32 off_h_magic (b_data bh))
                (Sample.returned (ll_rw_block1 READ (j_sb_buffer j) s)) = Some 0
  /\ option_map fst (Sample.returned (e2fsck_journal_load j s)) = Some OK
  /\ hasj s = true
  /\ hasj (final_state (e2fsck_journal_load j s)) = false.
Proof. vm_compute. repeat split; reflexivity. Qed.

(* ----------------------------------------------------------------- *)
(** ** Where the code departs from what is claimed *)

(** C1 does not hold of the code.  On a read-only image with the recovery
    flag set and the has-journal feature clear, a user who declines
    [PR_0_JOURNAL_HAS_JOURNAL] gets a return of 0 with the feature still
    clear and the recovery flag still set, which the comment above the
    label [no_has_journal] says will not happen; the same image opened for
    writing, with the same answer, leaves with the feature set.  And on a
    writable image whose journal block has no magic, a user who accepts
    the removal of the journal and then declines
    [PR_0_JOURNAL_HAS_JOURNAL] gets a return of 0 with the feature set and
    a journal inode number of 0. *)
Theorem check_leaves_recovery_without_journal :
  (readonly Sample.readonly_recover_image = true
   /\ hasj Sample.readonly_recover_image = false
   /\ recov Sample.readonly_recover_image = true
   /\ Sample.returned (e2fsck_check_ext3_journal Sample.readonly_recover_image)
      = Some OK
   /\ asked (problems (final_state
                         (e2fsck_check_ext3_journal Sample.readonly_recover_image)))
      = [(PR_0_JOURNAL_HAS_JOURNAL, false)]
   /\ hasj (final_state (e2fsck_check_ext3_journal Sample.readonly_recover_image))
      = false
   /\ recov (final_state (e2fsck_check_ext3_journal Sample.readonly_recover_image))
      = true)
  /\ (readonly Cases.writable_recover_image = false
      /\ sbof Cases.writable_recover_image = sbof Sample.readonly_recover_image
      /\ Sample.returned (e2fsck_check_ext3_journal Cases.writable_recover_image)
         = Some OK
      /\ asked (problems (final_state
                            (e2fsck_check_ext3_journal
                               Cases.writable_recover_image)))
         = [(PR_0_JOURNAL_HAS_JOURNAL, false)]
      /\ hasj (final_state (e2fsck_check_ext3_journal Cases.writable_recover_image))
         = true)
  /\ (readonly Cases.deleted_journal_image = false
      /\ Sample.returned (e2fsck_check_ext3_journal Cases.deleted_journal_image)
         = Some OK
      /\ asked (problems (final_state
                            (e2fsck_check_ext3_journal
                               Cases.deleted_journal_image)))
         = [(PR_0_JOURNAL_BAD_INODE, true); (PR_0_JOURNAL_HAS_JOURNAL, false)]
      /\ hasj (final_state (e2fsck_check_ext3_journal Cases.deleted_journal_image))
         = true
      /\ s_journal_inum
           (sbof (final_state
                    (e2fsck_check_ext3_journal Cases.deleted_journal_image)))
         = 0).
Proof. vm_compute. repeat split; reflexivity. Qed.

(** C8 fails as stated: with the has-journal feature set, recovery not
    pending and journal inode 12, which is not reserved, on a directory,
    the accepted bad-inode repair clears the feature and clears the valid
    bit all the same. *)
Lemma bad_inode_repair_counterexample :
  Sample.returned (e2fsck_check_ext3_journal Sample.directory_journal_image)
    = Some OK
  /\ hasj Sample.directory_journal_image = true
  /\ hasj (final_state (e2fsck_check_ext3_journal Sample.directory_journal_image))
     = false
  /\ recov Sample.directory_journal_image = false
  /\ EXT2_FIRST_INODE (sbof Sample.directory_journal_image)
     <= s_journal_inum (sbof Sample.directory_journal_image)
  /\ valid_fs Sample.directory_journal_image = true
  /\ valid_fs (final_state (e2fsck_check_ext3_journal Sample.directory_journal_image))
     = false.
Proof. vm_compute. repeat split; try reflexivity. discriminate. Qed.

(** C5 fails as stated.  Without [reset], on a writable image whose journal
    superblock on disk has a start of 42, the release of a handle whose
    buffer was never read leaves a start of 0 on disk.  With [reset], on a
    writable image whose device refuses the write, the start on disk stays
    42.  And on a read-only image a handle whose buffer is dirty is written
    back, the block on disk changing with it. *)
Lemma release_overwrites_start_counterexample :
  (readonly Sample.dirty_image = false
   /\ get_be32 off_s_start (blocks (device Sample.dirty_image) 100) = 42
   /\ Sample.returned
        (e2fsck_journal_release (Sample.fresh_journal 8) false Sample.dirty_image)
      = Some tt
   /\ get_be32 off_s_start
        (blocks (device (final_state
                           (e2fsck_journal_release (Sample.fresh_journal 8) false
                                                   Sample.dirty_image))) 100)
      = 0)
  /\ (readonly Sample.unreadable_image = false
      /\ get_be32 off_s_start (blocks (device Sample.unreadable_image) 100) = 42
      /\ Sample.returned
           (e2fsck_journal_release Cases.replayed_journal true
                                   Sample.unreadable_image)
         = Some tt
      /\ get_be32 off_s_start
           (blocks (device (final_state
                              (e2fsck_journal_release Cases.replayed_journal true
                                                      Sample.unreadable_image)))
                   100)
         = 42)
  /\ (readonly Sample.readonly_recover_image = true
      /\ blocks (device Sample.readonly_recover_image) 100 = Sample.good_jsb 0
      /\ Sample.returned
           (e2fsck_journal_release Cases.dirty_journal false
                                   Sample.readonly_recover_image)
         = Some tt
      /\ io_log (device (final_state
                           (e2fsck_journal_release Cases.dirty_journal false
                                                   Sample.readonly_recover_image)))
         = [PhysWrite 100 (Sample.good_jsb 42)]
      /\ blocks (device (final_state
                           (e2fsck_journal_release Cases.dirty_journal false
                                                   Sample.readonly_recover_image)))
                100
         = Sample.good_jsb 42).
Proof. vm_compute. repeat split; reflexivity. Qed.

(** C3 does not hold of the code: when [e2fsck_journal_load] fails, with
    an I/O error or on an unknown format, [e2fsck_check_ext3_journal] and
    [recover_ext3_journal] return the error with the journal handle, its
    inode view and the superblock buffer still allocated; so does the
    check after an accepted reset of a corrupt journal superblock.  A run
    that gets past the load frees all three. *)
Theorem load_failure_leaks_journal :
  (Sample.returned (e2fsck_check_ext3_journal Sample.unreadable_image),
   outstanding (final_state (e2fsck_check_ext3_journal Sample.unreadable_image)))
    = (Some (ERRNO 5), (1, 1, 1)%nat)
  /\ (Sample.returned (e2fsck_check_ext3_journal Sample.future_format_image),
      outstanding (final_state (e2fsck_check_ext3_journal Sample.future_format_image)))
     = (Some EXT2_ET_UNSUPP_FEATURE, (1, 1, 1)%nat)
  /\ (Sample.returned (recover_ext3_journal Sample.unreadable_image),
      outstanding (final_state (recover_ext3_journal Sample.unreadable_image)))
     = (Some (ERRNO 5), (1, 1, 1)%nat)
  /\ (Sample.returned (e2fsck_check_ext3_journal Sample.corrupt_super_image),
      outstanding (final_state (e2fsck_check_ext3_journal Sample.corrupt_super_image)))
     = (Some OK, (1, 1, 1)%nat)
  /\ (Sample.returned (e2fsck_check_ext3_journal Sample.clean_image),
      outstanding (final_state (e2fsck_check_ext3_journal Sample.clean_image)))
     = (Some OK, (0, 0, 0)%nat).
Proof. vm_compute. repeat split; reflexivity. Qed.

(** What [e2fsck_journal_reset_super] leaves in the buffer is what C6
    says: a valid V1 header is kept, any other gets the magic and the V2
    type; the rest of the block is zero but for the four fields set after
    the [memset]. *)
Lemma reset_super_data_fields (bsize maxlen : Z) (d : list byte) :
  List.length d = Z.to_nat bsize -> (32 <= List.length d)%nat ->
  let d' := reset_super_data bsize maxlen d in
  let valid_v1 := (get_be32 off_h_magic d =? JFS_MAGIC_NUMBER)
                  && (get_be32 off_h_blocktype d =? JFS_SUPERBLOCK_V1) in
  List.length d' = List.length d
  /\ (valid_v1 = true ->
      forall i, (i < 12)%nat -> nth i d' x00 = nth i d x00)
  /\ (valid_v1 = false ->
      get_be32 off_h_magic d' = JFS_MAGIC_NUMBER
      /\ get_be32 off_h_blocktype d' = JFS_SUPERBLOCK_V2
      /\ get_be32 off_h_sequence d' = get_be32 off_h_sequence d)
  /\ get_be32 off_s_blocksize d' = bsize mod 4294967296
  /\ get_be32 off_s_maxlen d' = maxlen mod 4294967296
  /\ get_be32 off_s_first d' = 1
  /\ get_be32 off_s_sequence d' = 1
  /\ get_be32 off_s_start d' = 0
  /\ (forall i, (28 <= i < List.length d)%nat -> nth i d' x00 = x00).
Proof.
  intros Hlen H32 d' valid_v1. subst d' valid_v1.
  unfold reset_super_data, sizeof_journal_header_t, off_h_magic,
    off_h_blocktype, off_h_sequence, off_s_blocksize, off_s_maxlen,
    off_s_first, off_s_sequence, off_s_start.
  set (hdr := if negb (get_be32 0 d =? JFS_MAGIC_NUMBER)
                 || negb (get_be32 4 d =? JFS_SUPERBLOCK_V1)
              then put_be32 4 JFS_SUPERBLOCK_V2 (put_be32 0 JFS_MAGIC_NUMBER d)
              else d).
  assert (Hhdr : List.length hdr = List.length d).
  { subst hdr. destruct (_ || _); now rewrite ?put_be32_length. }
  assert (Hn : Z.to_nat (bsize - Z.of_nat 12) = (List.length d - 12)%nat) by lia.
  rewrite Hn.
  set (z := memset0 12 (List.length d - 12) hdr).
  assert (Hz : List.length z = List.length d)
    by (subst z; now rewrite memset0_length).
  splits.
  - now rewrite !put_be32_length.
  - intros Hv i Hi. rewrite !nth_put_be32_other by lia.
    subst z. rewrite nth_memset0_out by lia. subst hdr.
    apply andb_true_iff in Hv. destruct Hv as [-> ->]. reflexivity.
  - intros Hv.
    assert (Hh : hdr = put_be32 4 JFS_SUPERBLOCK_V2 (put_be32 0 JFS_MAGIC_NUMBER d)).
    { subst hdr. apply andb_false_iff in Hv.
      destruct Hv as [-> | ->]; [reflexivity|].
      now rewrite orb_true_r. }
    rewrite !get_put_be32_other by lia. subst z.
    rewrite !get_be32_memset0_out by lia. rewrite Hh. splits.
    + rewrite get_put_be32_other by lia. now rewrite get_put_be32_same by lia.
    + now rewrite get_put_be32_same by (rewrite put_be32_length; lia).
    + now rewrite !get_put_be32_other by lia.
  - rewrite !get_put_be32_other by lia. apply get_put_be32_same. lia.
  - rewrite !get_put_be32_other by lia. apply get_put_be32_same.
    rewrite put_be32_length. lia.
  - rewrite !get_put_be32_other by lia. rewrite get_put_be32_same; [reflexivity|].
    rewrite !put_be32_length. lia.
  - rewrite get_put_be32_same; [reflexivity|]. rewrite !put_be32_length. lia.
  - rewrite !get_put_be32_other by lia. subst z.
    apply get_be32_memset0_in; lia.
  - intros i Hi. rewrite !nth_put_be32_other by lia. subst z.
    apply nth_memset0_in; lia.
Qed.

(** The write that ends [e2fsck_journal_reset_super] is no write: the
    buffer was never marked dirty, and [ll_rw_block] skips it. *)
Lemma reset_super_clean_buffer (j : journal_t) (s : state) :
  b_dirty (j_sb_buffer j) = 0 ->
  e2fsck_journal_reset_super j s =
    Done (set_j_sb_buffer
            (set_b_data (reset_super_data (blocksize (fs (ctx s))) (j_maxlen j)
                                          (b_data (j_sb_buffer j)))
                        (j_sb_buffer j)) j) s.
Proof.
  intros Hd.
  unfold e2fsck_journal_reset_super, ll_rw_block1, ll_rw_block,
    ll_rw_block_one, bind, gets, ret.
  cbn. rewrite Hd. reflexivity.
Qed.

(** C6 does not hold of the code, in its last part: on an image whose
    journal superblock is corrupt, the user accepting the reset, the check
    returns 0 with the recovery flag cleared, and the only transfer issued
    is the read: the block on the device is the corrupt one, block size
    4096 and start 42 included. *)
Theorem reset_super_never_written :
  Sample.returned (e2fsck_check_ext3_journal Sample.corrupt_super_image)
    = Some OK
  /\ asked (problems (final_state
              (e2fsck_check_ext3_journal Sample.corrupt_super_image)))
     = [(PR_0_JOURNAL_BAD_SUPER, true)]
  /\ io_log (device (final_state
               (e2fsck_check_ext3_journal Sample.corrupt_super_image)))
     = [PhysRead 100]
  /\ get_be32 off_s_blocksize
       (blocks (device (final_state
                  (e2fsck_check_ext3_journal Sample.corrupt_super_image))) 100)
     = 4096
  /\ get_be32 off_s_start
       (blocks (device (final_state
                  (e2fsck_check_ext3_journal Sample.corrupt_super_image))) 100)
     = 42
  /\ recov (final_state (e2fsck_check_ext3_journal Sample.corrupt_super_image))
     = false.
Proof. vm_compute. repeat split; reflexivity. Qed.

(* ----------------------------------------------------------------- *)
(** ** Buffers that are never dirty *)

(** No transfer, and the open mode kept. *)
Lemma always_conj {A : Type} (m : M A) (R1 R2 : state -> state -> Prop) :
  always m R1 -> always m R2 -> always m (fun s s' => R1 s s' /\ R2 s s').
Proof. intros H1 H2 s. split; [apply H1 | apply H2]. Qed.

Lemma ids_no_has_journal (fuel : nat) : always (no_has_journal fuel) same_ids.
Proof.
  induction fuel as [|fuel IH]; [intros s; apply same_ids_refl|].
  simpl. ids_auto.
Qed.

Lemma same_ids_readonly (s s' : state) : same_ids s s' -> readonly s' = readonly s.
Proof. intros (H & _). unfold readonly. now rewrite H. Qed.

Lemma reset_super_clean_no_io (j : journal_t) :
  b_dirty (j_sb_buffer j) = 0 -> always (e2fsck_journal_reset_super j) no_io.
Proof.
  intros Hd s. rewrite reset_super_clean_buffer by exact Hd. apply no_io_refl.
Qed.

(** With a buffer that is not dirty, the repair of a corrupt journal
    superblock issues no transfer at all, whatever the user answers. *)
Lemma fix_corrupt_super_clean_no_io (j : journal_t) :
  b_dirty (j_sb_buffer j) = 0 ->
  always (e2fsck_journal_fix_corrupt_super j) no_io.
Proof.
  intros Hd. pose proof (reset_super_clean_no_io j Hd) as Hreset.
  unfold e2fsck_journal_fix_corrupt_super.
  apply always_bind; [exact no_io_trans | auto with noio | intros sb].
  cbv zeta. destruct (has_flag _ _); [|noio_auto].
  apply always_bind; [exact no_io_trans | auto with noio | intros yes].
  destruct yes; [|noio_auto].
  apply always_bind; [exact no_io_trans | exact Hreset | intros j'].
  noio_auto.
Qed.

Lemma release_readonly_clean (j : journal_t) (reset : bool) (s : state) :
  readonly s = true -> b_dirty (j_sb_buffer j) = 0 ->
  no_io s (final_state (e2fsck_journal_release j reset s)).
Proof.
  intros Hro Hd. unfold readonly in Hro.
  cbv beta iota zeta delta
    [e2fsck_journal_release brelse ll_rw_block1 ll_rw_block ll_rw_block_one
     io_channel_write_blk ext2fs_free_mem mark_buffer_dirty
     bind gets ret com_err modify].
  rewrite Hro. cbn. rewrite Hd. cbn.
  destruct (j_inode j); reflexivity.
Qed.

(** The journal [e2fsck_check_ext3_journal] gets from
    [e2fsck_get_journal] and [e2fsck_journal_load] has a buffer that is not
    dirty: the repair of a corrupt superblock never writes it, on any
    image. *)
Lemma corrupt_repair_issues_no_write (s s1 s2 : state) (j j2 : journal_t)
      (r : errcode_t) :
  e2fsck_get_journal s = Done (inr j) s1 ->
  e2fsck_journal_load j s1 = Done (r, j2) s2 ->
  no_io s2 (final_state (e2fsck_journal_fix_corrupt_super j2 s2)).
Proof.
  intros Hget Hload.
  pose proof (wp_Done _ _ _ _ _ (get_journal_sum s) Hget) as (_ & _ & _ & _ & Hd).
  pose proof (wp_Done _ _ _ _ _ (load_sum j s1) Hload) as (_ & Hd2).
  cbn [snd] in Hd2.
  apply fix_corrupt_super_clean_no_io. congruence.
Qed.

(** On a read-only image the consistency check reads the journal
    superblock at most once and writes nothing. *)
Lemma check_readonly_never_writes (s : state) :
  readonly s = true ->
  wp e2fsck_check_ext3_journal (fun _ s' => io_within 1 0 s s') s.
Proof.
  intros Hro. unfold e2fsck_check_ext3_journal.
  apply wp_bind, wp_gets. cbv zeta.
  destruct (_ && _); [apply wp_ret, io_within_no_io, no_io_refl|].
  apply wp_bind.
  eapply wp_mono;
    [apply wp_conj; [apply get_journal_sum
                    | apply (always_wp _ _ (fun _ s' => no_io s s') s
                                       noio_get_journal); auto]|].
  intros r s1 ((Hid & Hr) & Hio1).
  assert (Hro1 : readonly s1 = true)
    by (rewrite (frame_readonly s s1); [exact Hro | apply Hid]).
  destruct r as [e | j].
  - assert (Hother : wp (ret e) (fun _ s' => io_within 1 0 s s') s1)
      by (apply wp_ret, io_within_no_io, Hio1).
    destruct e; try exact Hother.
    apply (always_wp _ _ _ _ noio_fix_bad_inode).
    intros _ s2 Hio2. apply io_within_no_io. eapply no_io_trans; eauto.
  - destruct Hr as (_ & _ & _ & Hd).
    apply wp_bind.
    eapply wp_mono;
      [apply wp_conj; [apply load_sum
                      | apply (always_wp _ _ (fun _ s' => io_within 1 0 s1 s') s1
                                         (io_load j)); auto]|].
    intros [r2 j2] s2 ((Hload & Hd2) & Hio2). cbn [fst snd] in Hload, Hd2.
    assert (Hclean : b_dirty (j_sb_buffer j2) = 0) by congruence.
    assert (Hro2 : readonly s2 = true)
      by (rewrite (frame_readonly s1 s2); [exact Hro1 | apply Hload]).
    assert (Hio02 : io_within 1 0 s s2).
    { apply (io_within_trans 0 0 1 0 s s1 s2); [|exact Hio2].
      now apply io_within_no_io. }
    assert (Hstep : forall s3, no_io s2 s3 -> io_within 1 0 s s3).
    { intros s3 H3. apply (io_within_trans 1 0 0 0 s s2 s3); [exact Hio02|].
      now apply io_within_no_io. }
    destruct (is_err r2).
    + assert (Hother : wp (ret r2) (fun _ s' => io_within 1 0 s s') s2)
        by (apply wp_ret; exact Hio02).
      destruct r2; try exact Hother.
      apply wp_bind.
      apply (always_wp _ _ _ _ (fix_corrupt_super_clean_no_io j2 Hclean)).
      intros [r3 j3] s3 Hio3. apply wp_ret. now apply Hstep.
    + unfold check_journal_flags.
      apply wp_bind, wp_gets. apply wp_bind.
      apply (always_wp _ _ _ _
               (always_conj _ _ _ (noio_no_has_journal _) (ids_no_has_journal _))).
      intros u s3 (Hio3 & Hid3).
      apply wp_bind, wp_gets. apply wp_bind.
      assert (Hblock : forall (m : M bool),
                 always m no_io -> always m same_ids ->
                 wp m (fun reset s5 =>
                         wp (e2fsck_journal_release j2 reset ;; ret r2)
                            (fun _ s' => io_within 1 0 s s') s5) s3).
      { intros m Hm1 Hm2.
        apply (always_wp _ _ _ _ (always_conj _ _ _ Hm1 Hm2)).
        intros reset s4 (Hio4 & Hid4).
        assert (Hro4 : readonly s4 = true).
        { rewrite (same_ids_readonly s3 s4 Hid4), (same_ids_readonly s2 s3 Hid3).
          exact Hro2. }
        pose proof (release_readonly_clean j2 reset s4 Hro4 Hclean) as Hrel.
        unfold wp, bind.
        destruct (e2fsck_journal_release j2 reset s4) as [u' s5| |]; auto.
        cbn in Hrel |- *. apply Hstep.
        eapply no_io_trans; [exact Hio3|]. eapply no_io_trans; eauto. }
      apply Hblock; [noio_auto | ids_auto].
Qed.

(* ----------------------------------------------------------------- *)
(** ** The theorems at work on the sample images *)

Lemma check_journal_force_fsck_rule_witness :
  asked (problems Sample.stale_inode_image) = []
  /\ e2fsck_check_ext3_journal Sample.stale_inode_image
     = Done OK (final_state (e2fsck_check_ext3_journal Sample.stale_inode_image))
  /\ force_fsck_rule
       Sample.stale_inode_image
       (final_state (e2fsck_check_ext3_journal Sample.stale_inode_image)).
Proof.
  assert (Hrun : e2fsck_check_ext3_journal Sample.stale_inode_image
                 = Done OK (final_state
                              (e2fsck_check_ext3_journal Sample.stale_inode_image)))
    by (vm_compute; reflexivity).
  split; [reflexivity | split; [exact Hrun|]].
  exact (check_journal_force_fsck_rule Sample.stale_inode_image _ OK eq_refl Hrun).
Defined.

Lemma load_reconciles_maxlen_witness :
  ll_rw_block1 READ (j_sb_buffer (Sample.fresh_journal 8)) Sample.clean_image
    = Done (Sample.loaded_buffer (Sample.good_jsb 0))
           (Sample.after_read Sample.clean_image)
  /\ format_checks_pass (Sample.fresh_journal 8)
                        (Sample.loaded_buffer (Sample.good_jsb 0)) = true
  /\ exists (j' : journal_t) (s' : state),
       e2fsck_journal_load (Sample.fresh_journal 8) Sample.clean_image
         = Done (OK, j') s'
       /\ j_maxlen j' = 1024 /\ j_last j' = 1024 /\ j_tail j' = 0.
Proof.
  assert (Hread : ll_rw_block1 READ (j_sb_buffer (Sample.fresh_journal 8))
                               Sample.clean_image
                  = Done (Sample.loaded_buffer (Sample.good_jsb 0))
                         (Sample.after_read Sample.clean_image))
    by (vm_compute; reflexivity).
  assert (Hpass : format_checks_pass (Sample.fresh_journal 8)
                    (Sample.loaded_buffer (Sample.good_jsb 0)) = true)
    by (vm_compute; reflexivity).
  split; [exact Hread | split; [exact Hpass|]].
  destruct (load_reconciles_maxlen _ _ _ _ Hread Hpass)
    as (r & j' & s' & Hload & _ & _ & Heq & Hlive).
  assert (Hdisk : get_be32 off_s_maxlen
                    (b_data (Sample.loaded_buffer (Sample.good_jsb 0)))
                  = j_maxlen (Sample.fresh_journal 8))
    by (vm_compute; reflexivity).
  destruct (Heq Hdisk) as (-> & Hmax).
  destruct (Hlive eq_refl) as (_ & _ & Htail & _ & Hlast).
  exists j', s'. split; [exact Hload|].
  split; [exact Hmax|]. split.
  - rewrite Hlast. vm_compute. reflexivity.
  - rewrite Htail. vm_compute. reflexivity.
Defined.


Lemma release_writes_sequence_and_start_witness :
  get_be32 off_s_start (blocks (device Sample.dirty_image) 100) = 42
  /\ get_be32 off_s_sequence (blocks (device Sample.dirty_image) 100) = 7
  /\ b_data (j_sb_buffer Cases.replayed_journal)
     = blocks (device Sample.dirty_image) 100
  /\ (exists s' : state,
        e2fsck_journal_release Cases.replayed_journal true Sample.dirty_image
        = Done tt s'
        /\ get_be32 off_s_start (blocks (device s') 100) = 0
        /\ get_be32 off_s_sequence (blocks (device s') 100) = 9)
  /\ (exists s' : state,
        e2fsck_journal_release Cases.replayed_journal false Sample.dirty_image
        = Done tt s'
        /\ get_be32 off_s_start (blocks (device s') 100) = 42
        /\ get_be32 off_s_sequence (blocks (device s') 100) = 9)
  /\ (exists s' : state,
        e2fsck_journal_release Cases.replayed_journal true
                               Sample.readonly_recover_image = Done tt s'
        /\ device s' = device Sample.readonly_recover_image).
Proof.
  assert (Hlen : (32 <= List.length
                          (b_data (j_sb_buffer Cases.replayed_journal)))%nat)
    by (vm_compute; lia).
  split; [vm_compute; reflexivity|].
  split; [vm_compute; reflexivity|].
  split; [vm_compute; reflexivity|].
  split; [|split].
  - destruct (release_writes_sequence_and_start
                Cases.replayed_journal true Sample.dirty_image)
      as (Hw & Hseq & Hstart & _ & _).
    destruct (Hw eq_refl) as (s' & Hrun & _ & Hok & _).
    destruct (Hok eq_refl) as (Hblk & _).
    exists s'. split; [exact Hrun|].
    change 100 with (b_blocknr (j_sb_buffer Cases.replayed_journal)).
    rewrite Hblk. split; [exact (Hstart Hlen eq_refl)|].
    rewrite (Hseq Hlen). reflexivity.
  - destruct (release_writes_sequence_and_start
                Cases.replayed_journal false Sample.dirty_image)
      as (Hw & Hseq & _ & Hkeep & _).
    destruct (Hw eq_refl) as (s' & Hrun & _ & Hok & _).
    destruct (Hok eq_refl) as (Hblk & _).
    exists s'. split; [exact Hrun|].
    change 100 with (b_blocknr (j_sb_buffer Cases.replayed_journal)).
    rewrite Hblk. split.
    + rewrite (proj1 (Hkeep eq_refl)). vm_compute. reflexivity.
    + rewrite (Hseq Hlen). reflexivity.
  - destruct (release_writes_sequence_and_start
                Cases.replayed_journal true Sample.readonly_recover_image)
      as (_ & _ & _ & _ & Hro).
    destruct (Hro eq_refl) as (s' & Hrun & _ & Hdev).
    exists s'. split; [exact Hrun | exact (Hdev eq_refl)].
Defined.

Lemma run_journal_reopens_and_clears_witness :
  (readonly Sample.readonly_recover_image = true
   /\ Sample.returned (e2fsck_run_ext3_journal Sample.readonly_recover_image)
      = Some EXT2_ET_FILE_RO)
  /\ (readonly Sample.dirty_image = false
      /\ exists s' : state,
           e2fsck_run_ext3_journal Sample.dirty_image = Done OK s'
           /\ calls s' = [CallInitRevoke 1024; CallRecover; CallClose;
                          CallOpen "/dev/sda1" EXT2_FLAG_RW 0 1024 1]
           /\ recov s' = false).
Proof.
  split.
  - split; [reflexivity|].
    rewrite (proj1 (run_journal_reopens_and_clears Sample.readonly_recover_image)
                   eq_refl).
    reflexivity.
  - split; [reflexivity|].
    assert (Hrec : recover_ext3_journal
                     (set_diag (diag Sample.dirty_image ++ [Printf "recovering journal"])
                               Sample.dirty_image)
                   = Done OK (final_state
                       (recover_ext3_journal
                          (set_diag (diag Sample.dirty_image
                                     ++ [Printf "recovering journal"])
                                    Sample.dirty_image))))
      by (vm_compute; reflexivity).
    destruct (proj2 (run_journal_reopens_and_clears Sample.dirty_image)
                    eq_refl _ _ Hrec) as (s' & Hcalls & _ & Hrun).
    cbn in Hrun. destruct Hrun as (Hrun & _ & Hrecov & _).
    exists s'. split; [exact Hrun|]. split; [|exact Hrecov].
    rewrite Hcalls. vm_compute. reflexivity.
Defined.

Lemma load_bad_magic_runs_bad_inode_repair_witness :
  ll_rw_block1 READ (j_sb_buffer (Sample.fresh_journal 8)) Sample.bad_magic_image
    = Done (Sample.loaded_buffer (Sample.jsb 0 2 1024 1024 1 7 0))
           (Sample.after_read Sample.bad_magic_image)
  /\ exists s' : state,
       e2fsck_journal_load (Sample.fresh_journal 8) Sample.bad_magic_image
         = Done (OK, set_j_sb_buffer
                       (Sample.loaded_buffer (Sample.jsb 0 2 1024 1024 1 7 0))
                       (Sample.fresh_journal 8)) s'
       /\ hasj s' = false /\ valid_fs s' = false.
Proof.
  assert (Hread : ll_rw_block1 READ (j_sb_buffer (Sample.fresh_journal 8))
                               Sample.bad_magic_image
                  = Done (Sample.loaded_buffer (Sample.jsb 0 2 1024 1024 1 7 0))
                         (Sample.after_read Sample.bad_magic_image))
    by (vm_compute; reflexivity).
  split; [exact Hread|].
  assert (Hmagic : get_be32 off_h_magic
                     (b_data (Sample.loaded_buffer (Sample.jsb 0 2 1024 1024 1 7 0)))
                   <> JFS_MAGIC_NUMBER)
    by (vm_compute; discriminate).
  destruct (proj2 (load_bad_magic_runs_bad_inode_repair _ _ _ _ Hread eq_refl Hmagic)
                  (or_introl eq_refl) true [true] eq_refl)
    as (s' & Hload & _ & Hhj & _ & _ & Hv).
  exists s'. split; [exact Hload|]. split; assumption.
Defined.

(* ================================================================= *)
(** * Properties read off the code

    What the buffer layer and the functions of the driver do on every
    input: which transfers they issue, what they allocate and free, which
    codes they return, which questions they ask, and what they may change
    in the superblock. *)

(* ----------------------------------------------------------------- *)
(** ** The buffer layer *)

Lemma io_since_refl (s : state) : io_since s s [].
Proof. unfold io_since. now rewrite app_nil_r. Qed.

Lemma io_since_trans (s1 s2 s3 : state) (e1 e2 : list io_event) :
  io_since s1 s2 e1 -> io_since s2 s3 e2 -> io_since s1 s3 (e1 ++ e2).
Proof. unfold io_since. intros H1 H2. now rewrite H2, H1, app_assoc. Qed.

Lemma transfers_cons (rw : Z) (bh : buffer_head) (bhp : list buffer_head) :
  transfers rw (bh :: bhp) = transfers rw [bh] ++ transfers rw bhp.
Proof.
  unfold transfers. cbn [filter].
  destruct (rw =? READ).
  - destruct (needs_read bh); reflexivity.
  - destruct (rw =? WRITE); [|reflexivity].
    destruct (needs_write bh); reflexivity.
Qed.

Ltac settle :=
  splits; auto; try discriminate; intros; cbn;
  try solve [left; first [discriminate | assumption | now apply Z.eqb_neq
                          | now apply Z.eqb_eq]];
  try solve [right; assumption]; try congruence.

(** A code that is 0 stays 0 in an [int], and a code that is not 0 in an
    [int] was not 0. *)
Lemma int_of_errcode_ok (e : errcode_t) :
  is_err e = false -> is_err (int_of_errcode e) = false.
Proof.
  destruct e; try discriminate. cbn. intros H.
  apply negb_false_iff, Z.eqb_eq in H. now subst.
Qed.

Lemma int_of_errcode_err (e : errcode_t) :
  is_err (int_of_errcode e) = true -> is_err e = true.
Proof.
  intros H. destruct (is_err e) eqn:E; [reflexivity|].
  rewrite (int_of_errcode_ok e E) in H. discriminate.
Qed.

Lemma ll_rw_block_one_run (rw : Z) (bh : buffer_head) (s : state) :
  exists bh' s',
    ll_rw_block_one rw bh s = Done bh' s'
    /\ io_since s s' (transfers rw [bh])
    /\ same_ctx s s' /\ memory s' = memory s
    /\ settled rw bh bh'.
Proof.
  unfold ll_rw_block_one, transfers, settled, needs_read, needs_write.
  cbn [filter map].
  destruct (rw =? READ) eqn:Er.
  - apply Z.eqb_eq in Er. subst rw. cbn [andb].
    destruct (b_uptodate bh =? 0) eqn:Eu.
    + cbv beta iota zeta delta [bind io_channel_read_blk gets com_err modify ret].
      destruct (is_err (int_of_errcode
                            (io_result (device s)
                                       (List.length (io_log (device s))))))
        eqn:Eio; cbn;
        (eexists _, _; split; [reflexivity|]);
        unfold io_since, same_ctx; cbn; settle.
    + cbn [Z.eqb READ WRITE andb]. eexists _, _. split; [reflexivity|].
      split; [apply io_since_refl|]. split; [apply same_ctx_refl|]. settle.
  - cbn [andb]. destruct (rw =? WRITE) eqn:Ew.
    + apply Z.eqb_eq in Ew. subst rw. cbn [andb].
      destruct (b_dirty bh =? 0) eqn:Ed; cbn [negb].
      * eexists _, _. split; [reflexivity|].
        split; [apply io_since_refl|]. split; [apply same_ctx_refl|]. settle.
      * cbv beta iota zeta delta [bind io_channel_write_blk gets com_err modify ret].
        destruct (is_err (int_of_errcode
                            (io_result (device s)
                                       (List.length (io_log (device s))))))
          eqn:Eio; cbn;
          (eexists _, _; split; [reflexivity|]);
          unfold io_since, same_ctx; cbn; settle.
    + cbn [andb]. eexists _, _. split; [reflexivity|].
      split; [apply io_since_refl|]. split; [apply same_ctx_refl|].
      apply Z.eqb_neq in Er, Ew. settle.
Qed.

Lemma ll_rw_block_run (rw : Z) (bhp : list buffer_head) :
  forall s : state,
    exists bhp' s',
      ll_rw_block rw bhp s = Done bhp' s'
      /\ io_since s s' (transfers rw bhp)
      /\ same_ctx s s' /\ memory s' = memory s
      /\ Forall2 (settled rw) bhp bhp'.
Proof.
  induction bhp as [|bh rest IH]; intros s.
  - exists [], s. split; [reflexivity|].
    split; [unfold transfers; destruct (rw =? READ), (rw =? WRITE);
            apply io_since_refl|].
    split; [apply same_ctx_refl|]. split; [reflexivity | constructor].
  - destruct (ll_rw_block_one_run rw bh s) as (bh' & s1 & E1 & I1 & C1 & M1 & S1).
    destruct (IH s1) as (rest' & s2 & E2 & I2 & C2 & M2 & S2).
    exists (bh' :: rest'), s2.
    split; [cbn [ll_rw_block]; unfold bind; rewrite E1, E2; reflexivity|].
    split; [rewrite transfers_cons; eapply io_since_trans; eauto|].
    split; [eapply same_ctx_trans; eauto|].
    split; [congruence | now constructor].
Qed.

(** X1: [ll_rw_block] returns for every request and every list of buffers and
    gives back as many buffers as it was given.  A [READ] issues one
    physical read for each buffer that is not up to date, a [WRITE] one
    physical write, of the data of the buffer, for each dirty buffer, in the
    order of the list; any other request issues nothing.  The context, the
    problem channel and the allocator are left as they were. *)
Theorem ll_rw_block_transfers :
  forall (rw : Z) (bhp : list buffer_head) (s : state),
    exists bhp' s',
      ll_rw_block rw bhp s = Done bhp' s'
      /\ List.length bhp' = List.length bhp
      /\ io_since s s' (transfers rw bhp)
      /\ same_ctx s s' /\ memory s' = memory s.
Proof.
  intros rw bhp s.
  destruct (ll_rw_block_run rw bhp s) as (bhp' & s' & E & I & C & M & F).
  exists bhp', s'. splits; auto.
  symmetry. eapply Forall2_length; eauto.
Qed.

(** X2: after [ll_rw_block] every buffer still stands for the same block
    and has the same size, and is in the state asked for or carries an
    error: up to date after a [READ], clean after a [WRITE].  An error a
    buffer carried on entry is never cleared, not even by a transfer that
    succeeds. *)
Theorem ll_rw_block_settles :
  forall (rw : Z) (bhp : list buffer_head) (s : state),
    exists bhp' s',
      ll_rw_block rw bhp s = Done bhp' s'
      /\ Forall2 (settled rw) bhp bhp'.
Proof.
  intros rw bhp s.
  destruct (ll_rw_block_run rw bhp s) as (bhp' & s' & E & I & C & M & F).
  exists bhp', s'. auto.
Qed.

Lemma ll_rw_block_one_idle (rw : Z) (bh : buffer_head) (s : state) :
  transfers rw [bh] = [] -> ll_rw_block_one rw bh s = Done bh s.
Proof.
  unfold transfers, ll_rw_block_one, needs_read, needs_write. cbn [filter map].
  destruct (rw =? READ) eqn:Er; cbn [andb].
  - destruct (b_uptodate bh =? 0); [discriminate|]. intros _.
    apply Z.eqb_eq in Er. subst rw. reflexivity.
  - destruct (rw =? WRITE); cbn [andb]; [|reflexivity].
    destruct (negb (b_dirty bh =? 0)); [discriminate | reflexivity].
Qed.

(** X3: when no buffer of the list needs the transfer asked for (every
    buffer up to date for a [READ], clean for a [WRITE], or a request that
    is neither), [ll_rw_block] changes nothing at all: it returns the
    buffers as they were, in the state it was called in. *)
Theorem ll_rw_block_idle :
  forall (rw : Z) (bhp : list buffer_head) (s : state),
    transfers rw bhp = [] -> ll_rw_block rw bhp s = Done bhp s.
Proof.
  intros rw bhp s. induction bhp as [|bh rest IH]; intros H; [reflexivity|].
  rewrite transfers_cons in H. apply app_eq_nil in H. destruct H as [H1 H2].
  cbn [ll_rw_block]. unfold bind.
  rewrite (ll_rw_block_one_idle _ _ _ H1), (IH H2). reflexivity.
Qed.

Lemma ll_rw_block1_one (rw : Z) (bh : buffer_head) (s : state) :
  ll_rw_block1 rw bh s = ll_rw_block_one rw bh s.
Proof.
  unfold ll_rw_block1. cbn [ll_rw_block]. unfold bind, ret.
  destruct (ll_rw_block_one_run rw bh s) as (bh' & s' & E & _).
  rewrite E. reflexivity.
Qed.

Lemma read_one_ok (bh : buffer_head) (s : state) :
  b_uptodate bh = 0 -> is_err (next_io s) = false ->
  ll_rw_block_one READ bh s =
    Done (set_b_uptodate 1
            (set_b_data (store 0 (blocks (device s) (b_blocknr bh)) (b_data bh)) bh))
         (set_device {| blocks := blocks (device s);
                        io_result := io_result (device s);
                        io_log := io_log (device s) ++ [PhysRead (b_blocknr bh)] |} s).
Proof.
  intros Hu Hio. pose proof (int_of_errcode_ok _ Hio) as Hint.
  unfold ll_rw_block_one. rewrite Hu.
  cbn [Z.eqb READ WRITE andb negb].
  cbv beta iota zeta delta [bind io_channel_read_blk gets com_err modify ret].
  cbn. unfold next_io in Hio, Hint. rewrite Hint, Hio. reflexivity.
Qed.

Lemma read_one_fail (bh : buffer_head) (s : state) :
  b_uptodate bh = 0 -> is_err (int_of_errcode (next_io s)) = true ->
  ll_rw_block_one READ bh s =
    Done (set_b_err (int_of_errcode (next_io s)) bh)
         (set_diag (diag s ++ [ComErr (device_name (ctx s))
                                      (int_of_errcode (next_io s))
                                      "while reading block"])
           (set_device {| blocks := blocks (device s);
                          io_result := io_result (device s);
                          io_log := io_log (device s) ++ [PhysRead (b_blocknr bh)] |} s)).
Proof.
  intros Hu Hint. unfold ll_rw_block_one. rewrite Hu.
  cbn [Z.eqb READ WRITE andb negb].
  cbv beta iota zeta delta [bind io_channel_read_blk gets com_err modify ret].
  cbn. unfold next_io in Hint |- *. rewrite Hint. reflexivity.
Qed.

(** A read the channel refuses with a code that is 0 in an [int]: the
    buffer keeps its bytes and is marked up to date. *)
Lemma read_one_unseen (bh : buffer_head) (s : state) :
  b_uptodate bh = 0 ->
  is_err (next_io s) = true -> is_err (int_of_errcode (next_io s)) = false ->
  ll_rw_block_one READ bh s =
    Done (set_b_uptodate 1 (set_b_data (b_data bh) bh))
         (set_device {| blocks := blocks (device s);
                        io_result := io_result (device s);
                        io_log := io_log (device s) ++ [PhysRead (b_blocknr bh)] |} s).
Proof.
  intros Hu Hio Hint. unfold ll_rw_block_one. rewrite Hu.
  cbn [Z.eqb READ WRITE andb negb].
  cbv beta iota zeta delta [bind io_channel_read_blk gets com_err modify ret].
  cbn. unfold next_io in Hio, Hint. rewrite Hint, Hio. reflexivity.
Qed.

Lemma write_one_ok (bh : buffer_head) (s : state) :
  b_dirty bh <> 0 -> is_err (next_io s) = false ->
  ll_rw_block_one WRITE bh s =
    Done (set_b_uptodate 1 (set_b_dirty 0 bh))
         (set_device {| blocks := fun b => if b =? b_blocknr bh then b_data bh
                                           else blocks (device s) b;
                        io_result := io_result (device s);
                        io_log := io_log (device s)
                                  ++ [PhysWrite (b_blocknr bh) (b_data bh)] |} s).
Proof.
  intros Hd Hio. pose proof (int_of_errcode_ok _ Hio) as Hint.
  unfold ll_rw_block_one.
  apply Z.eqb_neq in Hd. rewrite Hd.
  cbn [Z.eqb READ WRITE andb negb].
  cbv beta iota zeta delta [bind io_channel_write_blk gets com_err modify ret].
  cbn. unfold next_io in Hio, Hint. rewrite Hint, Hio. reflexivity.
Qed.

Lemma write_one_fail (bh : buffer_head) (s : state) :
  b_dirty bh <> 0 -> is_err (int_of_errcode (next_io s)) = true ->
  ll_rw_block_one WRITE bh s =
    Done (set_b_err (int_of_errcode (next_io s)) bh)
         (set_diag (diag s ++ [ComErr (device_name (ctx s))
                                      (int_of_errcode (next_io s))
                                      "while writing block"])
           (set_device {| blocks := blocks (device s);
                          io_result := io_result (device s);
                          io_log := io_log (device s)
                                    ++ [PhysWrite (b_blocknr bh) (b_data bh)] |} s)).
Proof.
  intros Hd Hint. pose proof (int_of_errcode_err _ Hint) as Hio.
  unfold ll_rw_block_one.
  apply Z.eqb_neq in Hd. rewrite Hd.
  cbn [Z.eqb READ WRITE andb negb].
  cbv beta iota zeta delta [bind io_channel_write_blk gets com_err modify ret].
  cbn. unfold next_io in Hio, Hint |- *. rewrite Hint, Hio. reflexivity.
Qed.

(** A write the channel refuses with a code that is 0 in an [int]: the
    device keeps its blocks and the buffer is marked clean. *)
Lemma write_one_unseen (bh : buffer_head) (s : state) :
  b_dirty bh <> 0 ->
  is_err (next_io s) = true -> is_err (int_of_errcode (next_io s)) = false ->
  ll_rw_block_one WRITE bh s =
    Done (set_b_uptodate 1 (set_b_dirty 0 bh))
         (set_device {| blocks := blocks (device s);
                        io_result := io_result (device s);
                        io_log := io_log (device s)
                                  ++ [PhysWrite (b_blocknr bh) (b_data bh)] |} s).
Proof.
  intros Hd Hio Hint. unfold ll_rw_block_one.
  apply Z.eqb_neq in Hd. rewrite Hd.
  cbn [Z.eqb READ WRITE andb negb].
  cbv beta iota zeta delta [bind io_channel_write_blk gets com_err modify ret].
  cbn. unfold next_io in Hio, Hint. rewrite Hint, Hio. reflexivity.
Qed.

(** X4: [wait_on_buffer] is [ll_rw_block (READ, 1, &bh)]: it always
    returns, issues at most one read, and none for a buffer that is up to
    date, which it gives back untouched.  For a buffer that is not up to
    date, a read that succeeds fills it from the block, marks it up to date
    and leaves its error field alone.  A read whose code is not 0 in the
    [int retval] of [ll_rw_block] stores that [int] as the error, and leaves
    the data and the up-to-date mark as they were.  A read the channel
    refuses with a code that is 0 in an [int] is taken for a success: the
    buffer is marked up to date with the bytes it had. *)
Theorem wait_on_buffer_reads_once :
  forall (bh : buffer_head) (s : state),
    wait_on_buffer bh s = ll_rw_block1 READ bh s
    /\ exists bh' s',
         wait_on_buffer bh s = Done bh' s'
         /\ io_since s s' (transfers READ [bh])
         /\ (buffer_uptodate bh' <> 0 \/ is_err (b_err bh') = true)
         /\ (buffer_uptodate bh <> 0 -> bh' = bh /\ s' = s)
         /\ (buffer_uptodate bh = 0 -> is_err (next_io s) = false ->
             buffer_uptodate bh' = 1 /\ b_err bh' = b_err bh
             /\ b_data bh' =
                  store 0 (blocks (device s) (b_blocknr bh)) (b_data bh))
         /\ (buffer_uptodate bh = 0 ->
             is_err (int_of_errcode (next_io s)) = true ->
             buffer_uptodate bh' = 0
             /\ b_err bh' = int_of_errcode (next_io s)
             /\ b_data bh' = b_data bh)
         /\ (buffer_uptodate bh = 0 ->
             is_err (next_io s) = true ->
             is_err (int_of_errcode (next_io s)) = false ->
             buffer_uptodate bh' = 1 /\ b_err bh' = b_err bh
             /\ b_data bh' = b_data bh).
Proof.
  intros bh s.
  assert (E : wait_on_buffer bh s = ll_rw_block1 READ bh s).
  { rewrite ll_rw_block1_one. unfold wait_on_buffer.
    destruct (b_uptodate bh =? 0) eqn:Eu; [apply ll_rw_block1_one|].
    symmetry. apply ll_rw_block_one_idle.
    unfold transfers, needs_read. cbn. now rewrite Eu. }
  split; [exact E|]. rewrite E, ll_rw_block1_one.
  destruct (ll_rw_block_one_run READ bh s) as (bh' & s' & E1 & I1 & _ & _ & S1).
  exists bh', s'. unfold buffer_uptodate.
  destruct S1 as (_ & _ & Hr & _).
  splits; auto.
  - intros Hu. rewrite ll_rw_block_one_idle in E1.
    + inversion E1. auto.
    + unfold transfers, needs_read. cbn. apply Z.eqb_neq in Hu. now rewrite Hu.
  - intros Hu Hio. rewrite (read_one_ok _ _ Hu Hio) in E1. inversion E1. auto.
  - intros Hu Hint. rewrite (read_one_fail _ _ Hu Hint) in E1.
    inversion E1. auto.
  - intros Hu Hio Hint. rewrite (read_one_unseen _ _ Hu Hio Hint) in E1.
    inversion E1. auto.
Qed.

Lemma lor_one_nonzero (z : Z) : Z.lor z 1 <> 0.
Proof. intros H. apply Z.lor_eq_0_iff in H. destruct H. discriminate. Qed.

(** The three ways a transfer can end: taken by the channel; refused with a
    code [ll_rw_block] sees; refused with a code that is 0 in an [int]. *)
Ltac io_cases s :=
  let Eio := fresh "Eio" in
  let Eint := fresh "Eint" in
  destruct (is_err (next_io s)) eqn:Eio;
  [ destruct (is_err (int_of_errcode (next_io s))) eqn:Eint
  | pose proof (int_of_errcode_ok _ Eio) as Eint ].

Lemma brelse_run :
  forall (bh : buffer_head) (s : state),
    exists s',
      brelse bh s = Done tt s'
      /\ io_since s s' (transfers WRITE [bh])
      /\ same_ctx s s'
      /\ outstanding s' =
           (live_journals (memory s), live_inodes (memory s),
            pred (live_buffers (memory s)))
      /\ (forall b,
             blocks (device s') b =
               if needs_write bh && negb (is_err (next_io s)) && (b =? b_blocknr bh)
               then b_data bh else blocks (device s) b).
Proof.
  intros bh s. unfold brelse, needs_write, transfers. cbn [filter map Z.eqb WRITE READ].
  unfold needs_write.
  destruct (negb (b_dirty bh =? 0)) eqn:Ed; cbn [andb].
  - apply negb_true_iff, Z.eqb_neq in Ed.
    unfold bind at 1. rewrite ll_rw_block1_one.
    io_cases s.
    + rewrite (write_one_fail _ _ Ed Eint).
      eexists. split; [reflexivity|].
      unfold io_since, same_ctx, outstanding. cbn. splits; auto.
    + rewrite (write_one_unseen _ _ Ed Eio Eint).
      eexists. split; [reflexivity|].
      unfold io_since, same_ctx, outstanding. cbn. splits; auto.
    + rewrite (write_one_ok _ _ Ed Eio).
      eexists. split; [reflexivity|].
      unfold io_since, same_ctx, outstanding. cbn. splits; auto.
  - eexists. split; [reflexivity|].
    unfold io_since, same_ctx, outstanding. cbn. rewrite app_nil_r. splits; auto.
Qed.

(** X5: [brelse] always returns and gives the buffer back to the
    allocator, dirty or not, written or not.  It issues one write for a
    dirty buffer and none for a clean one; the block of a dirty buffer holds
    the data of the buffer afterwards when that write succeeds, and every
    other block, and this one when the write fails, is as it was. *)
Theorem brelse_writes_back_and_frees :
  forall (bh : buffer_head) (s : state),
    exists s',
      brelse bh s = Done tt s'
      /\ io_since s s' (transfers WRITE [bh])
      /\ same_ctx s s'
      /\ outstanding s' =
           (live_journals (memory s), live_inodes (memory s),
            pred (live_buffers (memory s)))
      /\ (forall b,
             blocks (device s') b =
               if needs_write bh && negb (is_err (next_io s)) && (b =? b_blocknr bh)
               then b_data bh else blocks (device s) b).
Proof. exact brelse_run. Qed.

(** X6: [mark_buffer_dirty] changes the dirty mark of a buffer and nothing
    else, and makes it dirty whatever the second argument is.  The next
    [ll_rw_block (WRITE)] of the buffer therefore issues exactly one write of
    its data.  When the write succeeds the buffer is clean and the block
    holds the data.  When it fails with a code that is not 0 in the
    [int retval] of [ll_rw_block], the buffer stays dirty, carries that
    [int] as its error, and the device is unchanged.  When it fails with a
    code that is 0 in an [int], the failure goes unseen: the buffer is
    marked clean although the device is unchanged. *)
Theorem mark_buffer_dirty_forces_write :
  forall (bh : buffer_head) (dummy : Z) (s : state),
    needs_write (mark_buffer_dirty bh dummy) = true
    /\ set_b_dirty (b_dirty bh) (mark_buffer_dirty bh dummy) = bh
    /\ exists bh' s',
         ll_rw_block WRITE [mark_buffer_dirty bh dummy] s = Done [bh'] s'
         /\ io_since s s' [PhysWrite (b_blocknr bh) (b_data bh)]
         /\ (is_err (next_io s) = false ->
             needs_write bh' = false
             /\ blocks (device s') (b_blocknr bh) = b_data bh)
         /\ (is_err (int_of_errcode (next_io s)) = true ->
             needs_write bh' = true
             /\ b_err bh' = int_of_errcode (next_io s)
             /\ blocks (device s') = blocks (device s))
         /\ (is_err (next_io s) = true ->
             is_err (int_of_errcode (next_io s)) = false ->
             needs_write bh' = false
             /\ b_err bh' = b_err bh
             /\ blocks (device s') = blocks (device s)).
Proof.
  intros bh dummy s.
  assert (Hd : b_dirty (mark_buffer_dirty bh dummy) <> 0) by apply lor_one_nonzero.
  split; [unfold needs_write; now apply negb_true_iff, Z.eqb_neq|].
  split; [destruct bh; reflexivity|].
  cbn [ll_rw_block]. unfold bind, ret.
  io_cases s.
  - rewrite (write_one_fail _ _ Hd Eint). eexists _, _. split; [reflexivity|].
    unfold io_since, needs_write. cbn. splits; auto; try discriminate;
      try (intros; congruence).
    intros _. splits; auto. now apply negb_true_iff, Z.eqb_neq.
  - rewrite (write_one_unseen _ _ Hd Eio Eint). eexists _, _.
    split; [reflexivity|].
    unfold io_since, needs_write. cbn. splits; auto; try discriminate;
      try (intros; congruence).
  - rewrite (write_one_ok _ _ Hd Eio). eexists _, _. split; [reflexivity|].
    unfold io_since, needs_write. cbn. splits; auto; try discriminate;
      try (intros; congruence).
    intros _. now rewrite Z.eqb_refl.
Qed.

(** X7: [getblk] always returns and touches neither the context nor the
    device: no block is read.  When the allocation succeeds the buffer stands
    for the block and size asked for, is zero filled, not up to date, not
    dirty and free of error, one more buffer is outstanding, and releasing
    it at once issues no transfer and restores the count of outstanding
    objects.  When the allocation fails the result is null and nothing is
    outstanding. *)
Theorem getblk_fresh_buffer :
  forall (blocknr bsize : Z) (s : state),
    exists r s',
      getblk blocknr bsize s = Done r s'
      /\ device s' = device s /\ same_ctx s s'
      /\ match r with
         | Some bh =>
             alloc_ok (memory s) (allocs (memory s)) = true
             /\ b_blocknr bh = blocknr /\ b_size bh = bsize
             /\ needs_read bh = true /\ needs_write bh = false
             /\ b_err bh = OK
             /\ b_data bh = repeat x00 (Z.to_nat bsize)
             /\ outstanding s' =
                  (live_journals (memory s), live_inodes (memory s),
                   S (live_buffers (memory s)))
             /\ exists s'', brelse bh s' = Done tt s''
                            /\ no_io s s'' /\ outstanding s'' = outstanding s
         | None =>
             alloc_ok (memory s) (allocs (memory s)) = false
             /\ outstanding s' = outstanding s
         end.
Proof.
  intros blocknr bsize s.
  unfold getblk, bind, e2fsck_allocate_memory.
  destruct (alloc_ok (memory s) (allocs (memory s))) eqn:Ea; cbn.
  - eexists _, _. split; [reflexivity|].
    unfold no_io, same_ctx, outstanding, needs_read, needs_write. cbn.
    splits; auto.
    eexists. split; [reflexivity|]. cbn. auto.
  - eexists _, _. split; [reflexivity|].
    unfold no_io, same_ctx, outstanding. cbn. splits; auto.
Qed.

Lemma store_all (d : list byte) : forall buf : list byte,
  List.length buf = List.length d -> store 0 d buf = d.
Proof.
  induction d as [|x d IH]; intros [|y buf] H; try discriminate; [reflexivity|].
  cbn. f_equal. apply IH. now inversion H.
Qed.

(** X8: a block written through the buffer layer is read back unchanged.
    When a buffer whose data fills its size is marked dirty and released,
    a fresh buffer is taken for the same block and waited on, and both
    transfers succeed, the fresh buffer is up to date and holds the data of
    the first one; the device saw one write and then one read of that
    block. *)
Theorem buffer_write_read_round_trip :
  forall (bh : buffer_head) (s s1 s2 s3 : state) (bh2 bh3 : buffer_head),
    List.length (b_data bh) = Z.to_nat (b_size bh) ->
    is_err (next_io s) = false ->
    brelse (mark_buffer_dirty bh 1) s = Done tt s1 ->
    getblk (b_blocknr bh) (b_size bh) s1 = Done (Some bh2) s2 ->
    is_err (next_io s2) = false ->
    wait_on_buffer bh2 s2 = Done bh3 s3 ->
    b_data bh3 = b_data bh /\ buffer_uptodate bh3 = 1
    /\ io_since s s3 [PhysWrite (b_blocknr bh) (b_data bh);
                      PhysRead (b_blocknr bh)].
Proof.
  intros bh s s1 s2 s3 bh2 bh3 Hlen Hio1 Hrel Hget Hio2 Hwait.
  assert (Hd : b_dirty (mark_buffer_dirty bh 1) <> 0) by apply lor_one_nonzero.
  unfold brelse in Hrel. unfold bind at 1 in Hrel.
  rewrite (proj2 (Z.eqb_neq _ _) Hd) in Hrel. cbn [negb] in Hrel.
  rewrite ll_rw_block1_one, (write_one_ok _ _ Hd Hio1) in Hrel.
  inversion Hrel as [Hs1]. clear Hrel.
  unfold getblk, bind, e2fsck_allocate_memory in Hget.
  destruct (alloc_ok (memory s1) (allocs (memory s1))); cbn in Hget;
    [|discriminate].
  inversion Hget as [[Hbh2 Hs2]]. clear Hget.
  unfold wait_on_buffer in Hwait. rewrite <- Hbh2 in Hwait.
  cbn [b_uptodate Z.eqb] in Hwait.
  rewrite ll_rw_block1_one, read_one_ok in Hwait
    by (first [reflexivity | exact Hio2]).
  inversion Hwait as [[Hbh3 Hs3]]. clear Hwait.
  cbn [b_blocknr b_data set_b_data set_b_uptodate buffer_uptodate b_uptodate].
  rewrite <- Hs2, <- Hs1. unfold io_since. cbn.
  rewrite Z.eqb_refl, <- app_assoc. splits; auto.
  apply store_all. now rewrite repeat_length.
Qed.

(* ----------------------------------------------------------------- *)
(** ** Runs that always reach an end *)

Lemma wpx_ret {A : Type} (a : A) (Q : A -> state -> Prop) (I : state -> Prop)
      (s : state) : Q a s -> wpx (ret a) Q I s.
Proof. exact (fun H => H). Qed.

Lemma wpx_bind {A B : Type} (m : M A) (k : A -> M B)
      (Q : B -> state -> Prop) (I : state -> Prop) (s : state) :
  wpx m (fun a s' => wpx (k a) Q I s') I s -> wpx (bind m k) Q I s.
Proof. unfold wpx, bind. destruct (m s); auto. Qed.

Lemma wpx_mono {A : Type} (m : M A) (P Q : A -> state -> Prop)
      (I J : state -> Prop) (s : state) :
  wpx m P I s -> (forall a s', P a s' -> Q a s') -> (forall s', I s' -> J s') ->
  wpx m Q J s.
Proof. unfold wpx. destruct (m s); auto. Qed.

Lemma wpx_gets {A : Type} (f : state -> A) (Q : A -> state -> Prop)
      (I : state -> Prop) (s : state) : Q (f s) s -> wpx (gets f) Q I s.
Proof. exact (fun H => H). Qed.

Lemma wpx_modify (f : state -> state) (Q : unit -> state -> Prop)
      (I : state -> Prop) (s : state) : Q tt (f s) -> wpx (modify f) Q I s.
Proof. exact (fun H => H). Qed.

Lemma wpx_fix_problem (code : problem_t) (Q : bool -> state -> Prop)
      (I : state -> Prop) (s : state) :
  (answers (problems s) = [] -> I s) ->
  (forall a rest, answers (problems s) = a :: rest ->
                  Q a (asked_state code a rest s)) ->
  wpx (fix_problem code) Q I s.
Proof.
  unfold wpx, fix_problem, asked_state. intros HI HQ.
  destruct (answers (problems s)) as [|a rest]; auto.
Qed.

Lemma wpx_total {A : Type} (m : M A) (Q : A -> state -> Prop)
      (I : state -> Prop) (s : state) :
  (exists a s', m s = Done a s' /\ Q a s') -> wpx m Q I s.
Proof. intros (a & s' & E & H). unfold wpx. now rewrite E. Qed.

Lemma wpx_always {A : Type} (m : M A) (R : state -> state -> Prop)
      (Q : A -> state -> Prop) (I : state -> Prop) (s : state) :
  always m R -> (forall a s', R s s' -> Q a s') -> (forall s', R s s' -> I s') ->
  wpx m Q I s.
Proof.
  intros Hm HQ HI. unfold wpx. specialize (Hm s).
  destruct (m s); simpl in *; auto.
Qed.

Lemma wpx_always_wp {A : Type} (m : M A) (R : state -> state -> Prop)
      (P Q : A -> state -> Prop) (I : state -> Prop) (s : state) :
  always m R -> wp m P s ->
  (forall a s', R s s' -> P a s' -> Q a s') -> (forall s', R s s' -> I s') ->
  wpx m Q I s.
Proof.
  intros Hm HP HQ HI. unfold wpx, wp in *. specialize (Hm s).
  destruct (m s); simpl in *; auto.
Qed.

Lemma wpx_final {A : Type} (m : M A) (R : state -> Prop) (s : state) :
  wpx m (fun _ s' => R s') R s -> R (final_state (m s)).
Proof. unfold wpx. destruct (m s); auto. Qed.

Lemma wpx_Done {A : Type} (m : M A) (Q : A -> state -> Prop) (I : state -> Prop)
      (s s' : state) (a : A) :
  wpx m Q I s -> m s = Done a s' -> Q a s'.
Proof. unfold wpx. intros H E. now rewrite E in H. Qed.

(* ----------------------------------------------------------------- *)
(** ** Clearing the recovery flag *)

Lemma clear_flag_idem (v m : Z) : clear_flag (clear_flag v m) m = clear_flag v m.
Proof. unfold clear_flag. now rewrite <- Z.land_assoc, Z.land_diag. Qed.

Lemma clear_flag_bits (v m : Z) (n : Z) :
  Z.testbit m n = false -> Z.testbit (clear_flag v m) n = Z.testbit v n.
Proof.
  intros H. unfold clear_flag.
  destruct (Z.ltb_spec n 0) as [Hn|Hn].
  - now rewrite !Z.testbit_neg_r.
  - rewrite Z.land_spec, Z.lnot_spec, H by assumption. cbn. apply andb_true_r.
Qed.

Lemma lor_idem (v m : Z) : Z.lor (Z.lor v m) m = Z.lor v m.
Proof. now rewrite <- Z.lor_assoc, Z.lor_diag. Qed.

Lemma has_flag_lor_l (v m k : Z) : k <> 0 -> has_flag (Z.lor v (Z.lor k m)) k = true.
Proof.
  intros Hk. rewrite Z.lor_assoc. rewrite (Z.lor_comm (Z.lor v k) m), Z.lor_assoc.
  now apply has_flag_set.
Qed.

Lemma has_flag_lor_r (v m k : Z) : m <> 0 -> has_flag (Z.lor v (Z.lor k m)) m = true.
Proof. intros Hm. rewrite Z.lor_assoc. now apply has_flag_set. Qed.

(** X9: [e2fsck_clear_recover] always returns.  It clears the
    needs-recovery bit of [s_feature_incompat] and no other bit of it, clears
    the valid bit of [s_state] exactly when [error] is set, leaves every
    other field of the superblock as it was, marks the superblock dirty, and
    a second call changes nothing more. *)
Theorem clear_recover_clears_only :
  forall (error : bool) (s : state),
    exists s',
      e2fsck_clear_recover error s = Done tt s'
      /\ recov s' = false
      /\ (forall n, Z.testbit EXT3_FEATURE_INCOMPAT_RECOVER n = false ->
                    Z.testbit (s_feature_incompat (sbof s')) n
                    = Z.testbit (s_feature_incompat (sbof s)) n)
      /\ s_state (sbof s') =
           (if error then clear_flag (s_state (sbof s)) EXT2_VALID_FS
            else s_state (sbof s))
      /\ sbof s' =
           set_s_state (s_state (sbof s'))
             (set_s_feature_incompat (s_feature_incompat (sbof s')) (sbof s))
      /\ super_dirty s'
      /\ e2fsck_clear_recover error s' = Done tt s'.
Proof.
  intros error s.
  cbv beta iota zeta delta
    [e2fsck_clear_recover bind ret gets modify update_sb ext2fs_mark_super_dirty].
  destruct error; cbn; (eexists; split; [reflexivity|]);
    unfold recov, super_dirty, sbof; cbn;
    rewrite ?clear_flag_idem, ?lor_idem;
    splits; auto using has_flag_clear_flag, clear_flag_bits;
    try (apply has_flag_lor_l; discriminate);
    change 6 with (Z.lor EXT2_FLAG_DIRTY EXT2_FLAG_CHANGED);
    first [apply has_flag_lor_l; discriminate | apply has_flag_lor_r; discriminate].
Qed.

(* ----------------------------------------------------------------- *)
(** ** Building the journal handle *)

Lemma init_inode_run (ino : Z) (s : state) :
  exists r s',
    e2fsck_journal_init_inode ino s = Done r s'
    /\ same_ctx s s' /\ device s' = device s /\ inodes s' = inodes s
    /\ match r with
       | inl e => is_err e = true /\ outstanding s' = outstanding s
       | inr j =>
           outstanding s' = add3 (outstanding s)
           /\ j_inode j = Some {| i_ino := ino;
                                  i_ext2 := snd (inode_table (inodes s) ino) |}
           /\ is_err (int_of_errcode (fst (inode_table (inodes s) ino))) = false
           /\ j_blocksize j = blocksize (fs (ctx s))
           /\ j_maxlen j = i_size (snd (inode_table (inodes s) ino))
                           / blocksize (fs (ctx s))
           /\ b_blocknr (j_sb_buffer j) = snd (block_map (inodes s) ino 0)
           /\ b_size (j_sb_buffer j) = blocksize (fs (ctx s))
           /\ needs_read (j_sb_buffer j) = true
           /\ needs_write (j_sb_buffer j) = false
           /\ b_err (j_sb_buffer j) = OK
       end.
Proof.
  unfold e2fsck_journal_init_inode, getblk, bmap, ext2fs_bmap, ext2fs_read_inode.
  cbv beta iota zeta delta
    [bind ret gets modify com_err e2fsck_allocate_memory ext2fs_free_mem].
  destruct (alloc_ok (memory s) (allocs (memory s))) eqn:A1; cbn.
  2: { eexists _, _. split; [reflexivity|].
       unfold same_ctx, outstanding. cbn. splits; auto. }
  destruct (alloc_ok (memory s) (S (allocs (memory s)))) eqn:A2; cbn.
  2: { eexists _, _. split; [reflexivity|].
       unfold same_ctx, outstanding. cbn. splits; auto. }
  destruct (inode_table (inodes s) ino) as [e raw] eqn:Eino. cbn.
  destruct (is_err (int_of_errcode e)) eqn:Ee; cbn.
  { eexists _, _. split; [reflexivity|].
    unfold same_ctx, outstanding. cbn. splits; auto. }
  destruct (_ || _) eqn:Ebad; cbn.
  { eexists _, _. split; [reflexivity|].
    unfold same_ctx, outstanding. cbn. splits; auto. }
  destruct (block_map (inodes s) ino 0) as [rb phys] eqn:Emap. cbn.
  destruct (is_err (int_of_errcode rb)); cbn;
    (destruct (phys =? 0) eqn:Ephys; cbn;
     [ eexists _, _; split; [reflexivity|];
       unfold same_ctx, outstanding; cbn; splits; auto
     | destruct (alloc_ok (memory s) (S (S (allocs (memory s))))) eqn:A3; cbn;
       (eexists _, _; split; [reflexivity|]);
       unfold same_ctx, outstanding, needs_read, needs_write; cbn;
       splits; auto ]).
Qed.

(** X10: [e2fsck_journal_init_inode] always returns, and leaves the
    context and the device alone: it reads no block.  On every error path it
    returns an error code with nothing left allocated.  On success the
    journal handle, the inode view and the superblock buffer are allocated;
    the handle carries the inode read, the block size of the filesystem, the
    size of the inode in blocks as [j_maxlen], and a buffer for the physical
    block of the first block of the inode that is neither read nor
    dirty. *)
Theorem init_inode_frees_on_failure :
  forall (ino : Z) (s : state),
    exists r s',
      e2fsck_journal_init_inode ino s = Done r s'
      /\ same_ctx s s' /\ device s' = device s
      /\ match r with
         | inl e => is_err e = true /\ outstanding s' = outstanding s
         | inr j =>
             outstanding s' = add3 (outstanding s)
             /\ j_inode j = Some {| i_ino := ino;
                                    i_ext2 := snd (inode_table (inodes s) ino) |}
             /\ j_blocksize j = blocksize (fs (ctx s))
             /\ j_maxlen j = i_size (snd (inode_table (inodes s) ino))
                             / blocksize (fs (ctx s))
             /\ b_blocknr (j_sb_buffer j) = snd (block_map (inodes s) ino 0)
             /\ b_size (j_sb_buffer j) = blocksize (fs (ctx s))
             /\ needs_read (j_sb_buffer j) = true
             /\ needs_write (j_sb_buffer j) = false
             /\ b_err (j_sb_buffer j) = OK
         end.
Proof.
  intros ino s.
  destruct (init_inode_run ino s) as (r & s' & E & C & D & _ & H).
  exists r, s'. splits; auto.
  destruct r as [e|j]; [exact H|].
  destruct H as (H1 & H2 & _ & H3). auto.
Qed.

(** X11: with memory available and the inode readable,
    [e2fsck_journal_init_inode] yields a journal exactly when the inode has
    a link, is a regular file, holds at least [JFS_MIN_JOURNAL_BLOCKS] blocks
    and its first block maps to a block other than 0; in every other case it
    returns [EXT2_ET_BAD_INODE_NUM].  The return code of the block mapping
    plays no part. *)
Theorem init_inode_accepts_usable_inode :
  forall (ino : Z) (s : state),
    alloc_next s 0 = true -> alloc_next s 1 = true -> alloc_next s 2 = true ->
    is_err (fst (inode_table (inodes s) ino)) = false ->
    exists r s',
      e2fsck_journal_init_inode ino s = Done r s'
      /\ if journal_inode_usable (snd (inode_table (inodes s) ino))
                                 (blocksize (fs (ctx s)))
                                 (snd (block_map (inodes s) ino 0))
         then exists j, r = inr j
         else r = inl EXT2_ET_BAD_INODE_NUM.
Proof.
  intros ino s A1 A2 A3 He. unfold alloc_next in *.
  rewrite Nat.add_0_r in A1. rewrite Nat.add_1_r in A2.
  replace (allocs (memory s) + 2)%nat with (S (S (allocs (memory s)))) in A3 by lia.
  unfold journal_inode_usable.
  unfold e2fsck_journal_init_inode, getblk, bmap, ext2fs_bmap, ext2fs_read_inode.
  cbv beta iota zeta delta
    [bind ret gets modify com_err e2fsck_allocate_memory ext2fs_free_mem].
  rewrite A1. cbn. rewrite A2. cbn.
  destruct (inode_table (inodes s) ino) as [e raw] eqn:Eino. cbn in He |- *.
  rewrite (int_of_errcode_ok _ He). cbn.
  destruct (i_links_count raw =? 0); cbn;
    [eexists _, _; split; reflexivity|].
  destruct (LINUX_S_ISREG (i_mode raw)); cbn;
    [|eexists _, _; split; reflexivity].
  rewrite Z.leb_antisym.
  destruct (i_size raw / blocksize (fs (ctx s)) <? JFS_MIN_JOURNAL_BLOCKS); cbn;
    [eexists _, _; split; reflexivity|].
  destruct (block_map (inodes s) ino 0) as [rb phys] eqn:Emap. cbn.
  destruct (is_err (int_of_errcode rb)); cbn;
    (destruct (phys =? 0); cbn;
     [ eexists _, _; split; reflexivity
     | rewrite A3; cbn; eexists _, _; split; [reflexivity | eexists; reflexivity] ]).
Qed.

(* ----------------------------------------------------------------- *)
(** ** Stepping through a run that asks questions *)

(** Explicit updates of a state brought to a record, and the projections
    of a record computed. *)
Ltac norm :=
  cbv beta iota delta
    [set_ctx set_problems set_memory set_device set_calls set_diag asked_state
     set_fs set_super set_flags
     set_s_state set_s_feature_compat set_s_feature_incompat
     set_s_journal_uuid set_s_journal_inum set_s_journal_dev];
  cbn [ctx problems memory inodes device externals calls diag
       fs options superblock filesystem_name device_name program_name
       super blocksize flags io_manager
       s_state s_rev_level s_first_ino s_feature_compat s_feature_incompat
       s_journal_uuid s_journal_inum s_journal_dev
       answers asked fst snd negb andb orb].

Ltac norm_in H :=
  cbv beta iota delta
    [set_ctx set_problems set_memory set_device set_calls set_diag asked_state
     set_fs set_super set_flags
     set_s_state set_s_feature_compat set_s_feature_incompat
     set_s_journal_uuid set_s_journal_inum set_s_journal_dev] in H;
  cbn [ctx problems memory inodes device externals calls diag
       fs options superblock filesystem_name device_name program_name
       super blocksize flags io_manager
       s_state s_rev_level s_first_ino s_feature_compat s_feature_incompat
       s_journal_uuid s_journal_inum s_journal_dev
       answers asked fst snd negb andb orb] in H.

Ltac wpx_step :=
  norm;
  lazymatch goal with
  | |- wpx (ret _) _ _ _ => apply wpx_ret
  | |- wpx (bind _ _) _ _ _ => apply wpx_bind
  | |- wpx (gets _) _ _ _ => apply wpx_gets
  | |- wpx get_sb _ _ _ => apply wpx_gets
  | |- wpx (modify _) _ _ _ => apply wpx_modify
  | |- wpx (update_sb _) _ _ _ => apply wpx_modify
  | |- wpx ext2fs_mark_super_dirty _ _ _ => apply wpx_modify
  | |- wpx (printf _) _ _ _ => apply wpx_modify
  | |- wpx (com_err _ _ _) _ _ _ => apply wpx_modify
  | |- wpx (if ?c then _ else _) _ _ _ =>
      let c' := eval cbn in c in
      first [ match c' with
              | true => change c with true; cbv iota
              | false => change c with false; cbv iota
              end
            | match c with
              | context [?x] =>
                  match goal with
                  | H : x = true |- _ => rewrite H
                  | H : x = false |- _ => rewrite H
                  end
              end
            | destruct c eqn:? ]
  end.

(* ----------------------------------------------------------------- *)
(** ** Finding the journal *)

Ltac ask :=
  apply wpx_fix_problem;
  [ let H := fresh "Hnone" in intros H; norm_in H
  | let a := fresh "a" in let rest := fresh "rest" in let H := fresh "Hans" in
    intros a rest H; norm_in H; try subst; destruct a ].

Ltac since_tac :=
  unfold asked_since; norm;
  split;
  [ rewrite <- ?app_assoc; cbn [app];
    first [reflexivity | symmetry; apply app_nil_r]
  | cbn [map snd app]; first [assumption | reflexivity] ].

Lemma no_said_no_nil : ~ Exists said_no [].
Proof. intros H. inversion H. Qed.

Ltac contra_no :=
  let H := fresh in
  intros H; unfold said_no in H;
  repeat match goal with
         | H : Exists _ (_ :: _) |- _ => inversion H; clear H; subst
         | H : Exists _ [] |- _ => inversion H
         | H : snd _ = false |- _ => cbn in H; discriminate H
         end.

Ltac gj_contra :=
  let Hd := fresh in let Hu := fresh in
  intros Hd Hu;
  first [ split; reflexivity
        | exfalso;
          repeat match goal with
                 | H : negb _ = _ |- _ => rewrite ?Hd, ?Hu in H; cbn in H
                 end;
          congruence ].

Ltac gj_side Ehj :=
  unfold hasj, sbof, outstanding, said_yes; norm;
  rewrite ?Ehj; cbn [identity_codes List.length];
  first [ reflexivity | lia | solve [repeat constructor; cbn; auto]
        | gj_contra | contra_no
        | match goal with H : negb _ = false |- _ =>
            apply negb_false_iff in H; first [exact H | now apply Z.eqb_eq in H]
          end ].

Ltac gj_waits :=
  eexists; split; [since_tac|];
  unfold outstanding; norm; splits; auto; try (cbn; lia);
  repeat constructor.

Ltac gj_post Ehj :=
  eexists; split; [since_tac|]; splits; gj_side Ehj.

(** X12: [e2fsck_get_journal] asks at most two questions, about the
    journal device and the journal UUID, with the codes that go with the
    has-journal feature, and asks none when both fields are already clear, in
    which case the context is unchanged.  It never touches the device.  It
    yields a journal only when every question asked was accepted, both fields
    then being clear; whenever it returns an error nothing is left
    allocated, and the error is [EXT2_ET_UNSUPP_FEATURE] when a question was
    declined.  A run that stops for want of an answer has asked at most one
    accepted question and left nothing allocated. *)
Theorem get_journal_questions :
  forall s : state,
    wpx e2fsck_get_journal (get_journal_post s) (get_journal_waits s) s.
Proof.
  intros s. unfold e2fsck_get_journal. cbv zeta.
  assert (Hinit : forall s1 qs,
             asked_since s s1 qs -> Forall said_yes qs ->
             (List.length qs <= 2)%nat ->
             Forall (fun q => In (fst q) (identity_codes (hasj s))) qs ->
             device s1 = device s -> memory s1 = memory s ->
             (s_journal_dev (sbof s) = 0 ->
              uuid_is_null (s_journal_uuid (sbof s)) = true ->
              qs = [] /\ ctx s1 = ctx s) ->
             s_journal_dev (sbof s1) = 0 ->
             uuid_is_null (s_journal_uuid (sbof s1)) = true ->
             forall ino,
             wpx (e2fsck_journal_init_inode ino)
                 (get_journal_post s) (get_journal_waits s) s1).
  { intros s1 qs Hq Hy Hl Hc Hd Hm Hz Hdev Hu ino. apply wpx_total.
    destruct (init_inode_run ino s1) as (r & s' & E & (C1 & C2 & C3) & D & _ & H).
    exists r, s'. split; [exact E|]. exists qs.
    unfold asked_since, outstanding, sbof in *. rewrite C1, C2, D, Hd.
    splits; auto; try tauto.
    destruct r as [e|j].
    - destruct H as (He & Ho). rewrite Ho, Hm. splits; auto.
      intros Hex. exfalso. clear - Hy Hex.
      induction Hex as [q l Hn | q l _ IH]; inversion Hy; subst; auto.
      unfold said_yes, said_no in *. congruence.
    - destruct H as (Ho & _). rewrite Ho, Hm. splits; auto. }
  apply wpx_bind, wpx_gets.
  destruct (has_flag _ _) eqn:Ehj;
    unfold check_journal_dev, check_journal_uuid;
    repeat (first [wpx_step | ask]);
    lazymatch goal with
    | |- get_journal_waits _ _ => gj_waits
    | |- get_journal_post _ _ _ => gj_post Ehj
    | |- wpx (e2fsck_journal_init_inode _) _ _ _ =>
        eapply Hinit; [since_tac | gj_side Ehj ..]
    end.
Qed.

(* ----------------------------------------------------------------- *)
(** ** Repairs of the superblock *)

Lemma dirty_after_mark (f : Z) :
  has_flag (Z.lor f (Z.lor EXT2_FLAG_DIRTY EXT2_FLAG_CHANGED)) EXT2_FLAG_DIRTY = true
  /\ has_flag (Z.lor f (Z.lor EXT2_FLAG_DIRTY EXT2_FLAG_CHANGED)) EXT2_FLAG_CHANGED
     = true.
Proof.
  split; [apply has_flag_lor_l | apply has_flag_lor_r]; discriminate.
Qed.

Lemma fix_bad_inode_run (s : state) :
  wpx e2fsck_journal_fix_bad_inode (fix_bad_inode_post s) (fun s' => s' = s) s.
Proof.
  unfold e2fsck_journal_fix_bad_inode. cbv zeta.
  apply wpx_bind, wpx_gets.
  destruct (has_flag (s_feature_compat _) _) eqn:Ehj;
    destruct (Z.eqb_spec (s_journal_inum (super (fs (ctx s)))) 0) as [Einum|Einum];
    destruct (has_flag (s_feature_incompat _) _) eqn:Erec;
    unfold e2fsck_clear_recover;
    repeat (first [wpx_step | ask]);
    try reflexivity;
    unfold fix_bad_inode_post, hasj, recov, valid_fs, super_dirty, sbof, OK; norm;
    rewrite ?Ehj, ?Erec, ?has_flag_clear_flag;
    splits; auto using dirty_after_mark;
    try solve [ eexists; split; [since_tac | cbn; lia]
              | intuition (auto using dirty_after_mark; congruence) ].
Qed.

(** X13: [e2fsck_journal_fix_bad_inode] returns 0 exactly when it leaves
    the superblock with no has-journal feature, no journal inode and no
    recovery flag.  A non-zero return is [EXT2_ET_BAD_INODE_NUM] or
    [EXT2_ET_UNSUPP_FEATURE] and leaves the context as it was; a repair that
    changed the context cleared the valid bit and marked the superblock
    dirty.  The journal device and UUID, the device and the allocator are
    untouched, at most one question is asked, and a run that stops for want
    of an answer has changed nothing. *)
Theorem fix_bad_inode_returns_zero_iff_removed :
  forall s : state,
    wpx e2fsck_journal_fix_bad_inode (fix_bad_inode_post s) (fun s' => s' = s) s.
Proof. exact fix_bad_inode_run. Qed.

Lemma fix_bad_inode_again (s s' : state) :
  e2fsck_journal_fix_bad_inode s = Done OK s' ->
  e2fsck_journal_fix_bad_inode s' = Done OK s'.
Proof.
  intros H.
  pose proof (wpx_Done _ _ _ _ _ _ (fix_bad_inode_run s) H) as (Hiff & _).
  destruct (proj1 Hiff eq_refl) as (Hhj & Hinum & Hrec).
  unfold hasj, recov, sbof in *.
  unfold e2fsck_journal_fix_bad_inode, bind, get_sb, gets. cbv zeta.
  rewrite Hhj, Hinum, Hrec. reflexivity.
Qed.

(** X14: a repair by [e2fsck_journal_fix_bad_inode] that returned 0 is
    final: called again on the state it left, the function returns 0 without
    a question and without a change. *)
Theorem fix_bad_inode_idempotent :
  forall s s' : state,
    e2fsck_journal_fix_bad_inode s = Done OK s' ->
    e2fsck_journal_fix_bad_inode s' = Done OK s'.
Proof. exact fix_bad_inode_again. Qed.

(** X15: [e2fsck_journal_fix_unsupported_super] returns in one of three
    ways.  [EXT2_ET_CORRUPT_SUPERBLOCK]: the has-journal feature is set and
    the user accepted the abort question; the context is unchanged.
    [EXT2_ET_UNSUPP_FEATURE]: the context is unchanged and the superblock had
    some trace of a journal.  0: the superblock is left with no has-journal
    feature, no journal inode and no recovery flag.  It never returns
    [EXT2_ET_BAD_INODE_NUM], and a run that stops for want of an answer
    leaves the context as it was. *)
Theorem fix_unsupported_super_codes :
  forall s : state,
    wpx e2fsck_journal_fix_unsupported_super
        (fix_unsupported_super_post s) (fun s' => ctx s' = ctx s) s.
Proof.
  intros s.
  unfold e2fsck_journal_fix_unsupported_super, e2fsck_journal_fix_bad_inode.
  cbv zeta. apply wpx_bind, wpx_gets.
  destruct (has_flag (s_feature_compat _) _) eqn:Ehj;
    destruct (s_journal_inum (super (fs (ctx s))) =? 0) eqn:Einum;
    destruct (has_flag (s_feature_incompat (super (fs (ctx s))))
                       EXT3_FEATURE_INCOMPAT_RECOVER) eqn:Erec;
    unfold e2fsck_clear_recover;
    repeat (first [wpx_step | ask]);
    try reflexivity;
    unfold fix_unsupported_super_post, hasj, recov, sbof, OK; norm;
    rewrite ?Ehj, ?Erec, ?has_flag_clear_flag;
    first [apply Z.eqb_neq in Einum | apply Z.eqb_eq in Einum];
    first [ solve [left; split; [reflexivity|]; splits; auto; since_tac]
          | solve [right; left; split; [reflexivity|]; splits; auto; tauto]
          | solve [right; right; splits; auto] ].
Qed.

(* ----------------------------------------------------------------- *)
(** ** The verdicts of the load *)

(** X16: when the journal superblock has to be read and the read fails
    with a code that is not 0 in the [int retval] of [ll_rw_block],
    [e2fsck_journal_load] returns that [int], which it finds stored in the
    buffer, with the journal fields untouched; it issued that one read,
    asked no question and changed neither the context, the allocator nor any
    block. *)
Theorem load_reports_read_failure :
  forall (j : journal_t) (s : state),
    needs_read (j_sb_buffer j) = true ->
    is_err (int_of_errcode (next_io s)) = true ->
    exists s',
      e2fsck_journal_load j s =
        Done (int_of_errcode (next_io s),
              set_j_sb_buffer
                (set_b_err (int_of_errcode (next_io s)) (j_sb_buffer j)) j) s'
      /\ same_ctx s s' /\ memory s' = memory s
      /\ io_since s s' [PhysRead (b_blocknr (j_sb_buffer j))]
      /\ blocks (device s') = blocks (device s).
Proof.
  intros j s Hr Hio. unfold needs_read in Hr. apply Z.eqb_eq in Hr.
  unfold e2fsck_journal_load. unfold bind at 1.
  rewrite ll_rw_block1_one, (read_one_fail _ _ Hr Hio).
  cbv beta iota zeta delta [bind gets ret com_err modify].
  cbn [b_err set_b_err]. rewrite Hio.
  eexists. split; [reflexivity|].
  unfold same_ctx, io_since. cbn. splits; auto.
Qed.

Lemma jsb_version_cases (d : list byte) :
  jsb_version d = None \/ jsb_version d = Some 1 \/ jsb_version d = Some 2.
Proof.
  unfold jsb_version. destruct (_ =? _); auto. destruct (_ =? _); auto.
Qed.

(** X17: for a journal superblock that was read and has the magic,
    [e2fsck_journal_load] always returns, keeps the buffer read and, the
    read apart, changes nothing but the journal handle.  It returns 0 exactly when the format
    checks pass and the length on disk does not exceed the inode.  An unknown
    block type gives [EXT2_ET_UNSUPP_FEATURE]; for a version 2 superblock an
    unknown incompatible feature gives [EXT2_ET_UNSUPP_FEATURE] and, failing
    that, an unknown read-only feature [EXT2_ET_RO_UNSUPP_FEATURE], both
    before the block size and the length are looked at; only then can
    [EXT2_ET_CORRUPT_SUPERBLOCK] be returned. *)
Theorem load_checks_format_before_geometry :
  forall (j : journal_t) (s s1 : state) (jbh : buffer_head),
    ll_rw_block1 READ (j_sb_buffer j) s = Done jbh s1 ->
    is_err (b_err jbh) = false ->
    get_be32 off_h_magic (b_data jbh) = JFS_MAGIC_NUMBER ->
    exists r j' s',
      e2fsck_journal_load j s = Done (r, j') s'
      /\ load_good_magic_post j jbh s1 r j' s'.
Proof.
  intros j s s1 jbh Hread Herr Hmagic.
  unfold e2fsck_journal_load, bind at 1. rewrite Hread.
  cbv beta iota zeta delta [bind gets ret com_err modify].
  rewrite Herr. apply Z.eqb_eq in Hmagic. rewrite Hmagic. cbn [negb].
  unfold load_good_magic_post, format_checks_pass.
  rewrite Herr, Hmagic. cbn [negb andb].
  destruct (jsb_version_cases (b_data jbh)) as [Ev | [Ev | Ev]]; rewrite Ev.
  - eexists _, _, _. split; [reflexivity|]. unfold OK.
    cbn. splits; auto; try discriminate; intuition discriminate.
  - unfold JFS_HAS_FEATURE.
    cbn [j_format_version set_j_format_version set_j_sb_buffer Z.leb Z.compare
         Pos.compare Pos.compare_cont andb negb j_blocksize j_maxlen j_sb_buffer].
    destruct (get_be32 off_s_blocksize (b_data jbh) =? j_blocksize j mod 4294967296);
      cbn [negb].
    + destruct (get_be32 off_s_maxlen (b_data jbh) <? j_maxlen j) eqn:E1.
      * eexists _, _, _. split; [reflexivity|]. unfold OK. cbn.
        apply Z.ltb_lt in E1.
        splits; auto; try discriminate; intuition (try discriminate; try lia).
      * destruct (j_maxlen j <? get_be32 off_s_maxlen (b_data jbh)) eqn:E2;
          (eexists _, _, _; split; [reflexivity|]); unfold OK; cbn;
          apply Z.ltb_ge in E1;
          first [apply Z.ltb_lt in E2 | apply Z.ltb_ge in E2];
          splits; auto; try discriminate; intuition (try discriminate; try lia).
    + eexists _, _, _. split; [reflexivity|]. unfold OK. cbn.
      splits; auto; try discriminate; intuition discriminate.
  - unfold JFS_HAS_FEATURE.
    cbn [j_format_version set_j_format_version set_j_sb_buffer Z.leb Z.compare
         Pos.compare Pos.compare_cont andb negb j_blocksize j_maxlen j_sb_buffer].
    destruct (negb (Z.land (get_be32 off_s_feature_incompat (b_data jbh))
                           (Z.lnot JFS_KNOWN_INCOMPAT_FEATURES) =? 0)) eqn:Ei.
    { eexists _, _, _. split; [reflexivity|]. unfold OK. cbn.
      splits; auto; try discriminate; intuition discriminate. }
    destruct (negb (Z.land (get_be32 off_s_feature_ro_compat (b_data jbh))
                           (Z.lnot JFS_KNOWN_ROCOMPAT_FEATURES) =? 0)) eqn:Er.
    { eexists _, _, _. split; [reflexivity|]. unfold OK. cbn.
      splits; auto; try discriminate; intuition discriminate. }
    cbn [negb andb].
    destruct (get_be32 off_s_blocksize (b_data jbh) =? j_blocksize j mod 4294967296);
      cbn [negb].
    + destruct (get_be32 off_s_maxlen (b_data jbh) <? j_maxlen j) eqn:E1.
      * eexists _, _, _. split; [reflexivity|]. unfold OK. cbn.
        apply Z.ltb_lt in E1.
        splits; auto; try discriminate; intuition (try discriminate; try lia).
      * destruct (j_maxlen j <? get_be32 off_s_maxlen (b_data jbh)) eqn:E2;
          (eexists _, _, _; split; [reflexivity|]); unfold OK; cbn;
          apply Z.ltb_ge in E1;
          first [apply Z.ltb_lt in E2 | apply Z.ltb_ge in E2];
          splits; auto; try discriminate; intuition (try discriminate; try lia).
    + eexists _, _, _. split; [reflexivity|]. unfold OK. cbn.
      splits; auto; try discriminate; intuition discriminate.
Qed.

Lemma is_err_OK_inv (r : errcode_t) : r = OK -> is_err r = false.
Proof. intros ->. reflexivity. Qed.

Lemma read_uptodate (bh : buffer_head) (s : state) :
  b_uptodate bh <> 0 -> ll_rw_block1 READ bh s = Done bh s.
Proof.
  intros H. rewrite ll_rw_block1_one. apply ll_rw_block_one_idle.
  unfold transfers, needs_read. cbn. apply Z.eqb_neq in H. now rewrite H.
Qed.

(** The buffer [ll_rw_block1 READ] returns without an error is up to
    date. *)
Lemma read_settled (bh bh' : buffer_head) (s s' : state) :
  ll_rw_block1 READ bh s = Done bh' s' ->
  is_err (b_err bh') = false -> b_uptodate bh' <> 0.
Proof.
  intros E Herr. rewrite ll_rw_block1_one in E.
  destruct (ll_rw_block_one_run READ bh s) as (bh2 & s2 & E2 & _ & _ & _ & S2).
  rewrite E in E2. inversion E2; subst bh2 s2.
  destruct S2 as (_ & _ & Hr & _). destruct (Hr eq_refl); congruence.
Qed.

(** X18: a load that returned 0 can be repeated: loading the journal it
    produced, in the state it left, returns 0 again with the same journal,
    reads nothing, asks nothing and changes nothing. *)
Theorem load_idempotent :
  forall (j j1 : journal_t) (s s1 : state),
    e2fsck_journal_load j s = Done (OK, j1) s1 ->
    e2fsck_journal_load j1 s1 = Done (OK, j1) s1.
Proof.
  intros j j1 s s1 H.
  unfold e2fsck_journal_load in H. unfold bind at 1 in H.
  destruct (ll_rw_block1 READ (j_sb_buffer j) s) as [jbh s0| |] eqn:Eread;
    try discriminate.
  cbv beta iota zeta delta [bind gets ret com_err modify] in H.
  destruct (is_err (b_err jbh)) eqn:Eerr.
  { inversion H as [[Hr Hj Hs]]. rewrite Hr in Eerr. discriminate. }
  pose proof (read_settled _ _ _ _ Eread Eerr) as Hup.
  assert (Hagain : forall j', j_sb_buffer j' = jbh -> forall s',
             ll_rw_block1 READ (j_sb_buffer j') s' = Done jbh s').
  { intros j' -> s'. now apply read_uptodate. }
  destruct (negb (get_be32 off_h_magic (b_data jbh) =? JFS_MAGIC_NUMBER)) eqn:Emagic.
  { destruct (e2fsck_journal_fix_bad_inode s0) as [r s2| |] eqn:Efix;
      try discriminate.
    inversion H; subst r j1 s2. clear H.
    apply fix_bad_inode_again in Efix.
    unfold e2fsck_journal_load. unfold bind at 1.
    rewrite (Hagain (set_j_sb_buffer jbh j) eq_refl).
    cbv beta iota zeta delta [bind gets ret com_err modify].
    rewrite Eerr, Emagic, Efix. destruct j; reflexivity. }
  destruct (jsb_version (b_data jbh)) as [v|] eqn:Ev; [|discriminate].
  destruct (JFS_HAS_FEATURE off_s_feature_incompat _ _) eqn:Ei; [discriminate|].
  destruct (JFS_HAS_FEATURE off_s_feature_ro_compat _ _) eqn:Er; [discriminate|].
  destruct (negb (get_be32 off_s_blocksize (b_data jbh) =? _)) eqn:Eb;
    [discriminate|].
  cbn [j_maxlen set_j_format_version set_j_sb_buffer] in H.
  assert (Hfin : forall j0 : journal_t,
             j_sb_buffer j0 = jbh -> j_format_version j0 = v ->
             j_blocksize j0 = j_blocksize j ->
             j_maxlen j0 = get_be32 off_s_maxlen (b_data jbh) ->
             j_tail_sequence j0 = get_be32 off_s_sequence (b_data jbh) ->
             j_transaction_sequence j0 = get_be32 off_s_sequence (b_data jbh) ->
             j_tail j0 = get_be32 off_s_start (b_data jbh) ->
             j_first j0 = get_be32 off_s_first (b_data jbh) ->
             j_last j0 = get_be32 off_s_maxlen (b_data jbh) ->
             e2fsck_journal_load j0 s0 = Done (OK, j0) s0).
  { intros j0 Hb Hv Hbs Hm H1 H2 H3 H4 H5.
    unfold e2fsck_journal_load. unfold bind at 1.
    rewrite (Hagain _ Hb).
    cbv beta iota zeta delta [bind gets ret com_err modify].
    rewrite Eerr, Emagic, Ev.
    unfold JFS_HAS_FEATURE in *.
    cbn [j_format_version set_j_format_version set_j_sb_buffer j_sb_buffer
         j_blocksize j_maxlen] in *.
    rewrite Ei, Er, Hbs, Eb, Hm, Z.ltb_irrefl.
    destruct j0; cbn in *; subst; reflexivity. }
  destruct (get_be32 off_s_maxlen (b_data jbh) <? j_maxlen j) eqn:E1.
  - inversion H; subst j1 s1. apply Hfin; reflexivity.
  - destruct (j_maxlen j <? get_be32 off_s_maxlen (b_data jbh)) eqn:E2;
      [discriminate|].
    inversion H; subst j1 s1. apply Hfin; try reflexivity.
    cbn. apply Z.ltb_ge in E1, E2. lia.
Qed.

(* ----------------------------------------------------------------- *)
(** ** A reset journal superblock *)

Lemma get_be32_zero_tail (d : list byte) (off : nat) :
  (forall i, (off <= i < List.length d)%nat -> nth i d x00 = x00) ->
  get_be32 off d = 0.
Proof.
  intros H. unfold get_be32.
  assert (Hz : forall i, (off <= i)%nat -> nth i d x00 = x00).
  { intros i Hi. destruct (Nat.lt_ge_cases i (List.length d)).
    - apply H. lia.
    - now apply nth_overflow. }
  rewrite !Hz by lia. reflexivity.
Qed.

(** X19: the journal superblock [e2fsck_journal_reset_super] builds
    passes every check of [e2fsck_journal_load].  For a superblock buffer
    that is read, clean and as long as the block size, and a journal length
    that fits 32 bits, the reset returns without a transfer and the load of
    the journal it returns gives 0 with an empty journal: start 0, first
    block 1, sequence 1, and the length of the inode. *)
Theorem reset_super_is_loadable :
  forall (j : journal_t) (s : state),
    let bh := j_sb_buffer j in
    b_dirty bh = 0 -> b_uptodate bh <> 0 -> is_err (b_err bh) = false ->
    List.length (b_data bh) = Z.to_nat (blocksize (fs (ctx s))) ->
    (32 <= List.length (b_data bh))%nat ->
    j_blocksize j = blocksize (fs (ctx s)) ->
    0 <= j_maxlen j < 4294967296 ->
    exists j1 j2,
      e2fsck_journal_reset_super j s = Done j1 s
      /\ e2fsck_journal_load j1 s = Done (OK, j2) s
      /\ j_tail j2 = 0 /\ j_first j2 = 1
      /\ j_tail_sequence j2 = 1 /\ j_transaction_sequence j2 = 1
      /\ j_last j2 = j_maxlen j /\ j_maxlen j2 = j_maxlen j
      /\ (j_format_version j2 = 1 \/ j_format_version j2 = 2).
Proof.
  intros j s bh Hd Hu He Hlen H32 Hbs Hmax. subst bh.
  rewrite (reset_super_clean_buffer j s Hd).
  set (d' := reset_super_data (blocksize (fs (ctx s))) (j_maxlen j)
                              (b_data (j_sb_buffer j))).
  set (bh1 := set_b_data d' (j_sb_buffer j)).
  set (j1 := set_j_sb_buffer bh1 j).
  destruct (reset_super_data_fields (blocksize (fs (ctx s))) (j_maxlen j)
              (b_data (j_sb_buffer j)) Hlen H32)
    as (Hl & Hv1 & Hv2 & Hbsz & Hml & Hfirst & Hseq & Hstart & Hzero).
  fold d' in Hl, Hv1, Hv2, Hbsz, Hml, Hfirst, Hseq, Hstart, Hzero.
  assert (Hread : ll_rw_block1 READ (j_sb_buffer j1) s = Done bh1 s)
    by (apply read_uptodate; exact Hu).
  assert (Hmagic : get_be32 off_h_magic d' = JFS_MAGIC_NUMBER
                   /\ (jsb_version d' = Some 1 \/ jsb_version d' = Some 2)).
  { destruct ((get_be32 off_h_magic (b_data (j_sb_buffer j)) =? JFS_MAGIC_NUMBER)
              && (get_be32 off_h_blocktype (b_data (j_sb_buffer j))
                  =? JFS_SUPERBLOCK_V1)) eqn:Ev.
    - specialize (Hv1 eq_refl).
      apply andb_true_iff in Ev. destruct Ev as [Em Et].
      apply Z.eqb_eq in Em, Et.
      assert (E0 : get_be32 off_h_magic d'
                   = get_be32 off_h_magic (b_data (j_sb_buffer j)))
        by (apply get_be32_ext; intros i Hi; apply Hv1;
            unfold off_h_magic in Hi; lia).
      assert (E4 : get_be32 off_h_blocktype d'
                   = get_be32 off_h_blocktype (b_data (j_sb_buffer j)))
        by (apply get_be32_ext; intros i Hi; apply Hv1;
            unfold off_h_blocktype in Hi; lia).
      split; [congruence|]. left. unfold jsb_version.
      rewrite E4, Et. reflexivity.
    - destruct (Hv2 eq_refl) as (Em & Et & _).
      split; [exact Em|]. right. unfold jsb_version. rewrite Et. reflexivity. }
  destruct Hmagic as [Hmagic Hver].
  assert (Hfeat : forall off, (28 <= off)%nat -> get_be32 off d' = 0).
  { intros off Hoff. apply get_be32_zero_tail. intros i Hi. apply Hzero.
    rewrite <- Hl. lia. }
  exists j1.
  unfold e2fsck_journal_load. unfold bind at 1. rewrite Hread.
  cbv beta iota zeta delta [bind gets ret com_err modify].
  cbn [b_err bh1 set_b_data b_data]. rewrite He, Hmagic.
  cbn [Z.eqb JFS_MAGIC_NUMBER Pos.eqb negb].
  assert (Hcont : forall off jj mask,
             (28 <= off)%nat -> b_data (j_sb_buffer jj) = d' ->
             JFS_HAS_FEATURE off jj mask = false).
  { intros off jj mask Hoff Hjj. unfold JFS_HAS_FEATURE.
    rewrite Hjj, Hfeat by exact Hoff. cbn. apply andb_false_r. }
  assert (Hgeo : (get_be32 off_s_blocksize d' =? j_blocksize j mod 4294967296) = true
                 /\ get_be32 off_s_maxlen d' = j_maxlen j).
  { split; [apply Z.eqb_eq; congruence|]. rewrite Hml. now apply Z.mod_small. }
  destruct Hgeo as [Hb Hm].
  destruct Hver as [Ev | Ev]; rewrite Ev;
    rewrite !Hcont
      by (first [reflexivity
                | unfold off_s_feature_incompat, off_s_feature_ro_compat; lia]);
    cbn [j_blocksize j_maxlen set_j_format_version set_j_sb_buffer j1];
    rewrite Hb, Hm, Z.ltb_irrefl; cbn [negb];
    (eexists; split; [reflexivity|]; split; [reflexivity|]);
    cbn; rewrite ?Hstart, ?Hfirst, ?Hseq, ?Hm; auto 10.
Qed.

(* ----------------------------------------------------------------- *)
(** ** Repair of a corrupt journal superblock *)

Lemma write_one_keeps_data (bh bh' : buffer_head) (s s' : state) :
  ll_rw_block_one WRITE bh s = Done bh' s' -> b_data bh' = b_data bh.
Proof.
  destruct (Z.eq_dec (b_dirty bh) 0) as [Hd|Hd].
  - rewrite ll_rw_block_one_idle.
    + intros H. inversion H. reflexivity.
    + unfold transfers, needs_write. cbn. now rewrite Hd.
  - io_cases s.
    + rewrite (write_one_fail _ _ Hd Eint). intros H. inversion H. reflexivity.
    + rewrite (write_one_unseen _ _ Hd Eio Eint). intros H. inversion H.
      reflexivity.
    + rewrite (write_one_ok _ _ Hd Eio). intros H. inversion H. reflexivity.
Qed.

Lemma reset_super_run (j : journal_t) (s : state) :
  exists bh' s',
    e2fsck_journal_reset_super j s = Done (set_j_sb_buffer bh' j) s'
    /\ same_ctx s s' /\ memory s' = memory s
    /\ b_data bh' = reset_super_data (blocksize (fs (ctx s))) (j_maxlen j)
                                     (b_data (j_sb_buffer j)).
Proof.
  unfold e2fsck_journal_reset_super. unfold bind at 1, gets at 1.
  set (bh0 := set_b_data _ (j_sb_buffer j)).
  unfold bind. rewrite ll_rw_block1_one.
  destruct (ll_rw_block_one_run WRITE bh0 s) as (bh' & s' & E & _ & C & M & _).
  rewrite E. exists bh', s'. split; [reflexivity|].
  splits; auto. rewrite (write_one_keeps_data _ _ _ _ E). reflexivity.
Qed.

(** X20: [e2fsck_journal_fix_corrupt_super] returns 0 or
    [EXT2_ET_CORRUPT_SUPERBLOCK], the latter with context and journal as they
    were.  With the has-journal feature a return of 0 means the journal
    superblock was rebuilt, the sequence set to 1, the recovery flag cleared,
    the valid bit cleared exactly when recovery was pending, the has-journal
    feature kept and the superblock marked dirty.  Without the feature the
    journal is untouched and a return of 0 leaves no journal inode and no
    recovery flag.  The allocator is untouched, and a run that stops for want
    of an answer has changed nothing. *)
Theorem fix_corrupt_super_codes :
  forall (j : journal_t) (s : state),
    wpx (e2fsck_journal_fix_corrupt_super j)
        (fix_corrupt_super_post j s) (fun s' => s' = s) s.
Proof.
  intros j s. unfold e2fsck_journal_fix_corrupt_super. cbv zeta.
  apply wpx_bind, wpx_gets.
  destruct (has_flag (s_feature_compat _) _) eqn:Ehj.
  - apply wpx_bind. ask; [reflexivity| |].
    + apply wpx_bind, wpx_total.
      destruct (reset_super_run j
                  (asked_state PR_0_JOURNAL_BAD_SUPER true rest s))
        as (bh' & s1 & E & (C1 & C2 & C3) & M & D).
      eexists _, s1. split; [exact E|].
      destruct (has_flag (s_feature_incompat _) _) eqn:Erec;
        unfold e2fsck_clear_recover; repeat wpx_step;
        unfold fix_corrupt_super_post, hasj, recov, super_dirty, sbof, OK in *;
        norm; rewrite ?C1, ?M, ?Ehj, ?Erec, ?has_flag_clear_flag;
        norm; rewrite ?Ehj;
        cbn [j_transaction_sequence set_j_transaction_sequence j_sb_buffer
             set_j_sb_buffer];
        splits; auto using dirty_after_mark;
        try solve [intros; discriminate | intros; congruence
                  | intros; norm_in D; splits;
                    first [exact D | apply dirty_after_mark | reflexivity]].
    + repeat wpx_step.
      unfold fix_corrupt_super_post, hasj, sbof, OK; norm. rewrite Ehj.
      splits; auto; try solve [intros; discriminate | intros; congruence].
  - apply wpx_bind.
    eapply wpx_mono; [apply fix_bad_inode_run | | intros s' H; exact H].
    intros r s1 (Hiff & Herr & _ & _ & _ & _ & Hm & _).
    unfold fix_corrupt_super_post, hasj, recov, sbof, OK in *.
    assert (Hne : r <> ERRNO 0 -> ctx s1 = ctx s)
      by (intros H; now destruct (Herr H)).
    assert (Hrem : r = ERRNO 0 ->
                   s_journal_inum (super (fs (ctx s1))) = 0
                   /\ has_flag (s_feature_incompat (super (fs (ctx s1))))
                               EXT3_FEATURE_INCOMPAT_RECOVER = false)
      by (intros H; now destruct (proj1 Hiff H) as (_ & ? & ?)).
    destruct (is_err r) eqn:Er; apply wpx_ret; cbn [fst snd]; rewrite ?Ehj;
      splits; auto; try solve [intros; discriminate | intros; congruence].
    + intros _. split; [|reflexivity]. apply Hne. intros ->. discriminate.
    + intros _. split; [reflexivity|]. intros H. discriminate H.
    + intros _. split; [reflexivity|]. intros _. apply Hrem.
      destruct r; cbn [is_err] in Er; try discriminate.
      destruct (Z.eqb_spec n 0); [now subst | discriminate].
Qed.

(* ----------------------------------------------------------------- *)
(** ** What a release frees *)

Lemma release_run (j : journal_t) (reset : bool) (s : state) :
  exists s',
    e2fsck_journal_release j reset s = Done tt s'
    /\ same_ctx s s'
    /\ outstanding s' =
         (pred (live_journals (memory s)),
          match j_inode j with
          | Some _ => pred (live_inodes (memory s))
          | None => live_inodes (memory s)
          end,
          pred (live_buffers (memory s))).
Proof.
  unfold e2fsck_journal_release. unfold bind at 1, gets at 1.
  set (bh := if negb (has_flag (options (ctx s)) E2F_OPT_READONLY) then _ else _).
  destruct (brelse_run bh s) as (s1 & E & _ & (C1 & C2 & C3) & O & _).
  unfold bind at 1. rewrite E.
  unfold outstanding in O. inversion O as [[O1 O2 O3]].
  destruct (j_inode j);
    cbv beta iota zeta delta [bind ret modify ext2fs_free_mem];
    (eexists; split; [reflexivity|]);
    unfold same_ctx, outstanding; cbn; rewrite O1, O2, O3; splits; auto.
Qed.

(** X21: [e2fsck_journal_release] always returns, leaves the context
    alone, and frees the journal handle, the superblock buffer and the inode
    view if there is one, with or without [reset] and whether or not a write
    is issued or fails.  Released right after
    [e2fsck_journal_init_inode] built the journal, it leaves exactly the
    objects outstanding that were so before. *)
Theorem release_frees_what_init_allocated :
  forall (j : journal_t) (reset : bool) (s : state),
    exists s',
      e2fsck_journal_release j reset s = Done tt s'
      /\ same_ctx s s'
      /\ outstanding s' =
           (pred (live_journals (memory s)),
            match j_inode j with
            | Some _ => pred (live_inodes (memory s))
            | None => live_inodes (memory s)
            end,
            pred (live_buffers (memory s)))
      /\ (forall (ino : Z) (s0 : state),
             e2fsck_journal_init_inode ino s0 = Done (inr j) s ->
             outstanding s' = outstanding s0).
Proof.
  intros j reset s.
  destruct (release_run j reset s) as (s' & E & C & O).
  exists s'. splits; auto.
  intros ino s0 Hinit.
  destruct (init_inode_run ino s0) as (r & s1 & E1 & _ & _ & _ & H).
  rewrite Hinit in E1. inversion E1; subst r s1.
  destruct H as (Ho & Hino & _). rewrite O, Hino.
  unfold outstanding, add3 in *. inversion Ho as [[H1 H2 H3]].
  rewrite H1, H2, H3. reflexivity.
Qed.

(* ----------------------------------------------------------------- *)
(** ** Changes are marked and need consent *)

Lemma asked_since_refl (s : state) : asked_since s s [].
Proof. unfold asked_since. cbn. now rewrite app_nil_r. Qed.

Lemma asked_since_trans (s1 s2 s3 : state) (q1 q2 : list (problem_t * bool)) :
  asked_since s1 s2 q1 -> asked_since s2 s3 q2 -> asked_since s1 s3 (q1 ++ q2).
Proof.
  unfold asked_since. intros [A1 B1] [A2 B2]. split.
  - now rewrite A2, A1, app_assoc.
  - now rewrite B1, B2, map_app, app_assoc.
Qed.

Lemma footprint_refl (s : state) : footprint s s.
Proof.
  split; [now left|]. exists []. split; [apply asked_since_refl | auto].
Qed.

Lemma footprint_trans (s1 s2 s3 : state) :
  footprint s1 s2 -> footprint s2 s3 -> footprint s1 s3.
Proof.
  intros (D1 & q1 & A1 & C1) (D2 & q2 & A2 & C2). split.
  - destruct D2 as [E2|E2]; [|now right].
    destruct D1 as [E1|E1]; [left; congruence|right].
    unfold super_dirty in *. now rewrite E2.
  - exists (q1 ++ q2). split; [eapply asked_since_trans; eauto|].
    intros Hno Hro. apply Forall_app in Hno. destruct Hno as [N1 N2].
    specialize (C1 N1 Hro).
    rewrite <- C1. apply C2; [exact N2|]. unfold readonly in *. now rewrite C1.
Qed.

Lemma footprint_same_ctx (s s' : state) : same_ctx s s' -> footprint s s'.
Proof.
  intros (C1 & C2 & _). split; [now left|].
  exists []. split; [|auto]. unfold asked_since. rewrite C2. cbn.
  now rewrite app_nil_r.
Qed.

Lemma foot_quiet {A : Type} (m : M A) : always m same_ctx -> always m footprint.
Proof. apply always_weaken. exact footprint_same_ctx. Qed.

Lemma always_of_wpx {A : Type} (m : M A) (R : state -> state -> Prop) :
  (forall s, wpx m (fun _ s' => R s s') (R s) s) -> always m R.
Proof. intros H s. apply (wpx_final m (R s)), H. Qed.

Lemma said_no_yes (c : problem_t) (l : list (problem_t * bool)) :
  ~ Forall said_no ((c, true) :: l).
Proof. intros H. inversion H as [|q l' Hq _]. discriminate Hq. Qed.

Lemma said_no_skip (q : problem_t * bool) (l : list (problem_t * bool)) :
  Forall said_no (q :: l) -> Forall said_no l.
Proof. intros H. now inversion H. Qed.

(** A state reached by explicit updates leaves the footprint. *)
Ltac foot_consent :=
  let Hno := fresh "Hno" in let Hro := fresh "Hro" in
  intros Hno Hro;
  first
    [ reflexivity
    | solve [ exfalso;
              repeat match goal with
                     | H : Forall said_no ((_, true) :: _) |- _ =>
                         exact (said_no_yes _ _ H)
                     | H : Forall said_no ((_, false) :: _) |- _ =>
                         apply said_no_skip in H
                     end ]
    | solve [ exfalso; unfold readonly in Hro; norm_in Hro;
              match goal with
              | H : negb (has_flag _ E2F_OPT_READONLY) = true |- _ =>
                  rewrite Hro in H; discriminate H
              end ] ].

Ltac foot_leaf :=
  unfold footprint, super_dirty; norm; split;
  [ first [left; reflexivity | right; apply dirty_after_mark]
  | eexists; split; [since_tac | foot_consent] ].

Lemma foot_fix_bad_inode : always e2fsck_journal_fix_bad_inode footprint.
Proof.
  apply always_of_wpx. intros s.
  unfold e2fsck_journal_fix_bad_inode, e2fsck_clear_recover. cbv zeta.
  repeat (first [wpx_step | ask]); foot_leaf.
Qed.

Lemma quiet_init_revoke (j : journal_t) (n : Z) :
  always (journal_init_revoke j n) same_ctx.
Proof. intros s. cbn. repeat split; reflexivity. Qed.

Lemma quiet_journal_recover (j : journal_t) : always (journal_recover j) same_ctx.
Proof.
  intros s. unfold journal_recover, bind, modify. cbv zeta.
  destruct (journal_recover_result _ _ _) as [[r j'] b']. cbn.
  repeat split; reflexivity.
Qed.

Lemma quiet_get_sb : always get_sb same_ctx.
Proof. intros s. apply same_ctx_refl. Qed.

Create HintDb foot.
#[local] Hint Resolve foot_fix_bad_inode : foot.
#[local] Hint Resolve quiet_init_revoke quiet_journal_recover quiet_get_sb : quiet.

(** A call that leaves the context alone, inside a run from [s]. *)
Ltac foot_call :=
  eapply (wpx_always _ same_ctx);
  [ solve [auto with quiet]
  | let C := fresh "C" in
    intros ? ? C; destruct C as (?C1 & ?C2 & _)
  | let C := fresh "C" in
    intros ? C; destruct C as (?C1 & ?C2 & _) ].

Ltac foot_leaf_after :=
  match goal with
  | C1 : ctx ?s' = _, C2 : problems ?s' = _ |- footprint _ ?s' =>
      norm_in C1; norm_in C2;
      unfold footprint, super_dirty, asked_since, readonly;
      rewrite C1, C2; norm; split;
      [ first [left; reflexivity | right; apply dirty_after_mark]
      | eexists; split; [since_tac | foot_consent] ]
  end.

Lemma foot_get_journal : always e2fsck_get_journal footprint.
Proof.
  apply always_of_wpx. intros s.
  unfold e2fsck_get_journal, check_journal_dev, check_journal_uuid. cbv zeta.
  repeat (first [wpx_step | ask]);
    lazymatch goal with
    | |- footprint _ _ => foot_leaf
    | |- wpx (e2fsck_journal_init_inode _) _ _ _ => idtac
    end.
  all: foot_call; foot_leaf_after.
Qed.

#[local] Hint Resolve foot_get_journal : foot.

Ltac foot_auto :=
  repeat first
    [ solve [auto with foot]
    | solve [apply foot_quiet; auto with quiet]
    | apply always_ret; exact footprint_refl
    | apply always_bind; [exact footprint_trans | | intros ?]
    | match goal with
      | |- always (match ?x with _ => _ end) _ => destruct x
      end ].

Lemma foot_load (j : journal_t) : always (e2fsck_journal_load j) footprint.
Proof. unfold e2fsck_journal_load. foot_auto. Qed.

Lemma foot_fix_corrupt_super (j : journal_t) :
  always (e2fsck_journal_fix_corrupt_super j) footprint.
Proof.
  apply always_of_wpx. intros s.
  unfold e2fsck_journal_fix_corrupt_super, e2fsck_clear_recover. cbv zeta.
  apply wpx_bind, wpx_gets.
  destruct (has_flag (s_feature_compat _) _) eqn:Ehj.
  - apply wpx_bind. ask; [foot_leaf| |repeat wpx_step; foot_leaf].
    apply wpx_bind. foot_call; [|foot_leaf_after].
    cbv zeta.
    destruct (has_flag (s_feature_incompat (super (fs (ctx s)))) _) eqn:Erec;
      repeat wpx_step.
    all: unfold footprint, super_dirty, asked_since, readonly; cbn;
      rewrite ?C1, ?C2; norm; (split; [right; apply dirty_after_mark|]);
      (eexists; split; [since_tac | foot_consent]).
  - apply wpx_bind.
    apply (wpx_always _ footprint); [apply foot_fix_bad_inode | |auto].
    intros r s1 H. destruct (is_err r); apply wpx_ret; exact H.
Qed.

#[local] Hint Resolve foot_load foot_fix_corrupt_super : foot.

Lemma foot_no_has_journal (fuel : nat) : always (no_has_journal fuel) footprint.
Proof.
  induction fuel as [|fuel IH]; [intros s; apply footprint_refl|].
  apply always_of_wpx. intros s.
  cbn [no_has_journal]. unfold e2fsck_clear_recover. cbv zeta.
  repeat (first [wpx_step | ask]);
    lazymatch goal with
    | |- footprint _ _ => foot_leaf
    | |- wpx (no_has_journal _) _ _ _ => idtac
    end.
  all: apply (wpx_always _ footprint); [exact IH | intros u s' H | intros s' H];
    (eapply footprint_trans; [|exact H]); foot_leaf.
Qed.

#[local] Hint Resolve foot_no_has_journal : foot.

Lemma foot_check_journal_flags (j : journal_t) (r : errcode_t) :
  always (check_journal_flags j r) footprint.
Proof.
  unfold check_journal_flags.
  apply always_bind; [exact footprint_trans | foot_auto | intros fuel].
  apply always_bind; [exact footprint_trans | foot_auto | intros u].
  apply always_bind; [exact footprint_trans | foot_auto | intros sb].
  apply always_bind; [exact footprint_trans | | intros reset; foot_auto].
  destruct (_ && _); [|foot_auto].
  apply always_of_wpx. intros s.
  repeat (first [wpx_step | ask]); foot_leaf.
Qed.

#[local] Hint Resolve foot_check_journal_flags : foot.

Lemma foot_check : always e2fsck_check_ext3_journal footprint.
Proof. unfold e2fsck_check_ext3_journal. foot_auto. Qed.

Lemma foot_recover : always recover_ext3_journal footprint.
Proof. unfold recover_ext3_journal. foot_auto. Qed.

(* ----------------------------------------------------------------- *)
(** ** A read-only check reads only *)

Lemma reads_only_refl (s : state) : reads_only s s.
Proof. split; [reflexivity|]. exists []. split; [apply io_since_refl | reflexivity]. Qed.

Lemma reads_only_trans (s1 s2 s3 : state) :
  reads_only s1 s2 -> reads_only s2 s3 -> reads_only s1 s3.
Proof.
  intros (B1 & e1 & I1 & W1) (B2 & e2 & I2 & W2). split; [congruence|].
  exists (e1 ++ e2). split; [eapply io_since_trans; eauto|].
  rewrite writes_app. lia.
Qed.

Lemma reads_only_same_device (s s' : state) : device s' = device s -> reads_only s s'.
Proof.
  intros H. split; [now rewrite H|]. exists []. unfold io_since.
  rewrite H, app_nil_r. auto.
Qed.

Create HintDb ro.

Ltac ro_prim :=
  intros s; apply reads_only_same_device;
  cbv beta delta [final_state]; simpl;
  repeat match goal with
         | |- context [if ?b then _ else _] => destruct b
         | |- context [match ?x with _ => _ end] => destruct x
         end;
  reflexivity.

Lemma ro_gets {A : Type} (f : state -> A) : always (gets f) reads_only.
Proof. ro_prim. Qed.
Lemma ro_com_err (w : string) (c : errcode_t) (t : string) :
  always (com_err w c t) reads_only.
Proof. ro_prim. Qed.
Lemma ro_printf (t : string) : always (printf t) reads_only.
Proof. ro_prim. Qed.
Lemma ro_allocate (k : obj_kind) : always (e2fsck_allocate_memory k) reads_only.
Proof. unfold e2fsck_allocate_memory. ro_prim. Qed.
Lemma ro_free (k : obj_kind) : always (ext2fs_free_mem k) reads_only.
Proof. ro_prim. Qed.
Lemma ro_get_sb : always get_sb reads_only.
Proof. ro_prim. Qed.
Lemma ro_update_sb (f : ext2_super_block -> ext2_super_block) :
  always (update_sb f) reads_only.
Proof. ro_prim. Qed.
Lemma ro_mark_super_dirty : always ext2fs_mark_super_dirty reads_only.
Proof. ro_prim. Qed.
Lemma ro_fix_problem (code : problem_t) : always (fix_problem code) reads_only.
Proof.
  intros s. apply reads_only_same_device. unfold fix_problem.
  destruct (answers (problems s)); reflexivity.
Qed.
Lemma ro_ext2fs_bmap (ino block : Z) : always (ext2fs_bmap ino block) reads_only.
Proof. ro_prim. Qed.
Lemma ro_read_inode (ino : Z) : always (ext2fs_read_inode ino) reads_only.
Proof. ro_prim. Qed.
Lemma ro_read_blk (blk : Z) (buf : list byte) :
  always (io_channel_read_blk blk buf) reads_only.
Proof.
  intros s. cbn. split; [reflexivity|].
  exists [PhysRead blk]. split; reflexivity.
Qed.
Lemma ro_init_revoke (j : journal_t) (n : Z) :
  always (journal_init_revoke j n) reads_only.
Proof. ro_prim. Qed.

#[local] Hint Resolve ro_gets ro_com_err ro_printf ro_allocate ro_free ro_get_sb
  ro_update_sb ro_mark_super_dirty ro_fix_problem ro_ext2fs_bmap ro_read_inode
  ro_read_blk ro_init_revoke : ro.

Ltac ro_auto :=
  repeat first
    [ solve [auto with ro]
    | apply always_ret; exact reads_only_refl
    | apply always_bind; [exact reads_only_trans | | intros ?]
    | match goal with
      | |- always (match ?x with _ => _ end) _ => destruct x
      | |- always (if ?x then _ else _) _ => destruct x
      end ].

Lemma ro_bmap (inode : inode_t) (block : Z) : always (bmap inode block) reads_only.
Proof. unfold bmap. ro_auto. Qed.
Lemma ro_getblk (blocknr bsize : Z) : always (getblk blocknr bsize) reads_only.
Proof. unfold getblk. ro_auto. Qed.
Lemma ro_clear_recover (error : bool) :
  always (e2fsck_clear_recover error) reads_only.
Proof. unfold e2fsck_clear_recover. ro_auto. Qed.
#[local] Hint Resolve ro_bmap ro_getblk ro_clear_recover : ro.

Lemma ro_init_inode (ino : Z) : always (e2fsck_journal_init_inode ino) reads_only.
Proof. unfold e2fsck_journal_init_inode. ro_auto. Qed.
Lemma ro_fix_bad_inode : always e2fsck_journal_fix_bad_inode reads_only.
Proof. unfold e2fsck_journal_fix_bad_inode. ro_auto. Qed.
#[local] Hint Resolve ro_init_inode ro_fix_bad_inode : ro.

Lemma ro_check_journal_dev (code : problem_t) (k : M (errcode_t + journal_t)) :
  always k reads_only -> always (check_journal_dev code k) reads_only.
Proof. intros Hk. unfold check_journal_dev. ro_auto. Qed.
Lemma ro_check_journal_uuid (code : problem_t) (k : M (errcode_t + journal_t)) :
  always k reads_only -> always (check_journal_uuid code k) reads_only.
Proof. intros Hk. unfold check_journal_uuid. ro_auto. Qed.

Lemma ro_get_journal : always e2fsck_get_journal reads_only.
Proof.
  assert (Hrest : always
            (check_journal_dev PR_0_JOURNAL_BAD_DEV
               (check_journal_uuid PR_0_JOURNAL_BAD_UUID
                  (sb <- get_sb ;;
                   e2fsck_journal_init_inode (s_journal_inum sb)))) reads_only).
  { apply ro_check_journal_dev, ro_check_journal_uuid. ro_auto. }
  unfold e2fsck_get_journal. cbv zeta.
  apply always_bind; [exact reads_only_trans | auto with ro | intros sb].
  destruct (has_flag _ _); [|exact Hrest].
  apply ro_check_journal_dev, ro_check_journal_uuid.
  apply always_bind; [exact reads_only_trans | auto with ro | intros sb'].
  destruct (_ =? _); [ro_auto | exact Hrest].
Qed.

Lemma ro_read (bh : buffer_head) : always (ll_rw_block1 READ bh) reads_only.
Proof.
  unfold ll_rw_block1. cbn [ll_rw_block]. unfold ll_rw_block_one.
  cbn [Z.eqb READ WRITE andb]. ro_auto.
Qed.

Lemma ro_write_clean (bh : buffer_head) :
  b_dirty bh = 0 -> always (ll_rw_block1 WRITE bh) reads_only.
Proof.
  intros Hd s. rewrite ll_rw_block1_one, ll_rw_block_one_idle.
  - apply reads_only_refl.
  - unfold transfers, needs_write. cbn. now rewrite Hd.
Qed.

#[local] Hint Resolve ro_get_journal ro_read : ro.

Lemma ro_load (j : journal_t) : always (e2fsck_journal_load j) reads_only.
Proof. unfold e2fsck_journal_load. ro_auto. Qed.

Lemma ro_no_has_journal (fuel : nat) : always (no_has_journal fuel) reads_only.
Proof.
  induction fuel as [|fuel IH]; [intros s; apply reads_only_refl|].
  cbn [no_has_journal]. ro_auto.
Qed.

#[local] Hint Resolve ro_load ro_no_has_journal : ro.

Lemma ro_fix_corrupt_super_clean (j : journal_t) :
  b_dirty (j_sb_buffer j) = 0 ->
  always (e2fsck_journal_fix_corrupt_super j) reads_only.
Proof.
  intros Hd. unfold e2fsck_journal_fix_corrupt_super, e2fsck_journal_reset_super.
  pose proof (fun d => ro_write_clean (set_b_data d (j_sb_buffer j)) Hd) as Hw.
  ro_auto.
Qed.

Lemma ro_release_clean (j : journal_t) (reset : bool) (s : state) :
  readonly s = true -> b_dirty (j_sb_buffer j) = 0 ->
  reads_only s (final_state (e2fsck_journal_release j reset s)).
Proof.
  intros Hro Hd. unfold readonly in Hro.
  apply reads_only_same_device.
  cbv beta iota zeta delta
    [e2fsck_journal_release brelse ll_rw_block1 ll_rw_block ll_rw_block_one
     io_channel_write_blk ext2fs_free_mem mark_buffer_dirty
     bind gets ret com_err modify].
  rewrite Hro. cbn. rewrite Hd. cbn.
  destruct (j_inode j); reflexivity.
Qed.

Lemma ro_check_readonly (s : state) :
  readonly s = true -> reads_only s (final_state (e2fsck_check_ext3_journal s)).
Proof.
  intros Hro. apply (wpx_final _ (reads_only s)).
  unfold e2fsck_check_ext3_journal.
  apply wpx_bind, wpx_gets. cbv zeta.
  destruct (_ && _); [apply wpx_ret, reads_only_refl|].
  apply wpx_bind.
  apply (wpx_always_wp _ (fun a b => reads_only a b /\ same_ids a b)
                       (get_journal_summary s));
    [ apply always_conj; [apply ro_get_journal | apply ids_get_journal]
    | apply get_journal_sum | | intros s1 [H _]; exact H ].
  intros r s1 (Hio1 & Hid1) (_ & Hr).
  assert (Hro1 : readonly s1 = true)
    by (rewrite (same_ids_readonly s s1 Hid1); exact Hro).
  assert (Hback : forall s2, reads_only s1 s2 -> reads_only s s2)
    by (intros s2 H; eapply reads_only_trans; eauto).
  destruct r as [e | j].
  - assert (Hother : wpx (ret e) (fun _ s' => reads_only s s') (reads_only s) s1)
      by (apply wpx_ret; exact Hio1).
    destruct e; try exact Hother.
    apply (wpx_always _ reads_only); [apply ro_fix_bad_inode | |]; auto.
  - destruct Hr as (_ & _ & _ & Hd).
    apply wpx_bind.
    apply (wpx_always_wp _ (fun a b => reads_only a b /\ same_ids a b)
             (fun rj _ => b_dirty (j_sb_buffer (snd rj)) = b_dirty (j_sb_buffer j)));
      [ apply always_conj; [apply ro_load | apply ids_load]
      | eapply wp_mono; [apply load_sum | intros a s' H; apply H]
      | | intros s2 [H _]; auto ].
    intros [r2 j2] s2 (Hio2 & Hid2) Hd2. cbn [snd] in Hd2.
    assert (Hclean : b_dirty (j_sb_buffer j2) = 0) by congruence.
    assert (Hro2 : readonly s2 = true)
      by (rewrite (same_ids_readonly s1 s2 Hid2); exact Hro1).
    assert (Hback2 : forall s3, reads_only s2 s3 -> reads_only s s3)
      by (intros s3 H; eapply Hback, reads_only_trans; eauto).
    destruct (is_err r2).
    + assert (Hother : wpx (ret r2) (fun _ s' => reads_only s s') (reads_only s) s2)
        by (apply wpx_ret; apply Hback2, reads_only_refl).
      destruct r2; try exact Hother.
      apply wpx_bind.
      apply (wpx_always _ reads_only);
        [apply ro_fix_corrupt_super_clean; exact Hclean | | auto].
      intros [r3 j3] s3 H3. apply wpx_ret. auto.
    + unfold check_journal_flags.
      apply wpx_bind, wpx_gets. apply wpx_bind.
      apply (wpx_always _ (fun a b => reads_only a b /\ same_ids a b));
        [ apply always_conj; [apply ro_no_has_journal | apply ids_no_has_journal]
        | | intros s3 [H _]; auto ].
      intros u s3 (Hio3 & Hid3).
      apply wpx_bind, wpx_gets. apply wpx_bind.
      assert (Hblock : forall (m : M bool),
                 always m reads_only -> always m same_ids ->
                 wpx m (fun reset s5 =>
                          wpx (e2fsck_journal_release j2 reset ;; ret r2)
                              (fun _ s' => reads_only s s') (reads_only s) s5)
                     (reads_only s) s3).
      { intros m Hm1 Hm2.
        apply (wpx_always _ (fun a b => reads_only a b /\ same_ids a b));
          [ apply always_conj; assumption | | ].
        - intros reset s4 (Hio4 & Hid4).
          assert (Hro4 : readonly s4 = true).
          { rewrite (same_ids_readonly s3 s4 Hid4), (same_ids_readonly s2 s3 Hid3).
            exact Hro2. }
          pose proof (ro_release_clean j2 reset s4 Hro4 Hclean) as Hrel.
          unfold wpx, bind.
          destruct (e2fsck_journal_release j2 reset s4) as [u' s5| |];
            cbn in Hrel |- *; apply Hback2;
            (eapply reads_only_trans; [exact Hio3|]);
            eapply reads_only_trans; eauto.
        - intros s4 (Hio4 & _). apply Hback2.
          eapply reads_only_trans; eauto. }
      apply Hblock; [ro_auto | ids_auto].
Qed.

(* ----------------------------------------------------------------- *)
(** ** What the driver may do to the superblock *)

Lemma kept_or_cleared_refl (m v : Z) : kept_or_cleared m v v.
Proof. now left. Qed.

Lemma kept_or_cleared_trans (m v1 v2 v3 : Z) :
  kept_or_cleared m v1 v2 -> kept_or_cleared m v2 v3 -> kept_or_cleared m v1 v3.
Proof.
  unfold kept_or_cleared. intros [->| ->] [->| ->]; auto.
  right. apply clear_flag_idem.
Qed.

Lemma clear_flag_lor (v m : Z) : clear_flag (Z.lor v m) m = clear_flag v m.
Proof.
  unfold clear_flag. rewrite Z.land_lor_distr_l, Z.land_lnot_diag.
  apply Z.lor_0_r.
Qed.

Lemma lor_clear_flag (v m : Z) : Z.lor (clear_flag v m) m = Z.lor v m.
Proof.
  unfold clear_flag. apply Z.bits_inj'. intros n Hn.
  rewrite !Z.lor_spec, Z.land_spec, Z.lnot_spec by assumption.
  destruct (Z.testbit v n), (Z.testbit m n); reflexivity.
Qed.

Lemma only_clears_refl (s : state) : only_clears s s.
Proof.
  unfold only_clears. splits; auto using same_ids_refl, kept_or_cleared_refl.
Qed.

Lemma only_clears_trans (s1 s2 s3 : state) :
  only_clears s1 s2 -> only_clears s2 s3 -> only_clears s1 s3.
Proof.
  unfold only_clears. cbv zeta.
  intros (I1 & N1 & R1 & F1 & A1 & B1 & C1 & D1 & E1 & U1 & G1)
         (I2 & N2 & R2 & F2 & A2 & B2 & C2 & D2 & E2 & U2 & G2).
  splits; try congruence.
  - eapply same_ids_trans; eauto.
  - eapply kept_or_cleared_trans; eauto.
  - eapply kept_or_cleared_trans; eauto.
  - unfold kept_or_cleared in *.
    destruct C1 as [[H1|H1]|H1], C2 as [[H2|H2]|H2]; rewrite H2, H1;
      rewrite ?clear_flag_idem, ?clear_flag_lor, ?lor_clear_flag, ?lor_idem; auto.
  - destruct D1 as [H1|H1], D2 as [H2|H2]; rewrite H2, ?H1; auto.
  - destruct E1 as [H1|H1], E2 as [H2|H2]; rewrite H2, ?H1; auto.
  - destruct U1 as [H1|H1], U2 as [H2|H2]; rewrite H2, ?H1; auto.
  - destruct G1 as [H1|H1], G2 as [H2|H2]; rewrite H2, ?H1; auto.
    right. apply lor_idem.
Qed.

Lemma only_clears_same_ctx (s s' : state) : same_ctx s s' -> only_clears s s'.
Proof.
  intros H. pose proof (same_ctx_ids _ _ H) as Hid. destruct H as (C & _).
  unfold only_clears, sbof, kept_or_cleared. rewrite C. splits; auto.
Qed.

Create HintDb clears.

Ltac clears_prim :=
  intros s; unfold only_clears, same_ids, sbof, kept_or_cleared; cbn;
  splits; auto.

Lemma oc_dev : always (update_sb (set_s_journal_dev 0)) only_clears.
Proof. clears_prim. Qed.
Lemma oc_uuid : always (update_sb (set_s_journal_uuid uuid_clear)) only_clears.
Proof. clears_prim. Qed.
Lemma oc_inum : always (update_sb (set_s_journal_inum 0)) only_clears.
Proof. clears_prim. Qed.
Lemma oc_valid :
  always (update_sb (fun sb =>
            set_s_state (clear_flag (s_state sb) EXT2_VALID_FS) sb)) only_clears.
Proof. clears_prim. Qed.
Lemma oc_recover :
  always (update_sb (fun sb =>
            set_s_feature_incompat
              (clear_flag (s_feature_incompat sb) EXT3_FEATURE_INCOMPAT_RECOVER) sb))
         only_clears.
Proof. clears_prim. Qed.
Lemma oc_hasj_clear :
  always (update_sb (fun sb =>
            set_s_feature_compat
              (clear_flag (s_feature_compat sb) EXT3_FEATURE_COMPAT_HAS_JOURNAL) sb))
         only_clears.
Proof. clears_prim. Qed.
Lemma oc_hasj_set :
  always (update_sb (fun sb =>
            set_s_feature_compat
              (Z.lor (s_feature_compat sb) EXT3_FEATURE_COMPAT_HAS_JOURNAL) sb))
         only_clears.
Proof. clears_prim. Qed.
Lemma oc_mark_dirty : always ext2fs_mark_super_dirty only_clears.
Proof. clears_prim. Qed.
Lemma oc_fix_problem (code : problem_t) : always (fix_problem code) only_clears.
Proof.
  intros s. unfold fix_problem. destruct (answers (problems s)); cbn;
    [apply only_clears_refl|].
  unfold only_clears, same_ids, sbof, kept_or_cleared; cbn. splits; auto.
Qed.
Lemma oc_quiet {A : Type} (m : M A) : always m same_ctx -> always m only_clears.
Proof. apply always_weaken. exact only_clears_same_ctx. Qed.
Lemma oc_get_sb : always get_sb only_clears.
Proof. apply oc_quiet, quiet_gets. Qed.
Lemma oc_printf (t : string) : always (printf t) only_clears.
Proof. intros s. apply only_clears_same_ctx. cbn. repeat split; reflexivity. Qed.

#[local] Hint Resolve oc_dev oc_uuid oc_inum oc_valid oc_recover oc_hasj_clear
  oc_hasj_set oc_mark_dirty oc_fix_problem oc_get_sb oc_printf : clears.

Ltac clears_auto :=
  repeat first
    [ solve [auto with clears]
    | solve [apply oc_quiet; auto with quiet]
    | apply always_ret; exact only_clears_refl
    | apply always_bind; [exact only_clears_trans | | intros ?]
    | match goal with
      | |- always (match ?x with _ => _ end) _ => destruct x
      | |- always (if ?x then _ else _) _ => destruct x
      end ].

Lemma oc_clear_recover (error : bool) :
  always (e2fsck_clear_recover error) only_clears.
Proof. unfold e2fsck_clear_recover. clears_auto. Qed.
#[local] Hint Resolve oc_clear_recover : clears.

Lemma oc_fix_bad_inode : always e2fsck_journal_fix_bad_inode only_clears.
Proof. unfold e2fsck_journal_fix_bad_inode. clears_auto. Qed.
#[local] Hint Resolve oc_fix_bad_inode : clears.

Lemma oc_check_journal_dev (code : problem_t) (k : M (errcode_t + journal_t)) :
  always k only_clears -> always (check_journal_dev code k) only_clears.
Proof. intros Hk. unfold check_journal_dev. clears_auto. Qed.
Lemma oc_check_journal_uuid (code : problem_t) (k : M (errcode_t + journal_t)) :
  always k only_clears -> always (check_journal_uuid code k) only_clears.
Proof. intros Hk. unfold check_journal_uuid. clears_auto. Qed.

Lemma oc_get_journal : always e2fsck_get_journal only_clears.
Proof.
  assert (Hrest : always
            (check_journal_dev PR_0_JOURNAL_BAD_DEV
               (check_journal_uuid PR_0_JOURNAL_BAD_UUID
                  (sb <- get_sb ;;
                   e2fsck_journal_init_inode (s_journal_inum sb)))) only_clears).
  { apply oc_check_journal_dev, oc_check_journal_uuid. clears_auto. }
  unfold e2fsck_get_journal. cbv zeta.
  apply always_bind; [exact only_clears_trans | auto with clears | intros sb].
  destruct (has_flag _ _); [|exact Hrest].
  apply oc_check_journal_dev, oc_check_journal_uuid.
  apply always_bind; [exact only_clears_trans | auto with clears | intros sb'].
  destruct (_ =? _); [clears_auto | exact Hrest].
Qed.
#[local] Hint Resolve oc_get_journal : clears.

Lemma oc_load (j : journal_t) : always (e2fsck_journal_load j) only_clears.
Proof. unfold e2fsck_journal_load. clears_auto. Qed.

Lemma oc_fix_corrupt_super (j : journal_t) :
  always (e2fsck_journal_fix_corrupt_super j) only_clears.
Proof. unfold e2fsck_journal_fix_corrupt_super. clears_auto. Qed.

Lemma oc_no_has_journal (fuel : nat) : always (no_has_journal fuel) only_clears.
Proof.
  induction fuel as [|fuel IH]; [intros s; apply only_clears_refl|].
  cbn [no_has_journal]. clears_auto.
Qed.
#[local] Hint Resolve oc_load oc_fix_corrupt_super oc_no_has_journal : clears.

Lemma oc_check_journal_flags (j : journal_t) (r : errcode_t) :
  always (check_journal_flags j r) only_clears.
Proof. unfold check_journal_flags. clears_auto. Qed.
#[local] Hint Resolve oc_check_journal_flags : clears.

Lemma oc_check : always e2fsck_check_ext3_journal only_clears.
Proof. unfold e2fsck_check_ext3_journal. clears_auto. Qed.

Lemma oc_recover_ext3_journal : always recover_ext3_journal only_clears.
Proof. unfold recover_ext3_journal. clears_auto. Qed.

(* ----------------------------------------------------------------- *)
(** ** The loop at no_has_journal *)

Lemma set_problems_self (s : state) (rest : list bool) :
  answers (problems s) = rest ->
  set_problems {| answers := rest; asked := asked (problems s) ++ [] |} s = s.
Proof.
  intros <-. rewrite app_nil_r. destruct s as [c p m i d e cl dg].
  destruct p. reflexivity.
Qed.

(** X26: the loop at [no_has_journal] can go round without progress.
    On a superblock with the recovery flag and without the has-journal
    feature, each time the user agrees that there is no journal and then
    declines to clear the recovery flag, both questions are asked and logged,
    nothing else changes, and the check is back where it was: [k] such pairs
    of answers use up [k] rounds and leave the state of entry but for the
    answers taken. *)
Theorem no_has_journal_undecided_rounds :
  forall (k fuel : nat) (rest : list bool) (s : state),
    hasj s = false -> recov s = true ->
    answers (problems s) = undecided k ++ rest ->
    no_has_journal (k + fuel) s =
      no_has_journal fuel
        (set_problems {| answers := rest;
                         asked := asked (problems s) ++ undecided_log k |} s).
Proof.
  induction k as [|k IH]; intros fuel rest s Hhj Hrec Hans.
  - cbn in *. now rewrite set_problems_self.
  - cbn [Nat.add no_has_journal undecided app] in *.
    unfold hasj, recov, sbof in Hhj, Hrec.
    unfold bind at 1, get_sb, gets. rewrite Hhj. cbn [negb].
    unfold bind at 1, fix_problem at 1. rewrite Hans.
    unfold bind at 1. rewrite Hrec.
    unfold bind at 1, fix_problem at 1. cbn [answers problems set_problems].
    unfold ret at 1. cbn [negb].
    rewrite IH with (rest := rest);
      [ | unfold hasj, sbof; cbn; assumption
        | unfold recov, sbof; cbn; assumption
        | reflexivity ].
    cbn [undecided_log]. f_equal.
    unfold set_problems. cbn. rewrite <- !app_assoc. reflexivity.
Qed.

Lemma wpx_returns {A : Type} (m : M A) (Q : A -> state -> Prop) (s : state) :
  wpx m Q (fun _ => False) s -> exists a s', m s = Done a s' /\ Q a s'.
Proof.
  unfold wpx. destruct (m s) as [a s'| |]; [eauto | contradiction..].
Qed.

(** X27: a user who gives the same answer to the next two questions gets
    through the code at [no_has_journal] in one round: it returns after at
    most two questions. *)
Theorem no_has_journal_unanimous :
  forall (a : bool) (rest : list bool) (fuel : nat) (s : state),
    answers (problems s) = a :: a :: rest ->
    exists s' qs,
      no_has_journal (S fuel) s = Done tt s'
      /\ asked_since s s' qs /\ (List.length qs <= 2)%nat.
Proof.
  intros a rest fuel s Hans.
  assert (H : wpx (no_has_journal (S fuel))
                  (fun _ s' => exists qs, asked_since s s' qs
                                          /\ (List.length qs <= 2)%nat)
                  (fun _ => False) s).
  { cbn [no_has_journal]. unfold e2fsck_clear_recover. cbv zeta.
    apply wpx_bind, wpx_gets.
    destruct (negb (has_flag _ _)).
    2: { apply wpx_ret. exists []. split; [apply asked_since_refl | cbn; lia]. }
    apply wpx_bind, wpx_fix_problem; [rewrite Hans; discriminate|].
    intros a1 rest1 H1. rewrite Hans in H1. inversion H1; subst a1 rest1.
    destruct a.
    - apply wpx_bind.
      destruct (has_flag (s_feature_incompat _) _).
      + apply wpx_bind, wpx_fix_problem; [discriminate|].
        intros a2 rest2 H2. norm_in H2. inversion H2; subst a2 rest2.
        repeat wpx_step.
        eexists. split; [since_tac | cbn; lia].
      + repeat wpx_step; (eexists; split; [since_tac | cbn; lia]).
    - repeat wpx_step; (eexists; split; [since_tac | cbn; lia]). }
  apply wpx_returns in H. destruct H as ([] & s' & E & qs & Hq & Hl).
  exists s', qs. auto.
Qed.

(* ----------------------------------------------------------------- *)
(** ** The replay *)

Lemma same_calls_refl (s : state) : same_calls s s.
Proof. reflexivity. Qed.

Lemma same_calls_trans (s1 s2 s3 : state) :
  same_calls s1 s2 -> same_calls s2 s3 -> same_calls s1 s3.
Proof. unfold same_calls. congruence. Qed.

Create HintDb nocall.

Ltac nocall_prim :=
  intros s; unfold same_calls;
  cbv beta delta [final_state]; simpl;
  repeat match goal with
         | |- context [if ?b then _ else _] => destruct b
         | |- context [match ?x with _ => _ end] => destruct x
         end;
  reflexivity.

Lemma nc_gets {A : Type} (f : state -> A) : always (gets f) same_calls.
Proof. nocall_prim. Qed.
Lemma nc_com_err (w : string) (c : errcode_t) (t : string) :
  always (com_err w c t) same_calls.
Proof. nocall_prim. Qed.
Lemma nc_printf (t : string) : always (printf t) same_calls.
Proof. nocall_prim. Qed.
Lemma nc_allocate (k : obj_kind) : always (e2fsck_allocate_memory k) same_calls.
Proof. unfold e2fsck_allocate_memory. nocall_prim. Qed.
Lemma nc_free (k : obj_kind) : always (ext2fs_free_mem k) same_calls.
Proof. nocall_prim. Qed.
Lemma nc_get_sb : always get_sb same_calls.
Proof. nocall_prim. Qed.
Lemma nc_update_sb (f : ext2_super_block -> ext2_super_block) :
  always (update_sb f) same_calls.
Proof. nocall_prim. Qed.
Lemma nc_mark_super_dirty : always ext2fs_mark_super_dirty same_calls.
Proof. nocall_prim. Qed.
Lemma nc_fix_problem (code : problem_t) : always (fix_problem code) same_calls.
Proof.
  intros s. unfold same_calls, fix_problem.
  destruct (answers (problems s)); reflexivity.
Qed.
Lemma nc_ext2fs_bmap (ino block : Z) : always (ext2fs_bmap ino block) same_calls.
Proof. nocall_prim. Qed.
Lemma nc_read_inode (ino : Z) : always (ext2fs_read_inode ino) same_calls.
Proof. nocall_prim. Qed.
Lemma nc_read_blk (blk : Z) (buf : list byte) :
  always (io_channel_read_blk blk buf) same_calls.
Proof. nocall_prim. Qed.
Lemma nc_write_blk (blk : Z) (buf : list byte) :
  always (io_channel_write_blk blk buf) same_calls.
Proof. nocall_prim. Qed.

#[local] Hint Resolve nc_gets nc_com_err nc_printf nc_allocate nc_free nc_get_sb
  nc_update_sb nc_mark_super_dirty nc_fix_problem nc_ext2fs_bmap nc_read_inode
  nc_read_blk nc_write_blk : nocall.

Ltac nocall_auto :=
  repeat first
    [ solve [auto with nocall]
    | apply always_ret; exact same_calls_refl
    | apply always_bind; [exact same_calls_trans | | intros ?]
    | match goal with
      | |- always (match ?x with _ => _ end) _ => destruct x
      | |- always (if ?x then _ else _) _ => destruct x
      end ].

Lemma nc_bmap (inode : inode_t) (block : Z) : always (bmap inode block) same_calls.
Proof. unfold bmap. nocall_auto. Qed.
Lemma nc_getblk (blocknr bsize : Z) : always (getblk blocknr bsize) same_calls.
Proof. unfold getblk. nocall_auto. Qed.
Lemma nc_clear_recover (error : bool) :
  always (e2fsck_clear_recover error) same_calls.
Proof. unfold e2fsck_clear_recover. nocall_auto. Qed.
Lemma nc_ll_rw_block1 (rw : Z) (bh : buffer_head) :
  always (ll_rw_block1 rw bh) same_calls.
Proof. unfold ll_rw_block1. cbn [ll_rw_block]. unfold ll_rw_block_one. nocall_auto. Qed.
#[local] Hint Resolve nc_bmap nc_getblk nc_clear_recover nc_ll_rw_block1 : nocall.

Lemma nc_init_inode (ino : Z) : always (e2fsck_journal_init_inode ino) same_calls.
Proof. unfold e2fsck_journal_init_inode. nocall_auto. Qed.
Lemma nc_fix_bad_inode : always e2fsck_journal_fix_bad_inode same_calls.
Proof. unfold e2fsck_journal_fix_bad_inode. nocall_auto. Qed.
Lemma nc_release (j : journal_t) (reset : bool) :
  always (e2fsck_journal_release j reset) same_calls.
Proof. unfold e2fsck_journal_release, brelse. nocall_auto. Qed.
#[local] Hint Resolve nc_init_inode nc_fix_bad_inode nc_release : nocall.

Lemma nc_check_journal_dev (code : problem_t) (k : M (errcode_t + journal_t)) :
  always k same_calls -> always (check_journal_dev code k) same_calls.
Proof. intros Hk. unfold check_journal_dev. nocall_auto. Qed.
Lemma nc_check_journal_uuid (code : problem_t) (k : M (errcode_t + journal_t)) :
  always k same_calls -> always (check_journal_uuid code k) same_calls.
Proof. intros Hk. unfold check_journal_uuid. nocall_auto. Qed.

Lemma nc_get_journal : always e2fsck_get_journal same_calls.
Proof.
  assert (Hrest : always
            (check_journal_dev PR_0_JOURNAL_BAD_DEV
               (check_journal_uuid PR_0_JOURNAL_BAD_UUID
                  (sb <- get_sb ;;
                   e2fsck_journal_init_inode (s_journal_inum sb)))) same_calls).
  { apply nc_check_journal_dev, nc_check_journal_uuid. nocall_auto. }
  unfold e2fsck_get_journal. cbv zeta.
  apply always_bind; [exact same_calls_trans | auto with nocall | intros sb].
  destruct (has_flag _ _); [|exact Hrest].
  apply nc_check_journal_dev, nc_check_journal_uuid.
  apply always_bind; [exact same_calls_trans | auto with nocall | intros sb'].
  destruct (_ =? _); [nocall_auto | exact Hrest].
Qed.

Lemma nc_load (j : journal_t) : always (e2fsck_journal_load j) same_calls.
Proof. unfold e2fsck_journal_load. nocall_auto. Qed.

Lemma get_journal_error (s : state) :
  wp e2fsck_get_journal
     (fun r _ => match r with inl e => is_err e = true | inr _ => True end) s.
Proof.
  eapply wp_mono; [apply get_journal_sum|].
  intros [e|j] s' (_ & H); auto.
Qed.

(** X28: [recover_ext3_journal] sets up the revoke table at most once,
    with 1024 entries, runs the recovery engine at most once and only after
    the revoke table was set up, and makes no other call: it neither closes
    nor reopens the filesystem.  When it returns having made no call, or
    only the first, it returns an error; a run that stops for want of an
    answer has made no call. *)
Theorem recover_calls_revoke_then_engine :
  forall s : state,
    wpx recover_ext3_journal (recover_post s) (same_calls s) s.
Proof.
  intros s. unfold recover_ext3_journal.
  apply wpx_bind.
  apply (wpx_always_wp _ same_calls
           (fun r _ => match r with inl e => is_err e = true | inr _ => True end));
    [apply nc_get_journal | apply get_journal_error | | auto].
  intros [e|j] s1 K1 He.
  { apply wpx_ret. exists []. rewrite app_nil_r. split; [exact K1 | auto]. }
  apply wpx_bind.
  apply (wpx_always _ same_calls); [apply nc_load | | ].
  2: { intros s2 K2. unfold same_calls in *. congruence. }
  intros [r1 j1] s2 K2.
  assert (K : calls s2 = calls s) by (unfold same_calls in *; congruence).
  destruct (is_err r1) eqn:Er1.
  { apply wpx_ret. exists []. rewrite app_nil_r. auto. }
  unfold journal_init_revoke.
  apply wpx_bind, wpx_bind, wpx_modify, wpx_gets. norm.
  match goal with
  | |- wpx (if ?c then _ else _) _ _ _ => destruct c eqn:Er2
  end.
  { apply wpx_ret. exists [CallInitRevoke 1024]. norm. rewrite K. auto. }
  apply wpx_bind. unfold journal_recover.
  apply wpx_bind, wpx_modify. apply wpx_total. cbv zeta. norm.
  match goal with
  | |- context [journal_recover_result ?e ?jj ?bb] =>
      destruct (journal_recover_result e jj bb) as [[res j2] b2]
  end.
  eexists _, _. split; [reflexivity|].
  apply wpx_bind, wpx_total.
  match goal with
  | |- exists _ _, e2fsck_journal_release _ _ ?S = _ /\ _ =>
      destruct (release_run j2 true S) as (s5 & E & _);
      pose proof (nc_release j2 true S) as K5; rewrite E in K5
  end.
  exists tt, s5. split; [exact E|]. apply wpx_ret.
  exists [CallInitRevoke 1024; CallRecover].
  unfold same_calls in K5. cbn in K5. rewrite K5, K, <- app_assoc. auto.
Qed.

(* ----------------------------------------------------------------- *)
(** ** The replay and the check, as a whole *)

(** X29: on a writable image, once the journal is found and loaded and
    the revoke table set up, [recover_ext3_journal] returns the negated
    result of the recovery engine, and whatever that result is it releases
    the journal with [reset] set: its last transfer is a write of the journal
    superblock of the journal the engine left, with the sequence of that
    journal and, for a block of at least 32 bytes, a start of 0; when the
    write succeeds the block holds it. *)
Theorem recover_marks_journal_empty :
  forall (s s1 s2 : state) (j j1 j2 : journal_t) (r1 : errcode_t)
         (res : Z) (b2 : Z -> list byte),
    readonly s2 = false ->
    e2fsck_get_journal s = Done (inr j) s1 ->
    e2fsck_journal_load j s1 = Done (r1, j1) s2 ->
    is_err r1 = false ->
    is_err (journal_init_revoke_result (externals s2) j1 1024) = false ->
    journal_recover_result (externals s2) j1 (blocks (device s2)) = (res, j2, b2) ->
    let bh := j_sb_buffer j2 in
    let data := release_data (j_transaction_sequence j2) true (b_data bh) in
    exists s',
      recover_ext3_journal s = Done (ERRNO (- res)) s'
      /\ io_log (device s') =
           io_log (device s2) ++ [PhysWrite (b_blocknr bh) data]
      /\ (is_err (next_io s2) = false -> blocks (device s') (b_blocknr bh) = data)
      /\ ((32 <= List.length (b_data bh))%nat -> get_be32 off_s_start data = 0).
Proof.
  intros s s1 s2 j j1 j2 r1 res b2 Hro Hget Hload Hr1 Hrev Heng bh data.
  subst bh data. unfold readonly in Hro.
  unfold recover_ext3_journal. unfold bind at 1. rewrite Hget.
  unfold bind at 1. rewrite Hload. rewrite Hr1.
  unfold bind at 1, journal_init_revoke, bind at 1, modify at 1, gets at 1.
  cbn [externals set_calls]. rewrite Hrev.
  unfold bind at 1, journal_recover, bind at 1, modify at 1.
  cbv zeta. cbn [externals set_calls device]. rewrite Heng.
  cbv beta iota zeta delta
    [e2fsck_journal_release brelse ll_rw_block1 ll_rw_block ll_rw_block_one
     io_channel_write_blk ext2fs_free_mem mark_buffer_dirty
     bind gets ret com_err modify].
  cbn. rewrite Hro. cbn. unfold next_io.
  destruct (is_err (io_result (device s2) (List.length (io_log (device s2)))))
    eqn:Eio;
    destruct (is_err (int_of_errcode
                        (io_result (device s2)
                                   (List.length (io_log (device s2))))));
    cbn; destruct (j_inode j2); cbn;
    (eexists; split; [reflexivity|]); cbn;
    (split; [reflexivity|]);
    (split; [first [discriminate | intros _; now rewrite Z.eqb_refl]
            | intros Hlen; now apply release_data_start_reset]).
Qed.

(** X30: on a superblock with no trace of a journal (no has-journal
    feature, no recovery flag, no journal inode, device or UUID)
    [e2fsck_check_ext3_journal] returns 0 at once: no question, no transfer,
    no allocation, the state is what it was. *)
Theorem check_skips_plain_ext2 :
  forall s : state,
    hasj s = false -> recov s = false ->
    s_journal_inum (sbof s) = 0 -> s_journal_dev (sbof s) = 0 ->
    uuid_is_null (s_journal_uuid (sbof s)) = true ->
    e2fsck_check_ext3_journal s = Done OK s.
Proof.
  intros s Hhj Hrec Hinum Hdev Hu. unfold hasj, recov, sbof in *.
  unfold e2fsck_check_ext3_journal, bind, get_sb, gets. cbv zeta.
  rewrite Hhj, Hrec, Hinum, Hdev, Hu. reflexivity.
Qed.

(** X22: however [e2fsck_check_ext3_journal] or [recover_ext3_journal]
    ends (return, abort, or waiting for an answer), a context that is not
    what it was has the superblock marked dirty and changed. *)
Theorem check_marks_superblock_dirty :
  forall s : state,
    (ctx (final_state (e2fsck_check_ext3_journal s)) = ctx s
     \/ super_dirty (final_state (e2fsck_check_ext3_journal s)))
    /\ (ctx (final_state (recover_ext3_journal s)) = ctx s
        \/ super_dirty (final_state (recover_ext3_journal s))).
Proof.
  intros s. split; [apply (foot_check s) | apply (foot_recover s)].
Qed.

(** X23: on an image opened read-only, [e2fsck_check_ext3_journal]
    changes the context only with the consent of the user: however the check
    ends, when every question it asked was declined the context is what it
    was.  The questions asked are those appended to the log, answered in
    order from the pending answers. *)
Theorem check_changes_need_consent :
  forall s : state,
    exists qs,
      asked_since s (final_state (e2fsck_check_ext3_journal s)) qs
      /\ (Forall said_no qs -> readonly s = true ->
          ctx (final_state (e2fsck_check_ext3_journal s)) = ctx s).
Proof. intros s. apply (foot_check s). Qed.

(** X24: on an image opened read-only, [e2fsck_check_ext3_journal]
    issues no write, whatever the answers of the user and however it ends:
    every block holds what it held and the transfers issued are all
    reads. *)
Theorem check_readonly_device_untouched :
  forall s : state,
    readonly s = true ->
    reads_only s (final_state (e2fsck_check_ext3_journal s)).
Proof. exact ro_check_readonly. Qed.

(** X25: the only changes [e2fsck_check_ext3_journal] and
    [recover_ext3_journal] ever make to the context, however they end: the
    recovery flag and the valid bit may be cleared, the has-journal feature
    cleared or set, the journal inode number, device and UUID zeroed, and the
    dirty flags of the filesystem set.  Options, names, revision level, first
    inode, block size and I/O manager are never touched. *)
Theorem check_only_clears :
  forall s : state,
    only_clears s (final_state (e2fsck_check_ext3_journal s))
    /\ only_clears s (final_state (recover_ext3_journal s)).
Proof. intros s. split; [apply oc_check | apply oc_recover_ext3_journal]. Qed.

(* ----------------------------------------------------------------- *)
(** ** The buffer layer and the driver at work on the sample images *)

Lemma ll_rw_block_idle_witness :
  transfers READ [Sample.loaded_buffer (Sample.good_jsb 0)] = []
  /\ ll_rw_block READ [Sample.loaded_buffer (Sample.good_jsb 0)] Sample.clean_image
     = Done [Sample.loaded_buffer (Sample.good_jsb 0)] Sample.clean_image.
Proof.
  split; [reflexivity|].
  exact (ll_rw_block_idle READ [Sample.loaded_buffer (Sample.good_jsb 0)]
                          Sample.clean_image eq_refl).
Defined.

Lemma buffer_write_read_round_trip_witness :
  exists s1 s2 s3 : state,
    brelse (mark_buffer_dirty (Sample.loaded_buffer (Sample.good_jsb 42)) 1)
           Sample.clean_image = Done tt s1
    /\ getblk 100 1024 s1 = Done (Some Sample.fresh_buffer) s2
    /\ wait_on_buffer Sample.fresh_buffer s2
       = Done (Sample.loaded_buffer (Sample.good_jsb 42)) s3
    /\ io_since Sample.clean_image s3
                [PhysWrite 100 (Sample.good_jsb 42); PhysRead 100].
Proof.
  set (bh := Sample.loaded_buffer (Sample.good_jsb 42)).
  set (s1 := final_state (brelse (mark_buffer_dirty bh 1) Sample.clean_image)).
  set (s2 := final_state (getblk 100 1024 s1)).
  set (s3 := final_state (wait_on_buffer Sample.fresh_buffer s2)).
  assert (H1 : brelse (mark_buffer_dirty bh 1) Sample.clean_image = Done tt s1)
    by (vm_compute; reflexivity).
  assert (H2 : getblk (b_blocknr bh) (b_size bh) s1
               = Done (Some Sample.fresh_buffer) s2)
    by (vm_compute; reflexivity).
  assert (H3 : wait_on_buffer Sample.fresh_buffer s2 = Done bh s3)
    by (vm_compute; reflexivity).
  assert (Hlen : List.length (b_data bh) = Z.to_nat (b_size bh))
    by (vm_compute; reflexivity).
  exists s1, s2, s3.
  split; [exact H1 | split; [exact H2 | split; [exact H3|]]].
  exact (proj2 (proj2 (buffer_write_read_round_trip
                         bh Sample.clean_image s1 s2 s3 Sample.fresh_buffer bh
                         Hlen eq_refl H1 H2 eq_refl H3))).
Defined.

Lemma init_inode_accepts_usable_inode_witness :
  journal_inode_usable Sample.regular_inode 1024 100 = true
  /\ journal_inode_usable Sample.directory_inode 1024 100 = false
  /\ (exists (j : journal_t) (s' : state),
        e2fsck_journal_init_inode 8 Sample.clean_image = Done (inr j) s')
  /\ (exists s' : state,
        e2fsck_journal_init_inode 12 Sample.directory_journal_image
        = Done (inl EXT2_ET_BAD_INODE_NUM) s').
Proof.
  split; [reflexivity | split; [reflexivity | split]].
  - destruct (init_inode_accepts_usable_inode 8 Sample.clean_image
                eq_refl eq_refl eq_refl eq_refl) as (r & s' & Hrun & Hr).
    cbn in Hr. destruct Hr as (j & ->). exists j, s'. exact Hrun.
  - destruct (init_inode_accepts_usable_inode 12 Sample.directory_journal_image
                eq_refl eq_refl eq_refl eq_refl) as (r & s' & Hrun & Hr).
    cbn in Hr. subst r. exists s'. exact Hrun.
Defined.

Lemma fix_bad_inode_idempotent_witness :
  exists s' : state,
    e2fsck_journal_fix_bad_inode Sample.stale_inode_image = Done OK s'
    /\ s_journal_inum (sbof Sample.stale_inode_image) = 8
    /\ s_journal_inum (sbof s') = 0
    /\ e2fsck_journal_fix_bad_inode s' = Done OK s'.
Proof.
  set (s' := final_state (e2fsck_journal_fix_bad_inode Sample.stale_inode_image)).
  assert (Hrun : e2fsck_journal_fix_bad_inode Sample.stale_inode_image = Done OK s')
    by (vm_compute; reflexivity).
  exists s'. split; [exact Hrun|].
  split; [reflexivity | split; [reflexivity|]].
  exact (fix_bad_inode_idempotent Sample.stale_inode_image s' Hrun).
Defined.

Lemma load_reports_read_failure_witness :
  needs_read (j_sb_buffer (Sample.fresh_journal 8)) = true
  /\ next_io Sample.unreadable_image = ERRNO 5
  /\ exists s' : state,
       e2fsck_journal_load (Sample.fresh_journal 8) Sample.unreadable_image
       = Done (ERRNO 5,
               set_j_sb_buffer (set_b_err (ERRNO 5) Sample.fresh_buffer)
                               (Sample.fresh_journal 8)) s'
       /\ io_since Sample.unreadable_image s' [PhysRead 100].
Proof.
  split; [reflexivity | split; [reflexivity|]].
  destruct (load_reports_read_failure (Sample.fresh_journal 8)
              Sample.unreadable_image eq_refl eq_refl)
    as (s' & Hrun & _ & _ & Hio & _).
  exists s'. split; [exact Hrun | exact Hio].
Defined.

Lemma load_checks_format_before_geometry_witness :
  ll_rw_block1 READ (j_sb_buffer (Sample.fresh_journal 8)) Sample.future_format_image
    = Done (Sample.loaded_buffer
              (Sample.jsb JFS_MAGIC_NUMBER 9 1024 1024 1 7 42))
           (Sample.after_read Sample.future_format_image)
  /\ exists (j' : journal_t) (s' : state),
       e2fsck_journal_load (Sample.fresh_journal 8) Sample.future_format_image
       = Done (EXT2_ET_UNSUPP_FEATURE, j') s'.
Proof.
  assert (Hread : ll_rw_block1 READ (j_sb_buffer (Sample.fresh_journal 8))
                               Sample.future_format_image
                  = Done (Sample.loaded_buffer
                            (Sample.jsb JFS_MAGIC_NUMBER 9 1024 1024 1 7 42))
                         (Sample.after_read Sample.future_format_image))
    by (vm_compute; reflexivity).
  split; [exact Hread|].
  assert (Hmagic : get_be32 off_h_magic
                     (b_data (Sample.loaded_buffer
                                (Sample.jsb JFS_MAGIC_NUMBER 9 1024 1024 1 7 42)))
                   = JFS_MAGIC_NUMBER)
    by (vm_compute; reflexivity).
  destruct (load_checks_format_before_geometry _ _ _ _ Hread eq_refl Hmagic)
    as (r & j' & s' & Hrun & _ & _ & _ & _ & _ & _ & Hnone & _).
  assert (Hv : jsb_version
                 (b_data (Sample.loaded_buffer
                            (Sample.jsb JFS_MAGIC_NUMBER 9 1024 1024 1 7 42)))
               = None)
    by (vm_compute; reflexivity).
  rewrite (Hnone Hv) in Hrun. exists j', s'. exact Hrun.
Defined.

Lemma load_idempotent_witness :
  exists (j1 : journal_t) (s1 : state),
    e2fsck_journal_load (Sample.fresh_journal 8) Sample.dirty_image
    = Done (OK, j1) s1
    /\ j_tail j1 = 42
    /\ io_log (device s1) = [PhysRead 100]
    /\ e2fsck_journal_load j1 s1 = Done (OK, j1) s1.
Proof.
  set (o := e2fsck_journal_load (Sample.fresh_journal 8) Sample.dirty_image).
  set (j1 := match o with
             | Done (_, j) _ => j
             | _ => Sample.fresh_journal 8
             end).
  set (s1 := final_state o).
  assert (Hrun : e2fsck_journal_load (Sample.fresh_journal 8) Sample.dirty_image
                 = Done (OK, j1) s1)
    by (vm_compute; reflexivity).
  exists j1, s1. split; [exact Hrun|].
  split; [vm_compute; reflexivity | split; [vm_compute; reflexivity|]].
  exact (load_idempotent (Sample.fresh_journal 8) j1 Sample.dirty_image s1 Hrun).
Defined.

Lemma reset_super_is_loadable_witness :
  get_be32 off_h_magic (b_data (j_sb_buffer Cases.journal_without_magic)) = 0
  /\ exists j1 j2 : journal_t,
       e2fsck_journal_reset_super Cases.journal_without_magic Sample.clean_image
       = Done j1 Sample.clean_image
       /\ e2fsck_journal_load j1 Sample.clean_image
          = Done (OK, j2) Sample.clean_image
       /\ j_tail j2 = 0 /\ j_first j2 = 1 /\ j_transaction_sequence j2 = 1
       /\ j_last j2 = 1024.
Proof.
  split; [vm_compute; reflexivity|].
  assert (Hlen : List.length (b_data (j_sb_buffer Cases.journal_without_magic))
                 = Z.to_nat (blocksize (fs (ctx Sample.clean_image))))
    by (vm_compute; reflexivity).
  assert (H32 : (32 <= List.length
                         (b_data (j_sb_buffer Cases.journal_without_magic)))%nat)
    by (rewrite Hlen; vm_compute; lia).
  assert (Hmax : 0 <= j_maxlen Cases.journal_without_magic < 4294967296)
    by (vm_compute; split; [discriminate | reflexivity]).
  assert (Hup : b_uptodate (j_sb_buffer Cases.journal_without_magic) <> 0)
    by (vm_compute; discriminate).
  destruct (reset_super_is_loadable Cases.journal_without_magic Sample.clean_image
              eq_refl Hup eq_refl Hlen H32 eq_refl Hmax)
    as (j1 & j2 & Hreset & Hload & Htail & Hfirst & _ & Hseq & Hlast & _).
  exists j1, j2. splits; auto.
Defined.

Lemma release_frees_what_init_allocated_witness :
  exists s1 s2 : state,
    e2fsck_journal_init_inode 8 Sample.clean_image
    = Done (inr (Sample.fresh_journal 8)) s1
    /\ outstanding s1 = (1, 1, 1)%nat
    /\ e2fsck_journal_release (Sample.fresh_journal 8) true s1 = Done tt s2
    /\ outstanding s2 = outstanding Sample.clean_image.
Proof.
  set (s1 := final_state (e2fsck_journal_init_inode 8 Sample.clean_image)).
  assert (Hinit : e2fsck_journal_init_inode 8 Sample.clean_image
                  = Done (inr (Sample.fresh_journal 8)) s1)
    by (vm_compute; reflexivity).
  destruct (release_frees_what_init_allocated (Sample.fresh_journal 8) true s1)
    as (s2 & Hrun & _ & _ & Hback).
  exists s1, s2. split; [exact Hinit|].
  split; [vm_compute; reflexivity | split; [exact Hrun|]].
  exact (Hback 8 Sample.clean_image Hinit).
Defined.

Lemma check_readonly_device_untouched_witness :
  readonly Sample.readonly_recover_image = true
  /\ reads_only Sample.readonly_recover_image
       (final_state (e2fsck_check_ext3_journal Sample.readonly_recover_image)).
Proof.
  split; [reflexivity|].
  exact (check_readonly_device_untouched Sample.readonly_recover_image eq_refl).
Defined.

Lemma no_has_journal_undecided_rounds_witness :
  hasj Cases.undecided_image = false
  /\ recov Cases.undecided_image = true
  /\ answers (problems Cases.undecided_image) = undecided 2 ++ [true; true]
  /\ no_has_journal (2 + 1) Cases.undecided_image
     = no_has_journal 1
         (set_problems
            {| answers := [true; true];
               asked := asked (problems Cases.undecided_image)
                        ++ undecided_log 2 |}
            Cases.undecided_image).
Proof.
  split; [reflexivity | split; [reflexivity | split; [reflexivity|]]].
  exact (no_has_journal_undecided_rounds 2 1 [true; true] Cases.undecided_image
           eq_refl eq_refl eq_refl).
Defined.

Lemma no_has_journal_unanimous_witness :
  answers (problems Cases.agreeing_image) = [true; true]
  /\ exists (s' : state) (qs : list (problem_t * bool)),
       no_has_journal 1 Cases.agreeing_image = Done tt s'
       /\ asked_since Cases.agreeing_image s' qs
       /\ (List.length qs <= 2)%nat.
Proof.
  split; [reflexivity|].
  exact (no_has_journal_unanimous true [] 0 Cases.agreeing_image eq_refl).
Defined.

Lemma recover_marks_journal_empty_witness :
  get_be32 off_s_start (blocks (device Cases.failed_replay_image) 100) = 42
  /\ exists (s' : state) (data : list byte),
       recover_ext3_journal Cases.failed_replay_image = Done (ERRNO 5) s'
       /\ io_log (device s') = [PhysRead 100; PhysWrite 100 data]
       /\ blocks (device s') 100 = data
       /\ get_be32 off_s_start data = 0.
Proof.
  split; [vm_compute; reflexivity|].
  set (s := Cases.failed_replay_image).
  set (s1 := final_state (e2fsck_get_journal s)).
  assert (Hget : e2fsck_get_journal s = Done (inr (Sample.fresh_journal 8)) s1)
    by (vm_compute; reflexivity).
  set (o := e2fsck_journal_load (Sample.fresh_journal 8) s1).
  set (j1 := match o with
             | Done (_, j) _ => j
             | _ => Sample.fresh_journal 8
             end).
  set (s2 := final_state o).
  assert (Hload : e2fsck_journal_load (Sample.fresh_journal 8) s1
                  = Done (OK, j1) s2)
    by (vm_compute; reflexivity).
  assert (Hro : readonly s2 = false) by (vm_compute; reflexivity).
  assert (Hrev : is_err (journal_init_revoke_result (externals s2) j1 1024)
                 = false)
    by (vm_compute; reflexivity).
  assert (Heng : journal_recover_result (externals s2) j1 (blocks (device s2))
                 = (-5, j1, blocks (device s2)))
    by reflexivity.
  destruct (recover_marks_journal_empty s s1 s2 (Sample.fresh_journal 8) j1 j1
              OK (-5) (blocks (device s2)) Hro Hget Hload eq_refl Hrev Heng)
    as (s' & Hrun & Hlog & Hblk & Hstart).
  exists s', (release_data (j_transaction_sequence j1) true
                           (b_data (j_sb_buffer j1))).
  split; [exact Hrun|]. split; [rewrite Hlog; vm_compute; reflexivity|].
  split.
  - assert (Hio : is_err (next_io s2) = false) by (vm_compute; reflexivity).
    exact (Hblk Hio).
  - apply Hstart. vm_compute. lia.
Defined.

Lemma check_skips_plain_ext2_witness :
  hasj Cases.plain_ext2_image = false
  /\ e2fsck_check_ext3_journal Cases.plain_ext2_image
     = Done OK Cases.plain_ext2_image.
Proof.
  split; [reflexivity|].
  exact (check_skips_plain_ext2 Cases.plain_ext2_image
           eq_refl eq_refl eq_refl eq_refl eq_refl).
Defined.
